(** * lerna bootstrap: the dependency-placement planner and its orchestrator

    A shallow embedding of [src/commands/BootstrapCommand.js]:
    [getDependenciesToInstall] (the planner), [installExternalDependencies]
    (the install phase that turns the plan into installer actions), what
    those actions do when they run, the phases [bootstrapPackages] chains
    under [execute], and the batching of lifecycle scripts ([initialize],
    [runScriptInPackages]).

    JavaScript values are modelled as follows.
    - A plain object used as a map is an association list of its own
      properties in creation order ([JsObject.t]); [Object.keys] lists the
      array-index keys first, in ascending numeric order, and then the other
      keys in creation order.  A read [o[k]] that finds no own property
      finds the members of [Object.prototype] ([JsObject.inherits]); the
      planner throws where it meets one.  The root manifest's dependency
      map is assumed to have no own property ["__proto__"], which the
      seeding assignment would not create.
    - Truthiness of a string is non-emptiness ([truthy]); [undefined] is the
      [None] of an option.
    - Reading a property of [undefined] throws: the functions return a
      [result], whose [TypeError] case is that exception.
    - The template literal [`${name}@${version}`] is kept as the pair it is
      built from ([DepSpec.t]) and rendered by [DepSpec.to_string] where the
      code hands it to the installer.
    - Of the tracker's log the planner keeps only the warnings, by code
      and by the values their message interpolates; a run of an action
      keeps the info lines and the work added and completed.
    - A callback-taking collaborator is the error its callback is given, if
      any; [async.series] runs its tasks in order up to the first error.
    - [options.hoist] and [options.nohoist] are a glob string or
      [undefined]. *)

From Stdlib Require Import List String Ascii Bool Arith NArith Lia Permutation.
Import ListNotations.
Local Open Scope string_scope.
Local Open Scope list_scope.

Set Implicit Arguments.

(* ------------------------------------------------------------------ *)
(** ** JavaScript strings and objects *)

(** [Boolean(s)] for a string [s]. *)
Definition truthy (s : string) : bool := negb (s =? "").

Module JsObject.

Definition t (V : Type) : Type := list (string * V).

Section Ops.
Variable V : Type.

    (** [o[k]] on own properties; [None] is [undefined]. *)
Fixpoint get (o : t V) (k : string) : option V :=
      match o with
      | [] => None
      | (k', v) :: r => if k' =? k then Some v else get r k
      end.

    (** [o[k] = v]: an existing property keeps its place. *)
Fixpoint set (o : t V) (k : string) (v : V) : t V :=
      match o with
      | [] => [(k, v)]
      | (k', v') :: r =>
          if k' =? k then (k', v) :: r else (k', v') :: set r k v
      end.

    (** Own property names in creation order, each once. *)
Fixpoint own_keys (o : t V) : list string :=
      match o with
      | [] => []
      | (k, _) :: r => k :: filter (fun k' => negb (k' =? k)) (own_keys r)
      end.
End Ops.

  (** Decimal digit of a character. *)
Definition digit (c : ascii) : option N :=
    let n := N_of_ascii c in
    if ((48 <=? n) && (n <=? 57))%N then Some (n - 48)%N else None.

Fixpoint digits (s : string) (acc : N) : option N :=
    match s with
    | EmptyString => Some acc
    | String c r =>
        match digit c with
        | Some d => digits r (acc * 10 + d)%N
        | None => None
        end
    end.

  (** A property name is an array index when it is the canonical decimal
      numeral of an integer below 2^32 - 1. *)
Definition array_index (s : string) : option N :=
    match s with
    | EmptyString => None
    | String c r =>
        if andb (Ascii.eqb c "0"%char) (negb (r =? ""))
        then None
        else match digits s 0 with
             | Some n => if (n <? 4294967295)%N then Some n else None
             | None => None
             end
    end.

Definition is_index (s : string) : bool :=
    match array_index s with Some _ => true | None => false end.

Definition index_value (s : string) : N :=
    match array_index s with Some n => n | None => 0%N end.

Fixpoint insert_index (k : string) (l : list string) : list string :=
    match l with
    | [] => [k]
    | k' :: r =>
        if (index_value k <=? index_value k')%N
        then k :: l else k' :: insert_index k r
    end.

Definition sort_index (l : list string) : list string :=
    fold_right insert_index [] l.

  (** [Object.keys(o)]. *)
Definition keys {V} (o : t V) : list string :=
    sort_index (filter is_index (own_keys o))
      ++ filter (fun k => negb (is_index k)) (own_keys o).

  (** [Object.keys(o).map(k => [k, o[k]])]. *)
Definition entries {V} (o : t V) : list (string * V) :=
    flat_map (fun k => match get o k with
                       | Some v => [(k, v)]
                       | None => []
                       end) (keys o).

  (** The names of the members a plain object inherits from
      [Object.prototype]. *)
Definition prototype_members : list string :=
    ["constructor"; "__defineGetter__"; "__defineSetter__"; "hasOwnProperty";
     "__lookupGetter__"; "__lookupSetter__"; "isPrototypeOf";
     "propertyIsEnumerable"; "toString"; "valueOf"; "__proto__";
     "toLocaleString"].

Definition prototype_member (k : string) : bool :=
    existsb (String.eqb k) prototype_members.

  (** [o[k]] finds no own property but an inherited member: a truthy value
      (a function, or the prototype itself) that has none of the
      properties the code goes on to read. *)
Definition inherits {V} (o : t V) (k : string) : bool :=
    match get o k with
    | Some _ => false
    | None => prototype_member k
    end.

End JsObject.

(** A thrown exception or a returned value. *)
Inductive result (A : Type) : Type :=
| Ok (a : A)
| TypeError (msg : string).
Arguments Ok {A} a.
Arguments TypeError {A} msg.

Definition bind {A B} (r : result A) (f : A -> result B) : result B :=
  match r with
  | Ok a => f a
  | TypeError m => TypeError m
  end.

Notation "x <- c1 ;; c2" := (bind c1 (fun x => c2))
  (at level 100, c1 at next level, right associativity).

(** [l.forEach(a => ...)] over a state, stopping at the first exception. *)
Fixpoint forEachM {S A} (f : S -> A -> result S) (l : list A) (s : S)
  : result S :=
  match l with
  | [] => Ok s
  | a :: r => s' <- f s a ;; forEachM f r s'
  end.

(** [l.map(f)] where [f] may throw. *)
Fixpoint mapM {A B} (f : A -> result B) (l : list A) : result (list B) :=
  match l with
  | [] => Ok []
  | a :: r => b <- f a ;; bs <- mapM f r ;; Ok (b :: bs)
  end.

(** [l.reduce(f)] without an initial value: throws on the empty array. *)
Definition reduce {A} (f : A -> A -> A) (l : list A) : result A :=
  match l with
  | [] => TypeError "Reduce of empty array with no initial value"
  | a :: r => Ok (fold_left f r a)
  end.

(* ------------------------------------------------------------------ *)
(** ** Data model *)

Module Package.
Record t : Type := mk
    { name : string;
      version : string;
      location : string;
      nodeModulesLocation : string;
      allDependencies : JsObject.t string }.
End Package.

(** A dependency as the planner sees it after
    [map to package or normalized external dependency]: only [name] and
    [version] of the object are read afterwards. *)
Module Dep.
Record t : Type := mk { name : string; version : string }.
End Dep.

Module DepSpec.
Record t : Type := mk { name : string; version : string }.
Definition to_string (s : t) : string := name s ++ "@" ++ version s.
End DepSpec.

Module RootInstall.
Record t : Type := mk
    { name : string;
      dependents : list Package.t;
      dependency : DepSpec.t;
      isSatisfied : bool }.
End RootInstall.

Module LeafInstall.
Record t : Type := mk
    { dependency : DepSpec.t;
      isSatisfied : bool }.
End LeafInstall.

(** One entry of [depsToInstall]. *)
Module DepEntry.
Record t : Type := mk
    { versions : JsObject.t nat;
      dependents : JsObject.t (list string) }.
End DepEntry.

Definition Aggregate : Type := JsObject.t DepEntry.t.

(** [tracker.warn(code, message)], by code and the values interpolated in
    the message. *)
Inductive Warning : Type :=
| EHOIST_ROOT_VERSION (name rootVersion commonVersion : string)
| EHOIST_PKG_VERSION (pkg name version rootVersion : string).

Definition Warning_eq_dec (a b : Warning) : {a = b} + {a <> b}.
Proof. repeat decide equality. Defined.

(** The dependency a warning is about, and the range of it. *)
Definition warningName (w : Warning) : string :=
  match w with
  | EHOIST_ROOT_VERSION n _ _ => n
  | EHOIST_PKG_VERSION _ n _ _ => n
  end.

Definition warningVersion (w : Warning) : string :=
  match w with
  | EHOIST_ROOT_VERSION _ rv _ => rv
  | EHOIST_PKG_VERSION _ _ v _ => v
  end.

(** How many times a warning was logged. *)
Definition timesLogged (w : Warning) (log : list Warning) : nat :=
  count_occ Warning_eq_dec log w.

Record Plan : Type := mkPlan
  { root : list RootInstall.t;
    leaves : JsObject.t (list LeafInstall.t) }.

Record Repository : Type := mkRepository
  { rootPath : string;
    repo_nodeModulesLocation : string;
    package_allDependencies : JsObject.t string }.

Record Options : Type := mkOptions
  { hoist : option string;
    nohoist : option string }.

(** The fields of the command object ([this]) the code reads. *)
Record BootstrapCommand : Type := mkCommand
  { packages : list Package.t;
    filteredPackages : list Package.t;
    packageGraph_get : string -> option Package.t;
    repository : Repository;
    options : Options;
    toposort : bool;
    concurrency : nat }.

(** The collaborators the command calls and whose code lives elsewhere:
    [semver.satisfies], two methods of [Package], one of [Repository] and
    [PackageUtilities.isHoistedPackage].  Each is a pure test. *)
Class Collaborators : Type := mkCollaborators
  { semver_satisfies : string -> string -> bool;
    hasMatchingDependency : Package.t -> Dep.t -> bool;
    hasDependencyInstalled : Package.t -> string -> bool;
    repository_hasDependencyInstalled : string -> string -> bool;
    isHoistedPackage : string -> string -> option string -> bool }.

(* ------------------------------------------------------------------ *)
(** ** The planner: [getDependenciesToInstall] *)

Section Planner.
Context {C : Collaborators}.
Variable this : BootstrapCommand.

(** [!version || semver.satisfies(pkg.version, version)], where [version]
    may be [undefined]. *)
Definition versionMatches (pkg : Package.t) (version : option string) : bool :=
  match version with
  | None => true
  | Some v => negb (truthy v) || semver_satisfies (Package.version pkg) v
  end.

Definition findPackage (name : string) (version : option string)
  : option Package.t :=
  find (fun pkg => (Package.name pkg =? name) && versionMatches pkg version)
       (packages this).

Definition hasPackage (name : string) (version : option string) : bool :=
  match findPackage name version with Some _ => true | None => false end.

(** [options.hoist] as a condition. *)
Definition hoistEnabled : bool :=
  match hoist (options this) with Some h => truthy h | None => false end.

Definition hoistPattern : string :=
  match hoist (options this) with Some h => h | None => "" end.

(** [hoist && PackageUtilities.isHoistedPackage(name, hoist, nohoist)]. *)
Definition isHoisted (name : string) : bool :=
  hoistEnabled && isHoistedPackage name hoistPattern (nohoist (options this)).

Definition rootDependencies : JsObject.t string :=
  package_allDependencies (repository this).

(** The entry the root manifest seeds for one of its dependencies. *)
Definition seedEntry (version : string) : DepEntry.t :=
  DepEntry.mk (JsObject.set [] version 0) (JsObject.set [] version []).

Definition seedRoot (depsToInstall : Aggregate) (nv : string * string)
  : Aggregate :=
  JsObject.set depsToInstall (fst nv) (seedEntry (snd nv)).

(** [findPackage(name, range) || { name, version: range }]. *)
Definition toDep (nv : string * string) : Dep.t :=
  match findPackage (fst nv) (Some (snd nv)) with
  | Some local => Dep.mk (Package.name local) (Package.version local)
  | None => Dep.mk (fst nv) (snd nv)
  end.

(** [!hasPackage(dep.name, dep.version) || !pkg.hasMatchingDependency(dep, true)]. *)
Definition isExternal (pkg : Package.t) (dep : Dep.t) : bool :=
  negb (hasPackage (Dep.name dep) (Some (Dep.version dep)))
  || negb (hasMatchingDependency pkg dep).

(** The dependencies of [pkg] that reach the aggregate. *)
Definition externalDependencies (pkg : Package.t) : list Dep.t :=
  filter (isExternal pkg)
         (map toDep (JsObject.entries (Package.allDependencies pkg))).

Definition emptyEntry : DepEntry.t := DepEntry.mk [] [].

(** [versions[version]] read as a count and [dependents[version]] read as
    an array; both properties exist whenever they are read. *)
Definition countOf (versions : JsObject.t nat) (version : string) : nat :=
  match JsObject.get versions version with Some c => c | None => 0 end.

Definition dependentsOf (dependents : JsObject.t (list string))
  (version : string) : list string :=
  match JsObject.get dependents version with Some l => l | None => [] end.

(** [if (!dep.versions[version]) { dep.versions[version] = 0;
    dep.dependents[version] = []; }]. *)
Definition addVersion (version : string) (dep : DepEntry.t) : DepEntry.t :=
  match JsObject.get (DepEntry.versions dep) version with
  | Some (S _) => dep
  | _ => DepEntry.mk
           (JsObject.set (DepEntry.versions dep) version 0)
           (JsObject.set (DepEntry.dependents dep) version [])
  end.

(** [dep.versions[version]++; dep.dependents[version].push(pkg.name)]. *)
Definition addDependent (requester version : string) (dep : DepEntry.t)
  : DepEntry.t :=
  DepEntry.mk
    (JsObject.set (DepEntry.versions dep) version
       (S (countOf (DepEntry.versions dep) version)))
    (JsObject.set (DepEntry.dependents dep) version
       (dependentsOf (DepEntry.dependents dep) version ++ [requester])).

(** [depsToInstall[name] || (depsToInstall[name] = { versions: {},
    dependents: {} })]. *)
Definition entryOf (depsToInstall : Aggregate) (name : string) : DepEntry.t :=
  match JsObject.get depsToInstall name with
  | Some e => e
  | None => emptyEntry
  end.

(** The body of the inner [forEach(({ name, version }) => ...)] when each
    read finds an own property or nothing; the entry is updated in
    place. *)
Definition recordDependency (requester : string) (depsToInstall : Aggregate)
  (d : Dep.t) : Aggregate :=
  JsObject.set depsToInstall (Dep.name d)
    (addDependent requester (Dep.version d)
       (addVersion (Dep.version d) (entryOf depsToInstall (Dep.name d)))).

Definition recordPackage (depsToInstall : Aggregate) (pkg : Package.t)
  : Aggregate :=
  fold_left (recordDependency (Package.name pkg))
            (externalDependencies pkg) depsToInstall.

(** [depsToInstall] once the root manifest has been read, and once every
    filtered package has been too. *)
Definition seedDependencies : Aggregate :=
  fold_left seedRoot (JsObject.entries rootDependencies) [].

Definition depsToInstall : Aggregate :=
  fold_left recordPackage (filteredPackages this) seedDependencies.

(** The same body with the reads that may leave the object.  When
    [depsToInstall[name]] finds an inherited member, no entry is created
    and [dep.versions] is [undefined], so [dep.versions[version]] throws.
    When [dep.versions[version]] finds an inherited member, the version is
    not initialised and [dep.dependents[version]], which has the own keys
    of [dep.versions], is an inherited member too, with no [push]. *)
Definition tryRecordDependency (requester : string) (depsToInstall : Aggregate)
  (d : Dep.t) : result Aggregate :=
  if JsObject.inherits depsToInstall (Dep.name d)
  then TypeError "Cannot read property of undefined"
  else if JsObject.inherits
            (DepEntry.versions (entryOf depsToInstall (Dep.name d)))
            (Dep.version d)
  then TypeError "dep.dependents[version].push is not a function"
  else Ok (recordDependency requester depsToInstall d).

Definition tryRecordPackage (depsToInstall : Aggregate) (pkg : Package.t)
  : result Aggregate :=
  forEachM (tryRecordDependency (Package.name pkg))
           (externalDependencies pkg) depsToInstall.

(** [depsToInstall] as the two loops leave it, or the exception that ends
    them. *)
Definition recordedDependencies : result Aggregate :=
  forEachM tryRecordPackage (filteredPackages this) seedDependencies.

(** The reducer of the common version over counts [c]: the later key wins
    unless the earlier one has strictly more requesters. *)
Definition later_max (c : string -> nat) (a b : string) : string :=
  if Nat.ltb (c b) (c a) then a else b.

(** [versions[a] > versions[b]] on possibly [undefined] operands. *)
Definition gtCount (a b : option nat) : bool :=
  match a, b with
  | Some x, Some y => Nat.ltb y x
  | _, _ => false
  end.

(** [Object.keys(versions).reduce((a, b) => versions[a] > versions[b] ? a : b)]. *)
Definition commonVersionOf (versions : JsObject.t nat) : result string :=
  reduce (fun a b =>
            if gtCount (JsObject.get versions a) (JsObject.get versions b)
            then a else b)
         (JsObject.keys versions).

(** [this.repository.package.allDependencies[name] || commonVersion]. *)
Definition rootVersionOf (name commonVersion : string) : string :=
  match JsObject.get rootDependencies name with
  | Some r => if truthy r then r else commonVersion
  | None => commonVersion
  end.

(** [this.packageGraph.get(dep).package]. *)
Definition graphPackage (name : string) : result Package.t :=
  match packageGraph_get this name with
  | Some p => Ok p
  | None => TypeError "Cannot read property 'package' of undefined"
  end.

(** What the planner has built so far: [root], [leaves] and the warnings
    handed to the tracker. *)
Record PlanState : Type := mkState
  { st_root : list RootInstall.t;
    st_leaves : JsObject.t (list LeafInstall.t);
    st_warnings : list Warning }.

(** [if (rootVersion !== commonVersion) tracker.warn("EHOIST_ROOT_VERSION", ...)]. *)
Definition rootVersionWarning (name rootVersion commonVersion : string)
  : list Warning :=
  if rootVersion =? commonVersion then []
  else [EHOIST_ROOT_VERSION name rootVersion commonVersion].

(** [if (rootVersion) tracker.warn("EHOIST_PKG_VERSION", ...)]. *)
Definition pkgVersionWarning (name version : string)
  (rootVersion : option string) (pkg : string) : list Warning :=
  match rootVersion with
  | Some rv => if truthy rv then [EHOIST_PKG_VERSION pkg name version rv]
               else []
  | None => []
  end.

(** The hoisting branch for one name: the root version and the state after
    the warning and [root.push]. *)
Definition hoistToRoot (name : string) (e : DepEntry.t) (st : PlanState)
  : result (string * PlanState) :=
  commonVersion <- commonVersionOf (DepEntry.versions e) ;;
  let rootVersion := rootVersionOf name commonVersion in
  let warned := rootVersionWarning name rootVersion commonVersion in
  dependents <- mapM graphPackage
                  (dependentsOf (DepEntry.dependents e) rootVersion) ;;
  Ok (rootVersion,
      mkState
        (st_root st ++
           [RootInstall.mk name dependents (DepSpec.mk name rootVersion)
              (repository_hasDependencyInstalled name rootVersion)])
        (st_leaves st)
        (st_warnings st ++ warned)).

(** [leaves[pkg] || (leaves[pkg] = [])]. *)
Definition leavesOf (leaves : JsObject.t (list LeafInstall.t)) (pkg : string)
  : list LeafInstall.t :=
  match JsObject.get leaves pkg with Some l => l | None => [] end.

(** [{ dependency: `${name}@${version}`,
       isSatisfied: findPackage(pkg).hasDependencyInstalled(name) }]. *)
Definition leafOf (name version : string) (requester : Package.t)
  : LeafInstall.t :=
  LeafInstall.mk (DepSpec.mk name version)
    (hasDependencyInstalled requester name).

(** The body of [dependents[version].forEach((pkg) => ...)].  The argument
    of [push] is evaluated before the call, so a requester that is no
    package throws first; [leaves[pkg]] that finds an inherited member is
    truthy and has no [push]. *)
Definition installInLeaf (name version : string) (rootVersion : option string)
  (st : PlanState) (pkg : string) : result PlanState :=
  let warned := pkgVersionWarning name version rootVersion pkg in
  match findPackage pkg None with
  | None => TypeError "Cannot read property 'hasDependencyInstalled' of undefined"
  | Some p =>
      if JsObject.inherits (st_leaves st) pkg
      then TypeError "leaves[pkg].push is not a function"
      else
        Ok (mkState (st_root st)
              (JsObject.set (st_leaves st) pkg
                 (leavesOf (st_leaves st) pkg ++ [leafOf name version p]))
              (st_warnings st ++ warned))
  end.

(** [version === rootVersion], where [rootVersion] may be [undefined]. *)
Definition isRootVersion (version : string) (rootVersion : option string)
  : bool :=
  match rootVersion with Some rv => version =? rv | None => false end.

(** The body of [Object.keys(versions).forEach((version) => ...)]. *)
Definition installVersion (name : string) (e : DepEntry.t)
  (rootVersion : option string) (st : PlanState) (version : string)
  : result PlanState :=
  if isRootVersion version rootVersion then Ok st
  else
    match JsObject.get (DepEntry.dependents e) version with
    | None => TypeError "Cannot read property 'forEach' of undefined"
    | Some pkgs =>
        forEachM (installInLeaf name version rootVersion) pkgs st
    end.

(** The body of [Object.keys(depsToInstall).forEach((name) => ...)]. *)
Definition placeDependency (deps : Aggregate) (st : PlanState) (name : string)
  : result PlanState :=
  match JsObject.get deps name with
  | None => TypeError "Cannot destructure property of undefined"
  | Some e =>
      hoisted <- (if isHoisted name
                  then rs <- hoistToRoot name e st ;; Ok (Some (fst rs), snd rs)
                  else Ok (None, st)) ;;
      forEachM (installVersion name e (fst hoisted))
               (JsObject.keys (DepEntry.versions e)) (snd hoisted)
  end.

Definition initialState : PlanState := mkState [] [] [].

Definition planFrom (deps : Aggregate) : result PlanState :=
  forEachM (placeDependency deps) (JsObject.keys deps) initialState.

(** The plan the function returns, with the warnings it logged. *)
Definition getDependenciesToInstall : result (Plan * list Warning) :=
  deps <- recordedDependencies ;;
  st <- planFrom deps ;;
  Ok (mkPlan (st_root st) (st_leaves st), st_warnings st).

(** *** Vocabulary of the statements about the planner *)

(** The requesters recorded under ([name], [version]), in the order the
    planner meets them. *)
Definition requestersOf (name version : string) : list string :=
  flat_map
    (fun pkg =>
       flat_map (fun d => if (Dep.name d =? name) && (Dep.version d =? version)
                          then [Package.name pkg] else [])
                (externalDependencies pkg))
    (filteredPackages this).

(** [depsToInstall[name].dependents[version]], empty when there is none. *)
Definition dependentsAt (deps : Aggregate) (name version : string)
  : list string :=
  match JsObject.get deps name with
  | Some e => dependentsOf (DepEntry.dependents e) version
  | None => []
  end.


(** The common version of a name of the aggregate. *)
Definition commonVersion (name : string) : option string :=
  match JsObject.get depsToInstall name with
  | Some e => match commonVersionOf (DepEntry.versions e) with
              | Ok cv => Some cv
              | TypeError _ => None
              end
  | None => None
  end.

(** The version hoisted to the root for a name, if the name is hoisted. *)
Definition rootVersion (name : string) : option string :=
  if isHoisted name
  then match commonVersion name with
       | Some cv => Some (rootVersionOf name cv)
       | None => None
       end
  else None.

(** The warnings logged while one version of a name is placed, and while
    the name is. *)
Definition versionWarnings (name : string) (e : DepEntry.t)
  (rootVersion : option string) (version : string) : list Warning :=
  if isRootVersion version rootVersion then []
  else flat_map (pkgVersionWarning name version rootVersion)
                (dependentsOf (DepEntry.dependents e) version).

Definition warningsFor (deps : Aggregate) (name : string) : list Warning :=
  match JsObject.get deps name with
  | None => []
  | Some e =>
      if isHoisted name
      then match commonVersionOf (DepEntry.versions e) with
           | Ok cv =>
               rootVersionWarning name (rootVersionOf name cv) cv
               ++ flat_map
                    (versionWarnings name e (Some (rootVersionOf name cv)))
                    (JsObject.keys (DepEntry.versions e))
           | TypeError _ => []
           end
      else []
  end.

(** [st'] holds what [st] holds and, after it, root installs that satisfy
    [Pr] and leaf installs that satisfy [Pl] for their requester. *)
Definition growsWith (Pr : RootInstall.t -> Prop)
  (Pl : string -> LeafInstall.t -> Prop) (st st' : PlanState) : Prop :=
  (exists r, st_root st' = st_root st ++ r /\ Forall Pr r)
  /\ (forall k, exists l,
        leavesOf (st_leaves st') k = leavesOf (st_leaves st) k ++ l
        /\ Forall (Pl k) l).

(** The state after the hoisting branch of a name whose common version is
    [cv] and whose root dependents are [pkgs]. *)
Definition hoistedState (name cv : string) (pkgs : list Package.t)
  (st : PlanState) : PlanState :=
  mkState
    (st_root st ++
       [RootInstall.mk name pkgs (DepSpec.mk name (rootVersionOf name cv))
          (repository_hasDependencyInstalled name (rootVersionOf name cv))])
    (st_leaves st)
    (st_warnings st
       ++ rootVersionWarning name (rootVersionOf name cv) cv).

(** The root install pushed for a hoisted name of the aggregate. *)
Definition rootInstallFor (deps : Aggregate) (name : string)
  (r : RootInstall.t) : Prop :=
  exists e cv pkgs,
    JsObject.get deps name = Some e
    /\ isHoisted name = true
    /\ commonVersionOf (DepEntry.versions e) = Ok cv
    /\ mapM graphPackage
         (dependentsOf (DepEntry.dependents e) (rootVersionOf name cv))
       = Ok pkgs
    /\ r = RootInstall.mk name pkgs
             (DepSpec.mk name (rootVersionOf name cv))
             (repository_hasDependencyInstalled name (rootVersionOf name cv)).

(** A leaf install pushed for requester [k] while [name] is placed. *)
Definition leafInstallFor (deps : Aggregate) (name k : string)
  (l : LeafInstall.t) : Prop :=
  exists e v pk,
    JsObject.get deps name = Some e
    /\ In v (JsObject.keys (DepEntry.versions e))
    /\ In k (dependentsOf (DepEntry.dependents e) v)
    /\ findPackage k None = Some pk
    /\ l = leafOf name v pk.

(** A leaf install pushed for requester [k] while version [v] of [name]
    is placed. *)
Definition versionLeaf (name : string) (e : DepEntry.t) (v k : string)
  (l : LeafInstall.t) : Prop :=
  In k (dependentsOf (DepEntry.dependents e) v)
  /\ exists pk, findPackage k None = Some pk /\ l = leafOf name v pk.

(** A root install of the plan comes from a hoisted name of the aggregate,
    a leaf install from a requester of one of its versions. *)
Definition rootInstallOf (deps : Aggregate) (r : RootInstall.t) : Prop :=
  exists n, In n (JsObject.keys deps) /\ rootInstallFor deps n r.

Definition leafInstallOf (deps : Aggregate) (k : string) (l : LeafInstall.t)
  : Prop :=
  exists n, In n (JsObject.keys deps) /\ leafInstallFor deps n k l.

(** Every requester with leaf installs is a package of the graph. *)
Definition knownLeaves (st : PlanState) : Prop :=
  forall k, In k (JsObject.keys (st_leaves st)) ->
            exists p, packageGraph_get this k = Some p.

(** Counts and requester lists agree in an entry. *)
Definition wfEntry (e : DepEntry.t) : Prop :=
  forall v,
    match JsObject.get (DepEntry.versions e) v with
    | Some c => exists l, JsObject.get (DepEntry.dependents e) v = Some l
                          /\ List.length l = c
    | None => JsObject.get (DepEntry.dependents e) v = None
    end.

Definition wfAggregate (deps : Aggregate) : Prop :=
  forall n e, JsObject.get deps n = Some e ->
              wfEntry e /\ JsObject.keys (DepEntry.versions e) <> [].

End Planner.

(* ------------------------------------------------------------------ *)
(** ** The install phase: [installExternalDependencies] *)

(** One call of [NpmUtilities.installInDir(directory, dependencies, config,
    npmGlobalStyle, callback)]; [config] is always [this.npmConfig].  The
    root install leaves [npmGlobalStyle] out ([None]); a leaf install
    passes [this.options.hoist], whatever it holds. *)
Record InstallCall : Type := mkCall
  { call_directory : string;
    call_dependencies : list string;
    call_npmGlobalStyle : option (option string) }.

(** The closures pushed on [actions], by what they captured. *)
Inductive Action : Type :=
| RootInstallAction (depsToInstallInRoot : list string)
    (root : list RootInstall.t)
| PruneAction (candidates : list (string * string))
| LeafInstallAction (pkg : Package.t) (deps : list LeafInstall.t).

Section Orchestrator.
Context {C : Collaborators}.
Variable this : BootstrapCommand.

Definition rootSpec (r : RootInstall.t) : string :=
  DepSpec.to_string (RootInstall.dependency r).

Definition leafSpec (l : LeafInstall.t) : string :=
  DepSpec.to_string (LeafInstall.dependency l).

(** [root.some(({ isSatisfied }) => !isSatisfied)
      ? root.map(({ dependency }) => dependency) : []]. *)
Definition depsToInstallInRoot (root : list RootInstall.t) : list string :=
  if existsb (fun r => negb (RootInstall.isSatisfied r)) root
  then map rootSpec root
  else [].

(** The directories to prune, as the two arguments of [path.join]. *)
Definition pruneCandidates (root : list RootInstall.t)
  : list (string * string) :=
  fold_left
    (fun list r =>
       list ++
       map (fun pkg => (Package.nodeModulesLocation pkg, RootInstall.name r))
           (filter (fun pkg =>
                      negb (Package.nodeModulesLocation pkg
                            =? repo_nodeModulesLocation (repository this)))
                   (RootInstall.dependents r)))
    (filter (fun r => negb (Nat.eqb (List.length (RootInstall.dependents r)) 0))
            root)
    [].

(** The two actions of the [if (Object.keys(root).length)] block. *)
Definition rootActions (root : list RootInstall.t) : list Action :=
  match root with
  | [] => []
  | _ :: _ => [RootInstallAction (depsToInstallInRoot root) root;
               PruneAction (pruneCandidates root)]
  end.

(** [{ pkg: this.packageGraph.get(pkgName).package, deps: leaves[pkgName] }]. *)
Definition leafRequester (kv : string * list LeafInstall.t)
  : result (Package.t * list LeafInstall.t) :=
  pkg <- graphPackage this (fst kv) ;; Ok (pkg, snd kv).

(** The body of the [forEach(({ pkg, deps }) => ...)] over the leaves. *)
Definition leafAction (pd : Package.t * list LeafInstall.t) : list Action :=
  if existsb (fun l => negb (LeafInstall.isSatisfied l)) (snd pd)
  then [LeafInstallAction (fst pd) (snd pd)]
  else [].

Definition leafActions (leaves : JsObject.t (list LeafInstall.t))
  : result (list Action) :=
  requesters <- mapM leafRequester (JsObject.entries leaves) ;;
  Ok (flat_map leafAction requesters).

(** The [actions] array handed to [async.parallelLimit]. *)
Definition installExternalDependencies : result (list Action) :=
  planned <- getDependenciesToInstall this ;;
  leafs <- leafActions (leaves (fst planned)) ;;
  Ok (rootActions (root (fst planned)) ++ leafs).

(** Truthiness of the [npmGlobalStyle] argument as [installInDir] reads it. *)
Definition globalStyle (c : InstallCall) : bool :=
  match call_npmGlobalStyle c with
  | Some (Some h) => truthy h
  | _ => false
  end.

End Orchestrator.

(* ------------------------------------------------------------------ *)
(** ** Lifecycle scripts: [initialize] and [runScriptInPackages] *)

(** The error a callback is given. *)
Definition Err : Type := string.

(** What an observer sees of [pkg.runScript(scriptName, callback)]: the
    call and the callback. *)
Inductive ScriptEvent : Type :=
| ScriptStart (pkg : Package.t)
| ScriptFinish (pkg : Package.t).

(** Modelled from the spec: the edges of the package graph, whose code is
    not in this file's source.  [a] depends on [b] when the dependency map
    of [a] declares the name of [b]. *)
Definition dependsOn (a b : Package.t) : bool :=
  existsb (String.eqb (Package.name b))
          (JsObject.keys (Package.allDependencies a)).

Definition dependsOnAny (a : Package.t) (among : list Package.t) : bool :=
  existsb (dependsOn a) among.

(** Modelled from the spec: [PackageUtilities.topologicallyBatchPackages],
    whose code is not in this file's source.  Kahn-style batching, leaves
    first: each batch holds the remaining packages that depend on no
    remaining package, in their input order; a round that finds none is a
    dependency cycle ([None]). *)
Fixpoint batchesFrom (fuel : nat) (remaining : list Package.t)
  : option (list (list Package.t)) :=
  match remaining with
  | [] => Some []
  | _ :: _ =>
      match fuel with
      | 0 => None
      | S fuel' =>
          let ready :=
            filter (fun p => negb (dependsOnAny p remaining)) remaining in
          let blocked :=
            filter (fun p => dependsOnAny p remaining) remaining in
          match ready with
          | [] => None
          | _ :: _ =>
              match batchesFrom fuel' blocked with
              | Some rest => Some (ready :: rest)
              | None => None
              end
          end
      end
  end.

(** Modelled from the spec: [PackageUtilities.topologicallyBatchPackages].
    Each round takes at least one package, so as many rounds as there are
    packages suffice. *)
Definition topologicallyBatchPackages (pkgs : list Package.t)
  : option (list (list Package.t)) :=
  batchesFrom (List.length pkgs) pkgs.

(** The error [done] is given by the task of a package: the error of its
    script with [err.pkg] set to the package. *)
Definition ScriptError : Type := (Err * Package.t)%type.

(** Modelled from the spec: [async.parallelLimit] over the tasks of one
    batch, whose code is not in this file's source.  At most [limit] tasks
    run at a time; while none has failed any waiting task may start; any
    running task may finish; on the first failure no new task is started
    and those in flight complete.  The state is the tasks that wait, those
    that run and the first error so far; the batch ends, with that error
    if any, when nothing runs and nothing waits or a task has failed. *)
Inductive parallelLimit (limit : nat) (task : Package.t -> option ScriptError)
  : list Package.t -> list Package.t -> option ScriptError ->
    list ScriptEvent -> option ScriptError -> Prop :=
| pl_done (waiting : list Package.t) (failed : option ScriptError) :
    waiting = [] \/ failed <> None ->
    parallelLimit limit task waiting [] failed [] failed
| pl_start (w1 : list Package.t) (p : Package.t) (w2 running : list Package.t)
    (tr : list ScriptEvent) (result : option ScriptError) :
    List.length running < limit ->
    parallelLimit limit task (w1 ++ w2) (p :: running) None tr result ->
    parallelLimit limit task (w1 ++ p :: w2) running None
      (ScriptStart p :: tr) result
| pl_finish (waiting r1 : list Package.t) (p : Package.t)
    (r2 : list Package.t) (failed : option ScriptError)
    (tr : list ScriptEvent) (result : option ScriptError) :
    parallelLimit limit task waiting (r1 ++ r2)
      (match failed with Some e => Some e | None => task p end) tr result ->
    parallelLimit limit task waiting (r1 ++ p :: r2) failed
      (ScriptFinish p :: tr) result.

(** Modelled from the spec: [PackageUtilities.runParallelBatches], whose
    code is not in this file's source: batch N+1 does not start until
    batch N completes entirely, and a batch that fails ends the run with
    its error. *)
Inductive runParallelBatches (limit : nat)
  (task : Package.t -> option ScriptError)
  : list (list Package.t) -> list ScriptEvent -> option ScriptError -> Prop :=
| rpb_nil : runParallelBatches limit task [] [] None
| rpb_next (batch : list Package.t) (rest : list (list Package.t))
    (tb tr : list ScriptEvent) (result : option ScriptError) :
    parallelLimit limit task batch [] None tb None ->
    runParallelBatches limit task rest tr result ->
    runParallelBatches limit task (batch :: rest) (tb ++ tr) result
| rpb_failed (batch : list Package.t) (rest : list (list Package.t))
    (tb : list ScriptEvent) (e : ScriptError) :
    parallelLimit limit task batch [] None tb (Some e) ->
    runParallelBatches limit task (batch :: rest) tb (Some e).

Section Lifecycle.
Variable this : BootstrapCommand.

(** The error the callback of [pkg.runScript(scriptName, callback)] is
    given, if any. *)
Variable scriptOutcome : Package.t -> option Err.

(** [this.batchedPackages] as [initialize] sets it; [None] is the failure
    of the batching on a dependency cycle. *)
Definition batchedPackages : option (list (list Package.t)) :=
  if toposort this
  then topologicallyBatchPackages (filteredPackages this)
  else Some [filteredPackages this].

(** The task made for a package: [if (err) { err.pkg = pkg; } done(err)]. *)
Definition scriptTask (pkg : Package.t) : option ScriptError :=
  match scriptOutcome pkg with
  | Some err => Some (err, pkg)
  | None => None
  end.

(** The script events of one [runScriptInPackages(scriptName, callback)]
    and the error its callback is given. *)
Inductive runScriptInPackages
  : list ScriptEvent -> option ScriptError -> Prop :=
| rsp_none :
    filteredPackages this = [] -> runScriptInPackages [] None
| rsp_batches (batches : list (list Package.t)) (tr : list ScriptEvent)
    (result : option ScriptError) :
    filteredPackages this <> [] ->
    batchedPackages = Some batches ->
    runParallelBatches (concurrency this) scriptTask batches tr result ->
    runScriptInPackages tr result.

End Lifecycle.

(** [e1] has happened before every occurrence of [e2] in [tr]. *)
Definition precedes (e1 e2 : ScriptEvent) (tr : list ScriptEvent) : Prop :=
  forall t1 t2, tr = t1 ++ e2 :: t2 -> In e1 t1.

(* ------------------------------------------------------------------ *)
(** ** Scenarios

    Concrete repositories on which the statements below are exercised. *)

Module Scenario.

(** The facts of semver the scenarios rely on, as (version, range). *)
Definition semverFacts : list (string * string) :=
  [("1.2.3", "^1.0.0"); ("1.2.3", "1.2.3"); ("2.0.0", "2.0.0");
   ("1.0.0", "1.0.0")].

Definition satisfies (version range : string) : bool :=
  existsb (fun f => andb (fst f =? version) (snd f =? range)) semverFacts.

(** Nothing is installed or linked yet, and the hoist pattern matches every
    name. *)
Definition fresh : Collaborators :=
  mkCollaborators satisfies (fun _ _ => false) (fun _ _ => false)
    (fun _ _ => false) (fun _ _ _ => true).

(** As [fresh], with every sibling already linked. *)
Definition linked : Collaborators :=
  mkCollaborators satisfies (fun _ _ => true) (fun _ _ => false)
    (fun _ _ => false) (fun _ _ _ => true).

(** As [fresh], with every dependency already installed. *)
Definition installed : Collaborators :=
  mkCollaborators satisfies (fun _ _ => false) (fun _ _ => true)
    (fun _ _ => true) (fun _ _ _ => true).

Definition pkg (name version : string) (deps : JsObject.t string)
  : Package.t :=
  Package.mk name version ("/repo/packages/" ++ name)
    ("/repo/packages/" ++ name ++ "/node_modules") deps.

Definition graphOf (pkgs : list Package.t) (name : string)
  : option Package.t :=
  find (fun p => Package.name p =? name) pkgs.

Definition repo (deps : JsObject.t string) : Repository :=
  mkRepository "/repo" "/repo/node_modules" deps.

(** A command over packages that are all filtered in and all in the graph. *)
Definition command (pkgs : list Package.t) (rootDeps : JsObject.t string)
  (hoist : option string) (toposort : bool) : BootstrapCommand :=
  mkCommand pkgs pkgs (graphOf pkgs) (repo rootDeps) (mkOptions hoist None)
    toposort 4.

(** Scenario 1 of the specification: two ranges of [left-pad], one
    requester each, hoisting on. *)
Definition padA : Package.t := pkg "a" "1.0.0" [("left-pad", "^1.0.0")].
Definition padB : Package.t := pkg "b" "1.0.0" [("left-pad", "^1.1.0")].

Definition leftPad : BootstrapCommand :=
  command [padA; padB] [] (Some "**") true.

(** Scenario 3: the root asks for the less common range of [react]. *)
Definition react : BootstrapCommand :=
  command [pkg "c1" "1.0.0" [("react", "15.x")];
           pkg "c2" "1.0.0" [("react", "15.x")];
           pkg "c3" "1.0.0" [("react", "15.x")];
           pkg "c4" "1.0.0" [("react", "^0.14.0")]]
          [("react", "^0.14.0")] (Some "**") true.

(** Scenario 4: [a] depends on its sibling [b] at a range [b] satisfies. *)
Definition needsB : Package.t := pkg "a" "1.0.0" [("b", "^1.0.0")].
Definition b123 : Package.t := pkg "b" "1.2.3" [].
Definition b200 : Package.t := pkg "b" "2.0.0" [].

Definition sibling : BootstrapCommand :=
  command [needsB; b123] [] None true.

(** Scenario 5: as scenario 4, with [b] at a version out of the range. *)
Definition mismatch : BootstrapCommand :=
  command [needsB; b200] [] None true.

(** The root manifest declares [x] with the empty range. *)
Definition emptyRootRange : BootstrapCommand :=
  command [pkg "a" "1.0.0" [("x", "^1.0.0")]]
          [("x", "")] (Some "**") true.

(** The most requested range of [x] is the empty one. *)
Definition emptyCommonRange : BootstrapCommand :=
  command [pkg "a" "1.0.0" [("x", "")]; pkg "b" "1.0.0" [("x", "")];
           pkg "c" "1.0.0" [("x", "^1.0.0")]]
          [] (Some "**") true.

(** The root manifest alone declares [lodash]; nothing is hoisted. *)
Definition rootOnly : BootstrapCommand :=
  command [padA] [("lodash", "^4.0.0")] None true.

(** [a] depends on [b]; the packages are listed [a] first. *)
Definition chain (toposort : bool) : BootstrapCommand :=
  command [needsB; b123] [] None toposort.

End Scenario.

(* ------------------------------------------------------------------ *)
(** ** Scenarios on the empty range *)

Module RangeScenario.

(** The facts of semver these scenarios rely on, as (version, range): a
    version satisfies itself, and the empty range is the range of every
    release and of no prerelease. *)
Definition semverFacts : list (string * string) :=
  [("1.0.0", "1.0.0"); ("1.0.0", ""); ("1.0.0", "^1.0.0");
   ("1.2.3", "1.2.3"); ("1.2.3", ""); ("1.2.3", "^1.0.0");
   ("2.0.0", "2.0.0"); ("2.0.0", "");
   ("1.0.0-beta.1", "1.0.0-beta.1")].

Definition satisfies (version range : string) : bool :=
  existsb (fun f => andb (fst f =? version) (snd f =? range)) semverFacts.

(** A [Package] whose [hasMatchingDependency] answers whether the
    requester declares, for the name of the dependency, a range that is
    not empty and that the version of the dependency satisfies. *)
Definition matching (pkg : Package.t) (dep : Dep.t) : bool :=
  match JsObject.get (Package.allDependencies pkg) (Dep.name dep) with
  | Some range => truthy range && satisfies (Dep.version dep) range
  | None => false
  end.

(** Nothing is installed yet, and the hoist pattern matches every name. *)
Definition unlinked : Collaborators :=
  mkCollaborators satisfies matching (fun _ _ => false) (fun _ _ => false)
    (fun _ _ _ => true).

(** [a] declares its sibling [b] with the empty range. *)
Definition anyB : Package.t := Scenario.pkg "a" "1.0.0" [("b", "")].

Definition beta : Package.t := Scenario.pkg "b" "1.0.0-beta.1" [].


(** [b] is a prerelease, which the empty range does not admit. *)
Definition prerelease : BootstrapCommand :=
  Scenario.command [anyB; beta] [] None true.

End RangeScenario.

(* ------------------------------------------------------------------ *)
(** ** What the actions do when they run *)

(** [async.series(tasks, callback)] of the async library, over tasks that
    call back once each: the tasks run in order and the first error ends
    the series.  The result is the tasks that were started and the error
    the final callback is given. *)
Fixpoint series {T : Type} (run : T -> option Err) (tasks : list T)
  : list T * option Err :=
  match tasks with
  | [] => ([], None)
  | t :: rest =>
      match run t with
      | Some err => ([t], Some err)
      | None => let r := series run rest in (t :: fst r, snd r)
      end
  end.

(** The [bin] field of a package.json: a path or a map of commands. *)
Inductive Bin : Type :=
| BinPath (path : string)
| BinCommands (commands : JsObject.t string).

(** What the code reads of a required package.json. *)
Record PackageJson : Type := mkPackageJson
  { pj_version : option string;
    pj_bin : option Bin }.

(** [if (bin)]. *)
Definition binDeclared (bin : option Bin) : bool :=
  match bin with
  | Some (BinPath path) => truthy path
  | Some (BinCommands _) => true
  | None => false
  end.

(** One call of [PackageUtilities.createBinaryLink(src, dest, name, bin,
    callback)]; [src] is kept as the arguments of [path.join]. *)
Record BinaryLink : Type := mkLink
  { link_src : list string;
    link_dest : string;
    link_name : string;
    link_bin : Bin }.

(** What the tracker is told, verbose and silly lines apart. *)
Inductive TrackerEvent : Type :=
| TrackerInfo (prefix message : string)
| AddWork (n : nat)
| CompleteWork (n : nat).

Definition workAdded (events : list TrackerEvent) : nat :=
  list_sum (map (fun ev => match ev with AddWork n => n | _ => 0 end) events).

Definition workCompleted (events : list TrackerEvent) : nat :=
  list_sum (map (fun ev => match ev with CompleteWork n => n | _ => 0 end)
              events).

(** What one action did: the installer calls it made, the binary links it
    started, the directories it started to remove, what it told the
    tracker and the error it called back with. *)
Record ActionRun : Type := mkRun
  { run_installs : list InstallCall;
    run_links : list BinaryLink;
    run_removed : list (string * string);
    run_events : list TrackerEvent;
    run_error : option Err }.

Section ActionRuns.
Variable this : BootstrapCommand.

(** [require(path)] of a package.json, by the arguments of [path.join];
    [None] when it throws. *)
Variable requirePackageJson : list string -> option PackageJson.

(** The outcome of each call of a collaborator: the error its callback is
    given, if any. *)
Variable installOutcome : InstallCall -> option Err.
Variable linkOutcome : BinaryLink -> option Err.
Variable rimrafOutcome : string * string -> option Err.

(** [path.join(this.repository.rootPath, "node_modules", dependency)], as
    its arguments. *)
Definition hoistedDirectory (dependency : string) : list string :=
  [rootPath (repository this); "node_modules"; dependency].

(** [require] inside [try], the path joined with ["package.json"]. *)
Definition hoistedPackageJson (dependency : string) : option PackageJson :=
  requirePackageJson (hoistedDirectory dependency ++ ["package.json"]).

(** [const { bin } = (this.hoistedPackageJson(name) || {})]. *)
Definition hoistedBin (name : string) : option Bin :=
  match hoistedPackageJson name with
  | Some json => pj_bin json
  | None => None
  end.

(** The links of one root install: for each dependent when the hoisted
    package declares [bin], none otherwise. *)
Definition binaryLinksOf (r : RootInstall.t) : list BinaryLink :=
  match hoistedBin (RootInstall.name r) with
  | Some bin =>
      if binDeclared (Some bin)
      then map (fun pkg =>
                  mkLink (hoistedDirectory (RootInstall.name r))
                    (Package.nodeModulesLocation pkg)
                    (RootInstall.name r) bin)
               (RootInstall.dependents r)
      else []
  | None => []
  end.

(** The links of the nested series, in the order they are made. *)
Definition binaryLinks (root : list RootInstall.t) : list BinaryLink :=
  flat_map binaryLinksOf root.

(** The closure of each action, run. *)
Definition runAction (a : Action) : ActionRun :=
  match a with
  | RootInstallAction deps root =>
      let call := mkCall (rootPath (repository this)) deps None in
      let started :=
        match deps with
        | [] => []
        | _ :: _ =>
            [TrackerInfo "hoist" "Installing hoisted dependencies into root"]
        end in
      match installOutcome call with
      | Some err => mkRun [call] [] [] started (Some err)
      | None =>
          let linked := series linkOutcome (binaryLinks root) in
          mkRun [call] (fst linked) []
            (started ++ [TrackerInfo "hoist" "Finished installing in root";
                         CompleteWork 1])
            (snd linked)
      end
  | PruneAction candidates =>
      match candidates with
      | [] => mkRun [] [] [] [CompleteWork 1] None
      | _ :: _ =>
          let removed := series rimrafOutcome candidates in
          mkRun [] [] (fst removed)
            ([TrackerInfo "hoist" "Pruning hoisted dependencies";
              AddWork (List.length candidates)]
             ++ map (fun _ => CompleteWork 1) (fst removed)
             ++ [TrackerInfo "hoist" "Finished pruning hoisted dependencies";
                 CompleteWork 1])
            (snd removed)
      end
  | LeafInstallAction pkg deps =>
      let call := mkCall (Package.location pkg) (map leafSpec deps)
                    (Some (hoist (options this))) in
      mkRun [call] [] [] [CompleteWork 1] (installOutcome call)
  end.

End ActionRuns.

(* ------------------------------------------------------------------ *)
(** ** The phases: [bootstrapPackages] and [execute] *)

Inductive Phase : Type :=
| InstallRootPackageOnly
| PreinstallPackages
| InstallExternalDependencies
| SymlinkPackages
| PostinstallPackages
| PrepublishPackages
| PreparePackages.

(** The phases [bootstrapPackages] chains, by [options.useWorkspaces]. *)
Definition bootstrapPhases (useWorkspaces : bool) : list Phase :=
  if useWorkspaces
  then [InstallRootPackageOnly]
  else [PreinstallPackages; InstallExternalDependencies; SymlinkPackages;
        PostinstallPackages; PrepublishPackages; PreparePackages].

(** The phases started and the error handed to the callback, given the
    error each phase calls back with. *)
Definition bootstrapPackages (useWorkspaces : bool)
  (phaseOutcome : Phase -> option Err) : list Phase * option Err :=
  series phaseOutcome (bootstrapPhases useWorkspaces).

(** What [execute] logs besides, and what it calls back with. *)
Inductive LogLine : Type :=
| Bootstrapping (packages : nat)
| Bootstrapped (packages : nat).

Record Execution : Type := mkExecution
  { exec_phases : list Phase;
    exec_log : list LogLine;
    exec_error : option Err }.

Definition execute (this : BootstrapCommand) (useWorkspaces : bool)
  (phaseOutcome : Phase -> option Err) : Execution :=
  let n := List.length (filteredPackages this) in
  let ran := bootstrapPackages useWorkspaces phaseOutcome in
  match snd ran with
  | Some err => mkExecution (fst ran) [Bootstrapping n] (Some err)
  | None => mkExecution (fst ran) [Bootstrapping n; Bootstrapped n] None
  end.

(* ------------------------------------------------------------------ *)
(** ** Scenarios of the runs *)

Module RunScenario.

(** After the root install of scenario 1 the hoisted [left-pad] declares
    a command; no other package.json can be required. *)
Definition padJson (path : list string) : option PackageJson :=
  if list_eq_dec string_dec path
       ["/repo"; "node_modules"; "left-pad"; "package.json"]
  then Some (mkPackageJson (Some "1.3.0") (Some (BinPath "bin/left-pad.js")))
  else None.

(** A collaborator whose callback is given no error, and an installer
    that fails whatever it is asked. *)
Definition succeeds {T : Type} (_ : T) : option Err := None.

Definition installFails (_ : InstallCall) : option Err := Some "ENOENT".

(** [a] depends on a package named like a member of [Object.prototype]. *)
Definition inheritedName : BootstrapCommand :=
  Scenario.command
    [Scenario.pkg "a" "1.0.0" [("constructor", "^1.0.0")]] [] None true.

(** The script of [b] fails, every other one succeeds. *)
Definition scriptOfBFails (pkg : Package.t) : option Err :=
  if Package.name pkg =? "b" then Some "ELIFECYCLE" else None.

(** [b] asks for [left-pad], which only it requests, and for a range of
    [x] that loses against the one [c] asks for. *)
Definition twoDeps : BootstrapCommand :=
  Scenario.command
    [Scenario.pkg "b" "1.0.0" [("left-pad", "^1.0.0"); ("x", "^1.0.0")];
     Scenario.pkg "c" "1.0.0" [("x", "^2.0.0")]]
    [] (Some "**") true.

End RunScenario.

(* ------------------------------------------------------------------ *)
(** ** Vocabulary of the further properties *)

(** [deps] has an entry for [n] that counts version [v]. *)
Definition countsVersion (deps : Aggregate) (n v : string) : Prop :=
  exists e, JsObject.get deps n = Some e
            /\ In v (JsObject.keys (DepEntry.versions e)).

(* ================================================================== *)
(** * Properties *)

(* ------------------------------------------------------------------ *)
(** ** Objects *)

Module JsObjectFacts.
Import JsObject.

Section Facts.
Variable V : Type.
Implicit Types (o : t V) (k : string) (v : V).

Lemma get_set_same o k v : get (set o k v) k = Some v.
Proof.
  induction o as [|[k' v'] r IH]; simpl.
  - now rewrite String.eqb_refl.
  - destruct (k' =? k) eqn:E; simpl; rewrite E; auto.
Qed.

Lemma get_set_other o k k' v : k <> k' -> get (set o k v) k' = get o k'.
Proof.
  intros Hne. induction o as [|[k0 v0] r IH]; simpl.
  - destruct (k =? k') eqn:E; auto. apply String.eqb_eq in E. contradiction.
  - destruct (k0 =? k) eqn:E; simpl.
    + apply String.eqb_eq in E. subst k0.
      destruct (k =? k') eqn:E'; auto.
      apply String.eqb_eq in E'. contradiction.
    + now rewrite IH.
Qed.

Lemma get_set o k k' v :
  get (set o k v) k' = if k =? k' then Some v else get o k'.
Proof.
  destruct (k =? k') eqn:E.
  - apply String.eqb_eq in E. subst. apply get_set_same.
  - apply String.eqb_neq in E. now apply get_set_other.
Qed.

Lemma get_In o k v : get o k = Some v -> In (k, v) o.
Proof.
  induction o as [|[k' v'] r IH]; simpl; [discriminate|].
  destruct (k' =? k) eqn:E; auto.
  apply String.eqb_eq in E. subst k'. intros H. inversion H. now left.
Qed.

Lemma own_keys_In o k : In k (own_keys o) <-> exists v, get o k = Some v.
Proof.
  induction o as [|[k' v'] r IH]; simpl.
  - split; [tauto | intros [v Hv]; discriminate].
  - rewrite filter_In, IH. destruct (k' =? k) eqn:E.
    + apply String.eqb_eq in E. split; eauto.
    + split.
      * intros [Heq | [Hin _]]; auto.
        subst. rewrite String.eqb_refl in E. discriminate.
      * intros Hin. right. split; auto.
        rewrite String.eqb_sym, E. reflexivity.
Qed.

Lemma own_keys_NoDup o : NoDup (own_keys o).
Proof.
  induction o as [|[k' v'] r IH]; simpl; constructor.
  - rewrite filter_In. intros [_ H]. now rewrite String.eqb_refl in H.
  - now apply NoDup_filter.
Qed.

End Facts.

Lemma insert_index_perm k l : Permutation (insert_index k l) (k :: l).
Proof.
  induction l as [|k' r IH]; simpl; auto.
  destruct (index_value k <=? index_value k')%N; auto.
  rewrite IH. apply perm_swap.
Qed.

Lemma sort_index_perm l : Permutation (sort_index l) l.
Proof.
  induction l as [|k r IH]; simpl; auto.
  rewrite insert_index_perm. now constructor.
Qed.

Lemma filter_split_perm (A : Type) (f : A -> bool) (l : list A) :
  Permutation (filter f l ++ filter (fun a => negb (f a)) l) l.
Proof.
  induction l as [|a r IH]; simpl; auto.
  destruct (f a); simpl.
  - now constructor.
  - symmetry. apply Permutation_cons_app. now symmetry.
Qed.

Section KeyFacts.
Variable V : Type.
Implicit Types (o : t V) (k : string) (v : V).

Lemma keys_perm o : Permutation (keys o) (own_keys o).
Proof.
  unfold keys. rewrite sort_index_perm. apply filter_split_perm.
Qed.

Lemma keys_In o k : In k (keys o) <-> exists v, get o k = Some v.
Proof.
  rewrite <- own_keys_In. split; apply Permutation_in.
  - apply keys_perm.
  - symmetry. apply keys_perm.
Qed.

Lemma keys_NoDup o : NoDup (keys o).
Proof.
  eapply Permutation_NoDup.
  - symmetry. apply keys_perm.
  - apply own_keys_NoDup.
Qed.

Lemma keys_set_In o k k' v : In k' (keys (set o k v)) <-> k' = k \/ In k' (keys o).
Proof.
  rewrite !keys_In. setoid_rewrite get_set. destruct (k =? k') eqn:E.
  - apply String.eqb_eq in E. subst. split; eauto.
  - apply String.eqb_neq in E. split; auto.
    intros [Heq | H]; auto. congruence.
Qed.

Lemma entries_In o k v : In (k, v) (entries o) <-> get o k = Some v.
Proof.
  unfold entries. rewrite in_flat_map. split.
  - intros [k' [_ Hin]]. destruct (get o k') eqn:E; simpl in Hin; [|tauto].
    destruct Hin as [Heq | []]. now inversion Heq; subst.
  - intros Hget. exists k. split.
    + apply keys_In. eauto.
    + rewrite Hget. now left.
Qed.

Lemma entries_keys o : map fst (entries o) = keys o.
Proof.
  unfold entries.
  assert (H : forall k, In k (keys o) -> exists v, get o k = Some v)
    by (intros k; apply keys_In).
  induction (keys o) as [|k r IH]; simpl; auto.
  destruct (H k) as [v Hv]; [now left|]. rewrite Hv. simpl.
  f_equal. apply IH. intros k' Hk'. apply H. now right.
Qed.

End KeyFacts.
End JsObjectFacts.

(* ------------------------------------------------------------------ *)
(** ** Loops *)

Section Loops.
Variables (S A W : Type).

Lemma fold_left_accumulates (f : S -> A -> S) (g : S -> list W)
  (w : A -> list W) (P : S -> Prop) (l : list A) :
  (forall s a, In a l -> P s -> P (f s a) /\ g (f s a) = g s ++ w a) ->
  forall s, P s ->
    P (fold_left f l s) /\ g (fold_left f l s) = g s ++ flat_map w l.
Proof.
  induction l as [|a r IH]; simpl; intros Hstep s Hs.
  - now rewrite app_nil_r.
  - destruct (Hstep s a) as [Hp Hg]; auto.
    destruct (IH (fun s' a' H => Hstep s' a' (or_intror H)) (f s a) Hp)
      as [Hp' Hg'].
    split; auto. now rewrite Hg', Hg, app_assoc.
Qed.

Lemma fold_left_invariant (f : S -> A -> S) (P : S -> Prop) (l : list A) :
  (forall s a, In a l -> P s -> P (f s a)) ->
  forall s, P s -> P (fold_left f l s).
Proof.
  induction l as [|a r IH]; simpl; intros Hstep s Hs;
    [assumption | apply IH; auto].
Qed.

(** A loop whose steps all move along a preorder moves along it. *)
Lemma forEachM_along (f : S -> A -> result S) (R : S -> S -> Prop)
  (l : list A) :
  (forall s, R s s) ->
  (forall s1 s2 s3, R s1 s2 -> R s2 s3 -> R s1 s3) ->
  (forall s a s', In a l -> f s a = Ok s' -> R s s') ->
  forall s s', forEachM f l s = Ok s' -> R s s'.
Proof.
  intros Hrefl Htrans. induction l as [|a r IH]; simpl; intros Hstep s s' Hrun.
  - inversion Hrun; subst. apply Hrefl.
  - destruct (f s a) as [s1|m] eqn:E; simpl in Hrun; [|discriminate].
    apply (Htrans s s1 s').
    + apply (Hstep s a s1); auto.
    + apply IH; [intros; eapply Hstep; eauto | assumption].
Qed.

(** What the step at [a] establishes still holds at the end when it is
    kept along the preorder. *)
Lemma forEachM_visits (f : S -> A -> result S) (R : S -> S -> Prop)
  (Q : S -> Prop) (l : list A) (a : A) :
  (forall s, R s s) ->
  (forall s1 s2 s3, R s1 s2 -> R s2 s3 -> R s1 s3) ->
  (forall s b s', In b l -> f s b = Ok s' -> R s s') ->
  (forall s s', f s a = Ok s' -> Q s') ->
  (forall s s', R s s' -> Q s -> Q s') ->
  In a l ->
  forall s s', forEachM f l s = Ok s' -> Q s'.
Proof.
  intros Hrefl Htrans Hstep Hq Hkeep.
  induction l as [|b r IH]; simpl; intros Hin s s' Hrun; [tauto|].
  destruct (f s b) as [s1|m] eqn:E; simpl in Hrun; [|discriminate].
  destruct Hin as [-> | Hin].
  - apply (Hkeep s1); [|eapply Hq; eauto].
    apply (forEachM_along f R r Hrefl Htrans); [|assumption].
    intros; eapply Hstep; [right; eassumption | eassumption].
  - apply (IH (fun s0 b0 s0' H => Hstep s0 b0 s0' (or_intror H)) Hin s1 s' Hrun).
Qed.

Lemma forEachM_accumulates (f : S -> A -> result S) (g : S -> list W)
  (w : A -> list W) (l : list A) :
  (forall s a s', In a l -> f s a = Ok s' -> g s' = g s ++ w a) ->
  forall s s', forEachM f l s = Ok s' -> g s' = g s ++ flat_map w l.
Proof.
  induction l as [|a r IH]; simpl; intros Hstep s s' Hrun.
  - inversion Hrun; subst. now rewrite app_nil_r.
  - destruct (f s a) as [s1|m] eqn:E; simpl in Hrun; [|discriminate].
    rewrite (IH (fun s0 a0 s0' H => Hstep s0 a0 s0' (or_intror H)) s1 s' Hrun).
    rewrite (Hstep s a s1); auto. now rewrite app_assoc.
Qed.

(** A loop none of whose steps throws returns. *)
Lemma forEachM_total (f : S -> A -> result S) (P : S -> Prop) (l : list A) :
  (forall s a, In a l -> P s -> exists s', f s a = Ok s' /\ P s') ->
  forall s, P s -> exists s', forEachM f l s = Ok s' /\ P s'.
Proof.
  induction l as [|a r IH]; simpl; intros Hstep s Hs; eauto.
  destruct (Hstep s a) as [s1 [E Hs1]]; auto.
  rewrite E. simpl. apply IH; auto.
Qed.

(** A loop that does not throw is the fold of its steps. *)
Lemma forEachM_fold (f : S -> A -> result S) (g : S -> A -> S) (l : list A) :
  (forall s a s', f s a = Ok s' -> s' = g s a) ->
  forall s s', forEachM f l s = Ok s' -> s' = fold_left g l s.
Proof.
  intros Hfg. induction l as [|a r IH]; simpl; intros s s' H.
  - now inversion H.
  - destruct (f s a) as [s1|m] eqn:E; simpl in H; [|discriminate].
    apply Hfg in E. subst s1. now apply IH.
Qed.

Lemma forEachM_fold_total (f : S -> A -> result S) (g : S -> A -> S)
  (l : list A) :
  (forall s a, In a l -> f s a = Ok (g s a)) ->
  forall s, forEachM f l s = Ok (fold_left g l s).
Proof.
  induction l as [|a r IH]; simpl; intros Hfg s; [reflexivity|].
  rewrite Hfg by now left. simpl. apply IH.
  intros s' b Hb. apply Hfg. now right.
Qed.

End Loops.

Lemma mapM_total (A B : Type) (f : A -> result B) (l : list A) :
  (forall a, In a l -> exists b, f a = Ok b) -> exists bs, mapM f l = Ok bs.
Proof.
  induction l as [|a r IH]; simpl; intros H; eauto.
  destruct (H a) as [b Hb]; auto. rewrite Hb. simpl.
  destruct IH as [bs Hbs]; auto. rewrite Hbs. simpl. eauto.
Qed.

Lemma mapM_Ok_Forall2 (A B : Type) (f : A -> result B) (l : list A)
  (bs : list B) :
  mapM f l = Ok bs -> Forall2 (fun a b => f a = Ok b) l bs.
Proof.
  revert bs. induction l as [|a r IH]; simpl; intros bs H.
  - inversion H. constructor.
  - destruct (f a) as [b|m] eqn:E; simpl in H; [|discriminate].
    destruct (mapM f r) as [bs'|m] eqn:E'; simpl in H; [|discriminate].
    inversion H; subst. constructor; auto.
Qed.

(* ------------------------------------------------------------------ *)
(** ** The aggregate *)

Import JsObjectFacts.

Lemma dependentsOf_set (ds : JsObject.t (list string)) (v v' : string)
  (l : list string) :
  dependentsOf (JsObject.set ds v l) v'
  = if v =? v' then l else dependentsOf ds v'.
Proof.
  unfold dependentsOf. rewrite get_set. now destruct (v =? v').
Qed.

Lemma wfEntry_count (e : DepEntry.t) (v : string) :
  wfEntry e ->
  countOf (DepEntry.versions e) v
  = List.length (dependentsOf (DepEntry.dependents e) v).
Proof.
  intros Hwf. specialize (Hwf v). unfold countOf, dependentsOf.
  destruct (JsObject.get (DepEntry.versions e) v) as [c|].
  - destruct Hwf as [l [-> Hl]]. now symmetry.
  - now rewrite Hwf.
Qed.

Lemma wfEntry_empty : wfEntry emptyEntry.
Proof. intros v. reflexivity. Qed.

Lemma wfEntry_seed (v : string) : wfEntry (seedEntry v).
Proof.
  intros v'. unfold seedEntry. simpl.
  destruct (v =? v'); simpl; eauto.
Qed.

Lemma addVersion_wf (v : string) (e : DepEntry.t) :
  wfEntry e -> wfEntry (addVersion v e).
Proof.
  intros Hwf. unfold addVersion.
  destruct (JsObject.get (DepEntry.versions e) v) as [[|c]|] eqn:E; auto;
    intros v'; simpl; rewrite !get_set;
    (destruct (v =? v'); [eauto | apply Hwf]).
Qed.

Lemma addVersion_dependentsOf (v v' : string) (e : DepEntry.t) :
  wfEntry e ->
  dependentsOf (DepEntry.dependents (addVersion v e)) v'
  = dependentsOf (DepEntry.dependents e) v'.
Proof.
  intros Hwf. unfold addVersion.
  destruct (JsObject.get (DepEntry.versions e) v) as [[|c]|] eqn:E; auto;
    simpl; rewrite dependentsOf_set;
    destruct (v =? v') eqn:Ev; auto;
    apply String.eqb_eq in Ev; subst v';
    pose proof (wfEntry_count v Hwf) as Hc; unfold countOf in Hc;
    rewrite E in Hc; symmetry in Hc; apply length_zero_iff_nil in Hc; auto.
Qed.

Lemma addDependent_wf (r v : string) (e : DepEntry.t) :
  wfEntry e -> wfEntry (addDependent r v e).
Proof.
  intros Hwf v'. unfold addDependent. simpl. rewrite !get_set.
  destruct (v =? v'); [|apply Hwf].
  eexists. split; [reflexivity|].
  rewrite length_app, (wfEntry_count v Hwf). simpl. lia.
Qed.

Lemma addDependent_dependentsOf (r v v' : string) (e : DepEntry.t) :
  dependentsOf (DepEntry.dependents (addDependent r v e)) v'
  = dependentsOf (DepEntry.dependents e) v'
      ++ (if v =? v' then [r] else []).
Proof.
  unfold addDependent. simpl. rewrite dependentsOf_set.
  destruct (v =? v') eqn:E.
  - apply String.eqb_eq in E. now subst.
  - now rewrite app_nil_r.
Qed.

Lemma addDependent_keys (r v : string) (e : DepEntry.t) :
  In v (JsObject.keys (DepEntry.versions (addDependent r v e))).
Proof.
  apply keys_In. unfold addDependent. simpl. rewrite get_set_same. eauto.
Qed.

Section AggregateFacts.
Context {C : Collaborators}.
Variable this : BootstrapCommand.

Lemma entryOf_wf (deps : Aggregate) (n : string) :
  wfAggregate deps -> wfEntry (entryOf deps n).
Proof.
  intros Hwf. unfold entryOf.
  destruct (JsObject.get deps n) as [e|] eqn:E.
  - now apply (Hwf n e).
  - apply wfEntry_empty.
Qed.

Lemma recordDependency_wf (r : string) (deps : Aggregate) (d : Dep.t) :
  wfAggregate deps -> wfAggregate (recordDependency r deps d).
Proof.
  intros Hwf n e. unfold recordDependency. rewrite get_set.
  destruct (Dep.name d =? n).
  - intros He. inversion He; subst. split.
    + apply addDependent_wf, addVersion_wf, entryOf_wf, Hwf.
    + intros Hnil. pose proof (addDependent_keys r (Dep.version d)
        (addVersion (Dep.version d) (entryOf deps (Dep.name d)))) as Hin.
      rewrite Hnil in Hin. destruct Hin.
  - apply Hwf.
Qed.

Lemma recordDependency_dependentsAt (r : string) (deps : Aggregate)
  (d : Dep.t) (n v : string) :
  wfAggregate deps ->
  dependentsAt (recordDependency r deps d) n v
  = dependentsAt deps n v
      ++ (if (Dep.name d =? n) && (Dep.version d =? v) then [r] else []).
Proof.
  intros Hwf. unfold dependentsAt, recordDependency. rewrite get_set.
  destruct (Dep.name d =? n) eqn:En; cbn [andb].
  - apply String.eqb_eq in En. subst n.
    rewrite addDependent_dependentsOf, addVersion_dependentsOf
      by (apply entryOf_wf, Hwf).
    unfold entryOf. destruct (JsObject.get deps (Dep.name d)); reflexivity.
  - now rewrite app_nil_r.
Qed.

Lemma recordDependency_other (r : string) (deps : Aggregate) (d : Dep.t)
  (n : string) :
  Dep.name d <> n ->
  JsObject.get (recordDependency r deps d) n = JsObject.get deps n.
Proof. intros Hne. unfold recordDependency. now apply get_set_other. Qed.

Lemma recordPackage_spec (deps : Aggregate) (pkg : Package.t) :
  wfAggregate deps ->
  wfAggregate (recordPackage this deps pkg)
  /\ forall n v,
       dependentsAt (recordPackage this deps pkg) n v
       = dependentsAt deps n v
           ++ flat_map
                (fun d => if (Dep.name d =? n) && (Dep.version d =? v)
                          then [Package.name pkg] else [])
                (externalDependencies this pkg).
Proof.
  intros Hwf. unfold recordPackage.
  generalize (externalDependencies this pkg) as ds.
  intros ds. revert deps Hwf.
  induction ds as [|d ds IH]; simpl; intros deps Hwf.
  - split; auto. intros. now rewrite app_nil_r.
  - destruct (IH (recordDependency (Package.name pkg) deps d))
      as [Hwf' Hd]; [now apply recordDependency_wf|].
    split; auto. intros n v.
    rewrite Hd, recordDependency_dependentsAt, <- app_assoc by assumption.
    reflexivity.
Qed.

Lemma seedRoot_wf (deps : Aggregate) (nv : string * string) :
  wfAggregate deps -> wfAggregate (seedRoot deps nv).
Proof.
  intros Hwf n e. unfold seedRoot. rewrite get_set.
  destruct (fst nv =? n); [|apply Hwf].
  intros He. inversion He; subst. split; [apply wfEntry_seed|].
  intros Hnil.
  assert (Hin : In (snd nv) (JsObject.keys (DepEntry.versions (seedEntry (snd nv))))).
  { apply keys_In. unfold seedEntry. simpl. rewrite String.eqb_refl. eauto. }
  rewrite Hnil in Hin. destruct Hin.
Qed.

Lemma seedRoot_dependentsAt (deps : Aggregate) (nv : string * string)
  (n v : string) :
  dependentsAt deps n v = [] -> dependentsAt (seedRoot deps nv) n v = [].
Proof.
  unfold dependentsAt, seedRoot. rewrite get_set.
  destruct (fst nv =? n); auto. intros _.
  unfold seedEntry, dependentsOf. simpl. now destruct (snd nv =? v).
Qed.

Lemma seedDependencies_spec :
  wfAggregate (seedDependencies this) /\ forall n v, dependentsAt (seedDependencies this) n v = [].
Proof.
  unfold seedDependencies.
  apply (fold_left_invariant seedRoot
           (fun deps => wfAggregate deps
                        /\ forall n v, dependentsAt deps n v = [])).
  - intros deps nv _ [Hwf Hd]. split.
    + now apply seedRoot_wf.
    + intros. now apply seedRoot_dependentsAt.
  - split; [intros n e H; discriminate | reflexivity].
Qed.

Lemma depsToInstall_wf : wfAggregate (depsToInstall this).
Proof.
  unfold depsToInstall. apply fold_left_invariant.
  - intros deps pkg _ Hwf. now apply recordPackage_spec.
  - apply seedDependencies_spec.
Qed.

(** The requesters listed under a name and version are those that recorded
    the pair, in order: the seeded entry adds none. *)
Lemma depsToInstall_dependentsAt (n v : string) :
  dependentsAt (depsToInstall this) n v = requestersOf this n v.
Proof.
  unfold depsToInstall, requestersOf.
  destruct (fold_left_accumulates (recordPackage this)
              (fun deps => dependentsAt deps n v)
              (fun pkg =>
                 flat_map
                   (fun d => if (Dep.name d =? n) && (Dep.version d =? v)
                             then [Package.name pkg] else [])
                   (externalDependencies this pkg))
              wfAggregate (filteredPackages this)) with (s := seedDependencies this)
    as [_ H].
  - intros deps pkg _ Hwf.
    destruct (recordPackage_spec pkg Hwf) as [Hwf' Hd]. auto.
  - apply seedDependencies_spec.
  - fold (seedDependencies this). rewrite H. now rewrite (proj2 seedDependencies_spec).
Qed.

End AggregateFacts.

(* ------------------------------------------------------------------ *)
(** ** The placement loop *)

Lemma leavesOf_set (ls : JsObject.t (list LeafInstall.t)) (p k : string)
  (l : list LeafInstall.t) :
  leavesOf (JsObject.set ls p l) k = if p =? k then l else leavesOf ls k.
Proof.
  unfold leavesOf. rewrite get_set. now destruct (p =? k).
Qed.

Lemma growsWith_refl Pr Pl (st : PlanState) : growsWith Pr Pl st st.
Proof.
  split; [|intros k]; exists []; now rewrite app_nil_r.
Qed.

Lemma growsWith_trans Pr Pl (s1 s2 s3 : PlanState) :
  growsWith Pr Pl s1 s2 -> growsWith Pr Pl s2 s3 -> growsWith Pr Pl s1 s3.
Proof.
  intros [[r1 [Hr1 Hp1]] Hl1] [[r2 [Hr2 Hp2]] Hl2]. split.
  - exists (r1 ++ r2). rewrite Hr2, Hr1, app_assoc. split; auto.
    apply Forall_app; auto.
  - intros k. destruct (Hl1 k) as [l1 [E1 F1]]. destruct (Hl2 k) as [l2 [E2 F2]].
    exists (l1 ++ l2). rewrite E2, E1, app_assoc. split; auto.
    apply Forall_app; auto.
Qed.

Lemma growsWith_weaken (Pr Pr' : RootInstall.t -> Prop)
  (Pl Pl' : string -> LeafInstall.t -> Prop) (st st' : PlanState) :
  (forall r, Pr r -> Pr' r) -> (forall k l, Pl k l -> Pl' k l) ->
  growsWith Pr Pl st st' -> growsWith Pr' Pl' st st'.
Proof.
  intros Hr Hl [[r [Er Fr]] Hk]. split.
  - exists r. split; auto. eapply Forall_impl; eauto.
  - intros k. destruct (Hk k) as [l [El Fl]]. exists l. split; auto.
    eapply Forall_impl; [|eauto]. apply Hl.
Qed.

(** What has been pushed stays. *)
Lemma growsWith_root_In Pr Pl (st st' : PlanState) (r : RootInstall.t) :
  growsWith Pr Pl st st' -> In r (st_root st) -> In r (st_root st').
Proof.
  intros [[r' [E _]] _] Hin. rewrite E. apply in_or_app. now left.
Qed.

Lemma growsWith_leaf_In Pr Pl (st st' : PlanState) (k : string)
  (l : LeafInstall.t) :
  growsWith Pr Pl st st' ->
  In l (leavesOf (st_leaves st) k) -> In l (leavesOf (st_leaves st') k).
Proof.
  intros [_ H] Hin. destruct (H k) as [l' [E _]]. rewrite E.
  apply in_or_app. now left.
Qed.

Section PlanFacts.
Context {C : Collaborators}.
Variable this : BootstrapCommand.

Lemma installInLeaf_inv n v rv st p st' :
  installInLeaf this n v rv st p = Ok st' ->
  exists pk,
    findPackage this p None = Some pk
    /\ st' = mkState (st_root st)
               (JsObject.set (st_leaves st) p
                  (leavesOf (st_leaves st) p ++ [leafOf n v pk]))
               (st_warnings st ++ pkgVersionWarning n v rv p).
Proof.
  unfold installInLeaf. destruct (findPackage this p None) as [pk|];
    [|discriminate].
  destruct (JsObject.inherits (st_leaves st) p); [discriminate|].
  intros H. inversion H. eauto.
Qed.

Lemma installInLeaf_grows n v rv st p st' :
  installInLeaf this n v rv st p = Ok st' ->
  growsWith (fun _ => False)
    (fun k l => k = p /\ exists pk, findPackage this p None = Some pk
                                    /\ l = leafOf n v pk) st st'.
Proof.
  intros H. destruct (installInLeaf_inv _ _ _ _ _ H) as [pk [Hf ->]].
  split; simpl.
  - exists []. now rewrite app_nil_r.
  - intros k. rewrite leavesOf_set. destruct (p =? k) eqn:E.
    + apply String.eqb_eq in E. subst k. eexists. split; [reflexivity|].
      constructor; eauto.
    + exists []. now rewrite app_nil_r.
Qed.

Lemma installInLeaf_adds n v rv st p st' :
  installInLeaf this n v rv st p = Ok st' ->
  exists pk, findPackage this p None = Some pk
             /\ In (leafOf n v pk) (leavesOf (st_leaves st') p).
Proof.
  intros H. destruct (installInLeaf_inv _ _ _ _ _ H) as [pk [Hf ->]].
  exists pk. split; auto. simpl. rewrite leavesOf_set, String.eqb_refl.
  apply in_or_app. right. now left.
Qed.

Lemma installInLeaf_warnings n v rv st p st' :
  installInLeaf this n v rv st p = Ok st' ->
  st_warnings st' = st_warnings st ++ pkgVersionWarning n v rv p.
Proof.
  intros H. now destruct (installInLeaf_inv _ _ _ _ _ H) as [pk [Hf ->]].
Qed.

Lemma installVersion_grows n e rv st v st' :
  installVersion this n e rv st v = Ok st' ->
  growsWith (fun _ => False) (versionLeaf this n e v) st st'.
Proof.
  unfold installVersion. destruct (isRootVersion v rv).
  - intros H. inversion H. apply growsWith_refl.
  - unfold versionLeaf, dependentsOf.
    destruct (JsObject.get (DepEntry.dependents e) v) as [pkgs|];
      [|discriminate].
    apply forEachM_along.
    + apply growsWith_refl.
    + apply growsWith_trans.
    + intros s p s' Hin Hs. apply installInLeaf_grows in Hs.
      revert Hs. apply growsWith_weaken; auto.
      intros k l [-> Hl]. auto.
Qed.

Lemma installVersion_adds n e rv st v st' p :
  installVersion this n e rv st v = Ok st' ->
  isRootVersion v rv = false ->
  In p (dependentsOf (DepEntry.dependents e) v) ->
  exists pk, findPackage this p None = Some pk
             /\ In (leafOf n v pk) (leavesOf (st_leaves st') p).
Proof.
  unfold installVersion. intros H Hrv. rewrite Hrv in H.
  unfold dependentsOf.
  destruct (JsObject.get (DepEntry.dependents e) v) as [pkgs|];
    [|discriminate].
  intros Hin. revert st st' H.
  apply (forEachM_visits (installInLeaf this n v rv)
           (growsWith (fun _ => False)
              (fun (_ : string) (_ : LeafInstall.t) => True))
           (fun s => exists pk, findPackage this p None = Some pk
                                /\ In (leafOf n v pk) (leavesOf (st_leaves s) p))
           pkgs p).
  - apply growsWith_refl.
  - apply growsWith_trans.
  - intros s b s' _ Hs. apply installInLeaf_grows in Hs.
    revert Hs. apply growsWith_weaken; auto.
  - intros s s'. apply installInLeaf_adds.
  - intros s s' Hg [pk [Hf Hl]]. exists pk. split; auto.
    eapply growsWith_leaf_In; eauto.
  - assumption.
Qed.

Lemma installVersion_warnings n e rv st v st' :
  installVersion this n e rv st v = Ok st' ->
  st_warnings st' = st_warnings st ++ versionWarnings n e rv v.
Proof.
  unfold installVersion, versionWarnings. destruct (isRootVersion v rv).
  - intros H. inversion H. now rewrite app_nil_r.
  - unfold dependentsOf.
    destruct (JsObject.get (DepEntry.dependents e) v) as [pkgs|];
      [|discriminate].
    apply forEachM_accumulates. intros s p s' _. apply installInLeaf_warnings.
Qed.

Lemma hoistToRoot_inv n e st rv st' :
  hoistToRoot this n e st = Ok (rv, st') ->
  exists cv pkgs,
    commonVersionOf (DepEntry.versions e) = Ok cv
    /\ rv = rootVersionOf this n cv
    /\ mapM (graphPackage this)
         (dependentsOf (DepEntry.dependents e) (rootVersionOf this n cv))
       = Ok pkgs
    /\ st' = hoistedState this n cv pkgs st.
Proof.
  unfold hoistToRoot.
  destruct (commonVersionOf (DepEntry.versions e)) as [cv|m] eqn:Hc; simpl;
    [|discriminate].
  destruct (mapM (graphPackage this)
              (dependentsOf (DepEntry.dependents e) (rootVersionOf this n cv)))
    as [pkgs|m] eqn:Hm; simpl; [|discriminate].
  intros H. inversion H. subst. exists cv, pkgs. repeat split; auto.
Qed.

Lemma placeDependency_inv deps st n st' :
  placeDependency this deps st n = Ok st' ->
  exists e,
    JsObject.get deps n = Some e
    /\ ((isHoisted this n = false
         /\ forEachM (installVersion this n e None)
              (JsObject.keys (DepEntry.versions e)) st = Ok st')
        \/ (isHoisted this n = true
            /\ exists cv pkgs,
                 commonVersionOf (DepEntry.versions e) = Ok cv
                 /\ mapM (graphPackage this)
                      (dependentsOf (DepEntry.dependents e)
                         (rootVersionOf this n cv)) = Ok pkgs
                 /\ forEachM
                      (installVersion this n e
                         (Some (rootVersionOf this n cv)))
                      (JsObject.keys (DepEntry.versions e))
                      (hoistedState this n cv pkgs st) = Ok st')).
Proof.
  unfold placeDependency. destruct (JsObject.get deps n) as [e|];
    [|discriminate].
  intros H. exists e. split; auto.
  destruct (isHoisted this n).
  - right. split; auto.
    destruct (hoistToRoot this n e st) as [[rv st1]|m] eqn:E; simpl in H;
      [|discriminate].
    destruct (hoistToRoot_inv _ _ _ E) as [cv [pkgs [Hc [-> [Hm ->]]]]].
    exists cv, pkgs. auto.
  - left. auto.
Qed.

Lemma versionLeaf_leafInstallFor deps n e v k l :
  JsObject.get deps n = Some e ->
  In v (JsObject.keys (DepEntry.versions e)) ->
  versionLeaf this n e v k l -> leafInstallFor this deps n k l.
Proof.
  intros He Hv [Hk [pk [Hf ->]]]. exists e, v, pk. auto.
Qed.

Lemma installVersions_grows deps n e rv st st' :
  JsObject.get deps n = Some e ->
  forEachM (installVersion this n e rv)
    (JsObject.keys (DepEntry.versions e)) st = Ok st' ->
  growsWith (fun _ => False) (leafInstallFor this deps n) st st'.
Proof.
  intros He. apply forEachM_along.
  - apply growsWith_refl.
  - apply growsWith_trans.
  - intros s v s' Hv Hs. apply installVersion_grows in Hs.
    revert Hs. apply growsWith_weaken; auto.
    intros k l. now apply versionLeaf_leafInstallFor.
Qed.

Lemma installVersions_adds n e rv st st' v p :
  forEachM (installVersion this n e rv)
    (JsObject.keys (DepEntry.versions e)) st = Ok st' ->
  In v (JsObject.keys (DepEntry.versions e)) ->
  isRootVersion v rv = false ->
  In p (dependentsOf (DepEntry.dependents e) v) ->
  exists pk, findPackage this p None = Some pk
             /\ In (leafOf n v pk) (leavesOf (st_leaves st') p).
Proof.
  intros Hrun Hv Hrv Hp. revert st st' Hrun.
  apply (forEachM_visits (installVersion this n e rv)
           (growsWith (fun _ => False)
              (fun (_ : string) (_ : LeafInstall.t) => True))
           (fun s => exists pk, findPackage this p None = Some pk
                                /\ In (leafOf n v pk) (leavesOf (st_leaves s) p))
           (JsObject.keys (DepEntry.versions e)) v).
  - apply growsWith_refl.
  - apply growsWith_trans.
  - intros s b s' _ Hs. apply installVersion_grows in Hs.
    revert Hs. apply growsWith_weaken; auto.
  - intros s s' Hs. eapply installVersion_adds; eauto.
  - intros s s' Hg [pk [Hf Hl]]. exists pk. split; auto.
    eapply growsWith_leaf_In; eauto.
  - assumption.
Qed.

Lemma installVersions_warnings n e rv st st' :
  forEachM (installVersion this n e rv)
    (JsObject.keys (DepEntry.versions e)) st = Ok st' ->
  st_warnings st' = st_warnings st
                    ++ flat_map (versionWarnings n e rv)
                         (JsObject.keys (DepEntry.versions e)).
Proof.
  apply forEachM_accumulates. intros s v s' _. apply installVersion_warnings.
Qed.

Lemma versionWarnings_unhoisted n e v : versionWarnings n e None v = [].
Proof.
  unfold versionWarnings. simpl.
  induction (dependentsOf (DepEntry.dependents e) v); simpl; auto.
Qed.

Lemma hoistedState_grows deps n e cv pkgs st :
  JsObject.get deps n = Some e ->
  isHoisted this n = true ->
  commonVersionOf (DepEntry.versions e) = Ok cv ->
  mapM (graphPackage this)
    (dependentsOf (DepEntry.dependents e) (rootVersionOf this n cv))
  = Ok pkgs ->
  growsWith (rootInstallFor this deps n) (leafInstallFor this deps n)
    st (hoistedState this n cv pkgs st).
Proof.
  intros He Hh Hc Hm. split; simpl.
  - eexists. split; [reflexivity|]. constructor; [|constructor].
    exists e, cv, pkgs. auto.
  - intros k. exists []. now rewrite app_nil_r.
Qed.

(** Placing a name only adds root and leaf installs of that name. *)
Lemma placeDependency_grows deps st n st' :
  placeDependency this deps st n = Ok st' ->
  growsWith (rootInstallFor this deps n) (leafInstallFor this deps n) st st'.
Proof.
  intros H. destruct (placeDependency_inv _ _ _ H)
    as [e [He [[Hh Hrun] | [Hh [cv [pkgs [Hc [Hm Hrun]]]]]]]].
  - apply installVersions_grows with (deps := deps) in Hrun; auto.
    revert Hrun. apply growsWith_weaken; auto. contradiction.
  - eapply growsWith_trans.
    + eapply hoistedState_grows; eauto.
    + apply installVersions_grows with (deps := deps) in Hrun; auto.
      revert Hrun. apply growsWith_weaken; auto. contradiction.
Qed.

Lemma placeDependency_warnings deps st n st' :
  placeDependency this deps st n = Ok st' ->
  st_warnings st' = st_warnings st ++ warningsFor this deps n.
Proof.
  intros H. destruct (placeDependency_inv _ _ _ H)
    as [e [He [[Hh Hrun] | [Hh [cv [pkgs [Hc [Hm Hrun]]]]]]]];
    unfold warningsFor; rewrite He, Hh.
  - apply installVersions_warnings in Hrun. rewrite Hrun.
    assert (Hnil : forall l, flat_map (versionWarnings n e None) l = []).
    { induction l; simpl; auto. now rewrite versionWarnings_unhoisted. }
    now rewrite Hnil.
  - rewrite Hc. apply installVersions_warnings in Hrun. rewrite Hrun.
    simpl. now rewrite app_assoc.
Qed.

(** A hoisted name gets its root install. *)
Lemma placeDependency_root deps st n st' :
  placeDependency this deps st n = Ok st' ->
  isHoisted this n = true ->
  exists r, In r (st_root st') /\ rootInstallFor this deps n r.
Proof.
  intros H Hh. destruct (placeDependency_inv _ _ _ H)
    as [e [He [[Hh' Hrun] | [_ [cv [pkgs [Hc [Hm Hrun]]]]]]]];
    [congruence|].
  apply installVersions_grows with (deps := deps) in Hrun; auto.
  eexists. split.
  - eapply growsWith_root_In; [apply Hrun|]. simpl.
    apply in_or_app. right. now left.
  - exists e, cv, pkgs. auto.
Qed.

(** A name that is not hoisted gets a leaf install for every requester of
    every version. *)
Lemma placeDependency_leaf deps st n st' e v p :
  placeDependency this deps st n = Ok st' ->
  isHoisted this n = false ->
  JsObject.get deps n = Some e ->
  In v (JsObject.keys (DepEntry.versions e)) ->
  In p (dependentsOf (DepEntry.dependents e) v) ->
  exists pk, findPackage this p None = Some pk
             /\ In (leafOf n v pk) (leavesOf (st_leaves st') p).
Proof.
  intros H Hh He Hv Hp. destruct (placeDependency_inv _ _ _ H)
    as [e' [He' [[_ Hrun] | [Hh' _]]]]; [|congruence].
  assert (e' = e) by congruence. subst e'.
  eapply installVersions_adds; eauto.
Qed.

(** A hoisted name gets a leaf install for every requester of every
    version but the root's. *)
Lemma placeDependency_leaf_hoisted deps st n st' e cv v p :
  placeDependency this deps st n = Ok st' ->
  isHoisted this n = true ->
  JsObject.get deps n = Some e ->
  commonVersionOf (DepEntry.versions e) = Ok cv ->
  In v (JsObject.keys (DepEntry.versions e)) ->
  v <> rootVersionOf this n cv ->
  In p (dependentsOf (DepEntry.dependents e) v) ->
  exists pk, findPackage this p None = Some pk
             /\ In (leafOf n v pk) (leavesOf (st_leaves st') p).
Proof.
  intros H Hh He Hc Hv Hne Hp. destruct (placeDependency_inv _ _ _ H)
    as [e' [He' [[Hh' _] | [_ [cv' [pkgs [Hc' [Hm Hrun]]]]]]]]; [congruence|].
  assert (e' = e) by congruence. subst e'.
  assert (cv' = cv) by congruence. subst cv'.
  eapply installVersions_adds; eauto.
  simpl. now apply String.eqb_neq.
Qed.

End PlanFacts.

(* ------------------------------------------------------------------ *)
(** ** The plan *)

Section PlanResult.
Context {C : Collaborators}.
Variable this : BootstrapCommand.

Lemma planFrom_grows deps st :
  planFrom this deps = Ok st ->
  growsWith (rootInstallOf this deps) (leafInstallOf this deps)
    initialState st.
Proof.
  unfold planFrom. apply forEachM_along.
  - apply growsWith_refl.
  - apply growsWith_trans.
  - intros s n s' Hn Hs. apply placeDependency_grows in Hs.
    revert Hs. apply growsWith_weaken.
    + intros r Hr. now exists n.
    + intros k l Hl. now exists n.
Qed.

Lemma planFrom_sound deps st :
  planFrom this deps = Ok st ->
  Forall (rootInstallOf this deps) (st_root st)
  /\ forall k, Forall (leafInstallOf this deps k)
                  (leavesOf (st_leaves st) k).
Proof.
  intros H. destruct (planFrom_grows _ H) as [[r [Er Fr]] Hl]. split.
  - now rewrite Er.
  - intros k. destruct (Hl k) as [l [El Fl]]. now rewrite El.
Qed.

Lemma planFrom_step_grows deps s n s' :
  placeDependency this deps s n = Ok s' ->
  growsWith (fun _ => True) (fun _ _ => True) s s'.
Proof.
  intros Hs. apply placeDependency_grows in Hs.
  revert Hs. apply growsWith_weaken; auto.
Qed.

Lemma planFrom_root deps st n :
  planFrom this deps = Ok st ->
  In n (JsObject.keys deps) ->
  isHoisted this n = true ->
  exists r, In r (st_root st) /\ rootInstallFor this deps n r.
Proof.
  unfold planFrom. intros Hrun Hn Hh. revert Hrun.
  generalize initialState as st0. intros st0. revert st0 st.
  apply (forEachM_visits (placeDependency this deps)
           (growsWith (fun _ => True) (fun _ _ => True))
           (fun s => exists r, In r (st_root s)
                               /\ rootInstallFor this deps n r)
           (JsObject.keys deps) n).
  - apply growsWith_refl.
  - apply growsWith_trans.
  - intros s b s' _. apply planFrom_step_grows.
  - intros s s' Hs. eapply placeDependency_root; eauto.
  - intros s s' Hg [r [Hin Hr]]. exists r. split; auto.
    eapply growsWith_root_In; eauto.
  - assumption.
Qed.

Lemma planFrom_leaf deps st n e v p :
  planFrom this deps = Ok st ->
  JsObject.get deps n = Some e ->
  isHoisted this n = false ->
  In v (JsObject.keys (DepEntry.versions e)) ->
  In p (dependentsOf (DepEntry.dependents e) v) ->
  exists pk, findPackage this p None = Some pk
             /\ In (leafOf n v pk) (leavesOf (st_leaves st) p).
Proof.
  unfold planFrom. intros Hrun He Hh Hv Hp. revert Hrun.
  generalize initialState as st0. intros st0. revert st0 st.
  apply (forEachM_visits (placeDependency this deps)
           (growsWith (fun _ => True) (fun _ _ => True))
           (fun s => exists pk, findPackage this p None = Some pk
                                /\ In (leafOf n v pk) (leavesOf (st_leaves s) p))
           (JsObject.keys deps) n).
  - apply growsWith_refl.
  - apply growsWith_trans.
  - intros s b s' _. apply planFrom_step_grows.
  - intros s s' Hs. eapply placeDependency_leaf; eauto.
  - intros s s' Hg [pk [Hf Hl]]. exists pk. split; auto.
    eapply growsWith_leaf_In; eauto.
  - apply keys_In. eauto.
Qed.

Lemma planFrom_leaf_hoisted deps st n e cv v p :
  planFrom this deps = Ok st ->
  JsObject.get deps n = Some e ->
  isHoisted this n = true ->
  commonVersionOf (DepEntry.versions e) = Ok cv ->
  In v (JsObject.keys (DepEntry.versions e)) ->
  v <> rootVersionOf this n cv ->
  In p (dependentsOf (DepEntry.dependents e) v) ->
  exists pk, findPackage this p None = Some pk
             /\ In (leafOf n v pk) (leavesOf (st_leaves st) p).
Proof.
  unfold planFrom. intros Hrun He Hh Hc Hv Hne Hp. revert Hrun.
  generalize initialState as st0. intros st0. revert st0 st.
  apply (forEachM_visits (placeDependency this deps)
           (growsWith (fun _ => True) (fun _ _ => True))
           (fun s => exists pk, findPackage this p None = Some pk
                                /\ In (leafOf n v pk) (leavesOf (st_leaves s) p))
           (JsObject.keys deps) n).
  - apply growsWith_refl.
  - apply growsWith_trans.
  - intros s b s' _. apply planFrom_step_grows.
  - intros s s' Hs. eapply placeDependency_leaf_hoisted; eauto.
  - intros s s' Hg [pk [Hf Hl]]. exists pk. split; auto.
    eapply growsWith_leaf_In; eauto.
  - apply keys_In. eauto.
Qed.

Lemma planFrom_warnings deps st :
  planFrom this deps = Ok st ->
  st_warnings st = flat_map (warningsFor this deps) (JsObject.keys deps).
Proof.
  unfold planFrom. intros H.
  apply (forEachM_accumulates (placeDependency this deps) st_warnings
           (warningsFor this deps)) in H; auto.
  intros s n s' _. apply placeDependency_warnings.
Qed.

(** When no read leaves the object, the loops build [depsToInstall]. *)
Lemma tryRecordDependency_Ok requester deps d deps' :
  tryRecordDependency requester deps d = Ok deps' ->
  deps' = recordDependency requester deps d.
Proof.
  unfold tryRecordDependency.
  destruct (JsObject.inherits deps (Dep.name d)); [discriminate|].
  destruct (JsObject.inherits _ (Dep.version d)); [discriminate|].
  intros H. now inversion H.
Qed.

Lemma tryRecordPackage_Ok deps pkg deps' :
  tryRecordPackage this deps pkg = Ok deps' ->
  deps' = recordPackage this deps pkg.
Proof.
  unfold tryRecordPackage, recordPackage.
  apply forEachM_fold. intros s a s'. apply tryRecordDependency_Ok.
Qed.

Lemma recordedDependencies_Ok deps :
  recordedDependencies this = Ok deps -> deps = depsToInstall this.
Proof.
  unfold recordedDependencies, depsToInstall.
  apply forEachM_fold. intros s a s'. apply tryRecordPackage_Ok.
Qed.

Lemma getDependenciesToInstall_inv plan warns :
  getDependenciesToInstall this = Ok (plan, warns) ->
  exists st, planFrom this (depsToInstall this) = Ok st
             /\ root plan = st_root st
             /\ leaves plan = st_leaves st
             /\ warns = st_warnings st.
Proof.
  unfold getDependenciesToInstall.
  destruct (recordedDependencies this) as [deps|m] eqn:Hrec; simpl;
    [|discriminate].
  apply recordedDependencies_Ok in Hrec. subst deps.
  destruct (planFrom this (depsToInstall this)) as [st|m]; simpl;
    [|discriminate].
  intros H. inversion H. subst. exists st. auto.
Qed.

(** *** What a filtered package records *)

Lemma findPackage_name n v p :
  findPackage this n v = Some p -> Package.name p = n /\ In p (packages this).
Proof.
  unfold findPackage. intros H. apply find_some in H.
  destruct H as [Hin H]. apply andb_prop in H. destruct H as [H _].
  apply String.eqb_eq in H. auto.
Qed.

Lemma toDep_name nv : Dep.name (toDep this nv) = fst nv.
Proof.
  unfold toDep. destruct (findPackage this (fst nv) (Some (snd nv))) eqn:E;
    simpl; auto.
  now apply findPackage_name in E.
Qed.

Lemma externalDependencies_In pkg d :
  In d (externalDependencies this pkg) <->
  exists n range,
    JsObject.get (Package.allDependencies pkg) n = Some range
    /\ d = toDep this (n, range)
    /\ isExternal this pkg d = true.
Proof.
  unfold externalDependencies. rewrite filter_In, in_map_iff. split.
  - intros [[[n range] [Hd Hin]] Hx]. apply entries_In in Hin.
    exists n, range. auto.
  - intros [n [range [Hg [Hd Hx]]]]. split; auto.
    exists (n, range). split; auto. now apply entries_In.
Qed.

Lemma requestersOf_In p n v :
  In p (requestersOf this n v) <->
  exists pkg d,
    In pkg (filteredPackages this)
    /\ In d (externalDependencies this pkg)
    /\ Dep.name d = n /\ Dep.version d = v /\ Package.name pkg = p.
Proof.
  unfold requestersOf. rewrite in_flat_map. split.
  - intros [pkg [Hpkg Hin]]. apply in_flat_map in Hin.
    destruct Hin as [d [Hd Hin]]. revert Hin.
    destruct (Dep.name d =? n) eqn:En; simpl; [|tauto].
    destruct (Dep.version d =? v) eqn:Ev; simpl; [|tauto].
    intros [<- | []].
    apply String.eqb_eq in En, Ev. exists pkg, d. auto.
  - intros [pkg [d [Hpkg [Hd [<- [<- <-]]]]]]. exists pkg. split; auto.
    apply in_flat_map. exists d. split; auto.
    rewrite !String.eqb_refl. now left.
Qed.

(** A requester listed under a name and version stands in an entry of the
    aggregate, under a version the entry counts. *)
Lemma requestersOf_entry p n v :
  In p (requestersOf this n v) ->
  exists e,
    JsObject.get (depsToInstall this) n = Some e
    /\ In v (JsObject.keys (DepEntry.versions e))
    /\ In p (dependentsOf (DepEntry.dependents e) v).
Proof.
  rewrite <- depsToInstall_dependentsAt. unfold dependentsAt.
  destruct (JsObject.get (depsToInstall this) n) as [e|] eqn:E;
    [|intros []].
  intros Hin. exists e. repeat split; auto.
  destruct (depsToInstall_wf this n E) as [Hwf _].
  specialize (Hwf v). apply keys_In.
  destruct (JsObject.get (DepEntry.versions e) v) as [c|]; eauto.
  unfold dependentsOf in Hin. rewrite Hwf in Hin. destruct Hin.
Qed.

End PlanResult.

(* ------------------------------------------------------------------ *)
(** ** Coverage and what is recorded *)

Section Recording.
Context {C : Collaborators}.
Variable this : BootstrapCommand.

Lemma toDep_external n range :
  findPackage this n (Some range) = None ->
  toDep this (n, range) = Dep.mk n range.
Proof. unfold toDep. simpl. now intros ->. Qed.


Lemma hasPackage_false n v :
  hasPackage this n v = false -> findPackage this n v = None.
Proof.
  unfold hasPackage. now destruct (findPackage this n v).
Qed.

(** For a non-empty range the planner's test is the plain one: no package
    of that name has a version that satisfies the range. *)
Lemma hasPackage_mismatch n range :
  truthy range = true ->
  (forall b, In b (packages this) -> Package.name b = n ->
             semver_satisfies (Package.version b) range = false) ->
  hasPackage this n (Some range) = false.
Proof.
  intros Ht Hno. unfold hasPackage.
  destruct (findPackage this n (Some range)) as [b|] eqn:E; auto.
  pose proof E as E'. apply findPackage_name in E'. destruct E' as [Hn Hin].
  unfold findPackage in E. apply find_some in E. destruct E as [_ E].
  apply andb_prop in E. destruct E as [_ E]. simpl in E.
  rewrite Ht, (Hno b Hin Hn) in E. discriminate.
Qed.

(** Every dependency that passes the filter is listed under its name and
    version with its requester. *)
Lemma recorded_requester pkg n range :
  In pkg (filteredPackages this) ->
  JsObject.get (Package.allDependencies pkg) n = Some range ->
  isExternal this pkg (toDep this (n, range)) = true ->
  In (Package.name pkg)
     (requestersOf this n (Dep.version (toDep this (n, range)))).
Proof.
  intros Hpkg Hget Hx. apply requestersOf_In.
  exists pkg, (toDep this (n, range)). repeat split; auto.
  - apply externalDependencies_In. exists n, range. auto.
  - apply toDep_name.
Qed.

Lemma NoDup_map_eq (A B : Type) (f : A -> B) (l : list A) (a b : A) :
  NoDup (map f l) -> In a l -> In b l -> f a = f b -> a = b.
Proof.
  induction l as [|x r IH]; simpl; intros Hnd Ha Hb Hf; [tauto|].
  inversion Hnd as [|? ? Hnotin Hnd']; subst.
  destruct Ha as [-> | Ha], Hb as [-> | Hb]; auto.
  - exfalso. apply Hnotin. rewrite Hf. now apply in_map.
  - exfalso. apply Hnotin. rewrite <- Hf. now apply in_map.
Qed.


(** C1 (Plan coverage): for every filtered package and every dependency
    (name, range) it declares that the planner's filter does not skip as a
    present satisfying sibling, the plan returned by
    [getDependenciesToInstall] holds that name in a root install or in an
    entry of the leaves of that requester. *)
Theorem plan_coverage (plan : Plan) (warns : list Warning) (pkg : Package.t)
  (n range : string) :
  getDependenciesToInstall this = Ok (plan, warns) ->
  In pkg (filteredPackages this) ->
  JsObject.get (Package.allDependencies pkg) n = Some range ->
  isExternal this pkg (toDep this (n, range)) = true ->
  (exists r, In r (root plan) /\ RootInstall.name r = n)
  \/ (exists l, In l (leavesOf (leaves plan) (Package.name pkg))
                /\ DepSpec.name (LeafInstall.dependency l) = n).
Proof.
  intros Hplan Hpkg Hget Hx.
  destruct (getDependenciesToInstall_inv this Hplan)
    as [st [Hrun [Hr [Hl _]]]].
  rewrite Hr, Hl.
  pose proof (@recorded_requester pkg n range Hpkg Hget Hx) as Hreq.
  apply requestersOf_entry in Hreq. destruct Hreq as [e [He [Hv Hp]]].
  destruct (isHoisted this n) eqn:Hh.
  - left. destruct (planFrom_root this _ n Hrun) as [r [Hin Hfor]]; auto.
    { apply keys_In. eauto. }
    exists r. split; auto.
    destruct Hfor as [e' [cv [pkgs [_ [_ [_ [_ ->]]]]]]]. reflexivity.
  - right. destruct (planFrom_leaf this _ n _ _ Hrun He Hh Hv Hp) as [pk [_ Hin]].
    eexists. split; [exact Hin|]. reflexivity.
Qed.



(** C6, as amended: when a requester declares, with a range that is not
    empty, a dependency on the name of a repo-local package and no
    package of that name has a version that satisfies the range, the
    dependency is external: the requester is recorded under the declared
    range and, when the name is not hoisted, the plan holds the leaf
    install spec name@range for that requester. *)
Theorem version_mismatch_is_external (plan : Plan) (warns : list Warning)
  (pkg : Package.t) (n range : string) :
  getDependenciesToInstall this = Ok (plan, warns) ->
  In pkg (filteredPackages this) ->
  JsObject.get (Package.allDependencies pkg) n = Some range ->
  truthy range = true ->
  (exists b, In b (packages this) /\ Package.name b = n) ->
  (forall b, In b (packages this) -> Package.name b = n ->
             semver_satisfies (Package.version b) range = false) ->
  In (Package.name pkg) (dependentsAt (depsToInstall this) n range)
  /\ (isHoisted this n = false ->
      exists l, In l (leavesOf (leaves plan) (Package.name pkg))
                /\ LeafInstall.dependency l = DepSpec.mk n range
                /\ leafSpec l = (n ++ "@" ++ range)%string).
Proof.
  intros Hplan Hpkg Hget Ht _ Hmis.
  pose proof (@hasPackage_mismatch n range Ht Hmis) as Hno.
  pose proof (@toDep_external n range (@hasPackage_false n _ Hno)) as Hd.
  assert (Hx : isExternal this pkg (toDep this (n, range)) = true).
  { rewrite Hd. unfold isExternal. simpl. now rewrite Hno. }
  pose proof (@recorded_requester pkg n range Hpkg Hget Hx) as Hreq.
  rewrite Hd in Hreq. simpl in Hreq. split.
  - now rewrite depsToInstall_dependentsAt.
  - intros Hh.
    destruct (getDependenciesToInstall_inv this Hplan)
      as [st [Hrun [_ [Hl _]]]].
    rewrite Hl. apply requestersOf_entry in Hreq.
    destruct Hreq as [e [He [Hv Hp]]].
    destruct (planFrom_leaf this _ n _ _ Hrun He Hh Hv Hp) as [pk [_ Hin]].
    eexists. split; [exact Hin|]. split; reflexivity.
Qed.

End Recording.

(* ------------------------------------------------------------------ *)
(** ** Names only the root manifest declares *)

Section RootOnly.
Context {C : Collaborators}.
Variable this : BootstrapCommand.

Lemma seedRoot_fold_other (l : list (string * string)) (acc : Aggregate)
  (n : string) :
  ~ In n (map fst l) ->
  JsObject.get (fold_left seedRoot l acc) n = JsObject.get acc n.
Proof.
  revert acc. induction l as [|[n' v'] r IH]; simpl; intros acc Hn; auto.
  rewrite IH by tauto. unfold seedRoot. simpl.
  apply get_set_other. tauto.
Qed.

Lemma seedRoot_fold_get (l : list (string * string)) (acc : Aggregate)
  (n v : string) :
  NoDup (map fst l) -> In (n, v) l ->
  JsObject.get (fold_left seedRoot l acc) n = Some (seedEntry v).
Proof.
  revert acc. induction l as [|[n' v'] r IH]; simpl; intros acc Hnd Hin;
    [tauto|].
  inversion Hnd as [|? ? Hnotin Hnd']; subst.
  destruct Hin as [Heq | Hin].
  - inversion Heq; subst. rewrite seedRoot_fold_other by assumption.
    unfold seedRoot. simpl. apply get_set_same.
  - now apply IH.
Qed.

(** The root manifest seeds each of its names with its range at count 0. *)
Lemma seedDependencies_get (n v : string) :
  JsObject.get (rootDependencies this) n = Some v ->
  JsObject.get (seedDependencies this) n = Some (seedEntry v).
Proof.
  intros H. unfold seedDependencies. apply seedRoot_fold_get.
  - rewrite entries_keys. apply keys_NoDup.
  - now apply entries_In.
Qed.

Lemma recordPackage_other (deps : Aggregate) (pkg : Package.t) (n : string) :
  JsObject.get (Package.allDependencies pkg) n = None ->
  JsObject.get (recordPackage this deps pkg) n = JsObject.get deps n.
Proof.
  intros Hnone. unfold recordPackage.
  assert (Hds : forall d, In d (externalDependencies this pkg) ->
                          Dep.name d <> n).
  { intros d Hd Hn. apply externalDependencies_In in Hd.
    destruct Hd as [n' [range [Hget [-> _]]]].
    rewrite toDep_name in Hn. simpl in Hn. congruence. }
  revert deps. induction (externalDependencies this pkg) as [|d ds IH];
    simpl; intros deps; auto.
  rewrite IH by (intros; apply Hds; now right).
  apply recordDependency_other. apply Hds. now left.
Qed.

Lemma unrequested_entry (n v : string) :
  JsObject.get (rootDependencies this) n = Some v ->
  (forall pkg, In pkg (filteredPackages this) ->
               JsObject.get (Package.allDependencies pkg) n = None) ->
  JsObject.get (depsToInstall this) n = Some (seedEntry v).
Proof.
  intros Hroot Hnone. unfold depsToInstall.
  apply (fold_left_invariant (recordPackage this)
           (fun deps => JsObject.get deps n = Some (seedEntry v))).
  - intros deps pkg Hpkg Hdeps. rewrite recordPackage_other; auto.
  - now apply seedDependencies_get.
Qed.

(** C10: a name the root manifest declares and no filtered package does,
    when hoisting is off or the name is not hoistable, keeps its seeded
    count-0 entry in the aggregate, and the plan holds neither a root
    install nor any leaf install for it. *)
Theorem root_only_dependency_discarded (plan : Plan) (warns : list Warning)
  (n v : string) :
  getDependenciesToInstall this = Ok (plan, warns) ->
  JsObject.get (rootDependencies this) n = Some v ->
  (forall pkg, In pkg (filteredPackages this) ->
               JsObject.get (Package.allDependencies pkg) n = None) ->
  isHoisted this n = false ->
  JsObject.get (depsToInstall this) n = Some (seedEntry v)
  /\ (forall r, In r (root plan) -> RootInstall.name r <> n)
  /\ (forall k l, In l (leavesOf (leaves plan) k) ->
                  DepSpec.name (LeafInstall.dependency l) <> n).
Proof.
  intros Hplan Hroot Hnone Hh.
  pose proof (unrequested_entry _ Hroot Hnone) as Hentry.
  destruct (getDependenciesToInstall_inv this Hplan)
    as [st [Hrun [Hr [Hl _]]]].
  destruct (planFrom_sound this _ Hrun) as [Hroots Hleaves].
  rewrite Hr, Hl. repeat split; auto.
  - intros r Hin Hname. rewrite Forall_forall in Hroots.
    destruct (Hroots r Hin) as [n' [_ [e [cv [pkgs [_ [Hh' [_ [_ ->]]]]]]]]].
    simpl in Hname. congruence.
  - intros k l Hin Hname. specialize (Hleaves k).
    rewrite Forall_forall in Hleaves.
    destruct (Hleaves l Hin) as [n' [_ [e [v' [pk [He [_ [Hk [_ ->]]]]]]]]].
    simpl in Hname. subst n'. rewrite Hentry in He. inversion He; subst e.
    unfold seedEntry, dependentsOf in Hk. simpl in Hk.
    destruct (v =? v'); destruct Hk.
Qed.

End RootOnly.

(* ------------------------------------------------------------------ *)
(** ** The common version *)

Section Reduce.
Variable c : string -> nat.

(** Folding [later_max] keeps a candidate that nothing before it beats
    and that beats everything after it. *)
Lemma later_max_fold (r pre mid : list string) (a : string) :
  (forall x, In x pre -> c x <= c a) ->
  (forall x, In x mid -> c x < c a) ->
  exists before after,
    pre ++ a :: mid ++ r = before ++ fold_left (later_max c) r a :: after
    /\ (forall x, In x before -> c x <= c (fold_left (later_max c) r a))
    /\ (forall x, In x after -> c x < c (fold_left (later_max c) r a)).
Proof.
  revert pre mid a. induction r as [|b r IH]; intros pre mid a Hpre Hmid.
  - exists pre, mid. rewrite app_nil_r. auto.
  - simpl. unfold later_max at 2 4 6. destruct (Nat.ltb (c b) (c a)) eqn:E.
    + apply Nat.ltb_lt in E.
      destruct (IH pre (mid ++ [b]) a) as [before [after [Heq H]]]; auto.
      { intros x Hx. apply in_app_or in Hx. destruct Hx as [Hx | [<- | []]];
          auto. }
      exists before, after. split; auto.
      rewrite <- Heq, <- app_assoc. reflexivity.
    + apply Nat.ltb_ge in E.
      destruct (IH (pre ++ a :: mid) [] b) as [before [after [Heq H]]].
      { intros x Hx. apply in_app_or in Hx.
        destruct Hx as [Hx | [<- | Hx]]; auto.
        - specialize (Hpre x Hx). lia.
        - specialize (Hmid x Hx). lia. }
      { intros x []. }
      exists before, after. split; auto.
      rewrite <- Heq, <- app_assoc. reflexivity.
Qed.

End Reduce.

Lemma fold_left_ext_on (A : Type) (P : A -> Prop) (f g : A -> A -> A)
  (l : list A) (a : A) :
  (forall x y, P x -> P y -> f x y = g x y) ->
  (forall x y, P x -> P y -> P (g x y)) ->
  P a -> Forall P l -> fold_left f l a = fold_left g l a.
Proof.
  intros Hfg Hg. revert a. induction l as [|b r IH]; simpl; intros a Ha Hl;
    auto.
  inversion Hl; subst. rewrite Hfg by assumption. apply IH; auto.
Qed.

(** The common version is a key of [versions] whose count no key reaches
    after it and no key exceeds before it, in [Object.keys] order: the
    last of the most requested ranges. *)
Lemma commonVersionOf_spec (versions : JsObject.t nat) (cv : string) :
  commonVersionOf versions = Ok cv ->
  exists before after,
    JsObject.keys versions = before ++ cv :: after
    /\ (forall x, In x before -> countOf versions x <= countOf versions cv)
    /\ (forall x, In x after -> countOf versions x < countOf versions cv).
Proof.
  unfold commonVersionOf, reduce.
  assert (Hkeys : Forall (fun k => In k (JsObject.keys versions))
                         (JsObject.keys versions))
    by (apply Forall_forall; auto).
  destruct (JsObject.keys versions) as [|a r] eqn:Ek; [discriminate|].
  intros H. inversion H as [Hcv]. clear H.
  inversion Hkeys as [|? ? Ha Hr]; subst.
  rewrite (@fold_left_ext_on string (fun k => In k (a :: r)) _
             (later_max (countOf versions))); auto.
  - destruct (later_max_fold (countOf versions) r [] [] a)
      as [before [after [Heq H]]]; try (intros x []).
    exists before, after. split; auto.
  - intros x y Hx Hy. rewrite <- Ek in Hx, Hy.
    apply keys_In in Hx, Hy. destruct Hx as [cx Hx], Hy as [cy Hy].
    unfold later_max, countOf. rewrite Hx, Hy. reflexivity.
  - intros x y Hx Hy. unfold later_max.
    now destruct (Nat.ltb (countOf versions y) (countOf versions x)).
Qed.

Lemma commonVersionOf_total (versions : JsObject.t nat) :
  JsObject.keys versions <> [] -> exists cv, commonVersionOf versions = Ok cv.
Proof.
  unfold commonVersionOf, reduce.
  destruct (JsObject.keys versions); [congruence | eauto].
Qed.

Section CommonVersion.
Context {C : Collaborators}.
Variable this : BootstrapCommand.

(** The count of a version is the number of its requesters. *)
Lemma count_requesters (n v : string) (e : DepEntry.t) :
  JsObject.get (depsToInstall this) n = Some e ->
  countOf (DepEntry.versions e) v = List.length (requestersOf this n v).
Proof.
  intros He. destruct (depsToInstall_wf this n He) as [Hwf _].
  rewrite (wfEntry_count v Hwf), <- depsToInstall_dependentsAt.
  unfold dependentsAt. now rewrite He.
Qed.

(** C2, as amended: for every name of the aggregate the planner's common
    version is a range with the highest requester count, and among the
    ranges that tie on that count it is the one [Object.keys] lists last,
    not the lexicographically smallest; for a hoisted name it is the
    version the root install is built from. *)
Theorem common_version_choice (n : string) :
  In n (JsObject.keys (depsToInstall this)) ->
  exists e cv before after,
    JsObject.get (depsToInstall this) n = Some e
    /\ commonVersion this n = Some cv
    /\ JsObject.keys (DepEntry.versions e) = before ++ cv :: after
    /\ (forall v, In v before ->
          List.length (requestersOf this n v)
          <= List.length (requestersOf this n cv))
    /\ (forall v, In v after ->
          List.length (requestersOf this n v)
          < List.length (requestersOf this n cv))
    /\ (isHoisted this n = true ->
        forall plan warns,
          getDependenciesToInstall this = Ok (plan, warns) ->
          exists r, In r (root plan)
                    /\ RootInstall.name r = n
                    /\ RootInstall.dependency r
                       = DepSpec.mk n (rootVersionOf this n cv)).
Proof.
  intros Hn. apply keys_In in Hn. destruct Hn as [e He].
  destruct (depsToInstall_wf this n He) as [_ Hne].
  destruct (@commonVersionOf_total _ Hne) as [cv Hcv].
  destruct (@commonVersionOf_spec _ _ Hcv) as [before [after [Hk [Hb Ha]]]].
  exists e, cv, before, after. repeat split; auto.
  - unfold commonVersion. now rewrite He, Hcv.
  - intros v Hv. rewrite <- !(fun v' => @count_requesters n v' e He). auto.
  - intros v Hv. rewrite <- !(fun v' => @count_requesters n v' e He). auto.
  - intros Hh plan warns Hplan.
    destruct (getDependenciesToInstall_inv this Hplan)
      as [st [Hrun [Hr _]]].
    destruct (planFrom_root this _ n Hrun) as [r [Hin Hfor]]; auto.
    { apply keys_In. eauto. }
    exists r. rewrite Hr. split; auto.
    destruct Hfor as [e' [cv' [pkgs [He' [_ [Hcv' [_ ->]]]]]]].
    simpl. split; auto. congruence.
Qed.

End CommonVersion.

(* ------------------------------------------------------------------ *)
(** ** The dependents of a root install *)

Section RootDependents.
Context {C : Collaborators}.
Variable this : BootstrapCommand.

Lemma graphPackage_Ok (k : string) (p : Package.t) :
  graphPackage this k = Ok p <-> packageGraph_get this k = Some p.
Proof.
  unfold graphPackage. destruct (packageGraph_get this k); split;
    intros H; inversion H; auto.
Qed.

Lemma entry_dependents (n v : string) (e : DepEntry.t) :
  JsObject.get (depsToInstall this) n = Some e ->
  dependentsOf (DepEntry.dependents e) v = requestersOf this n v.
Proof.
  intros He. rewrite <- depsToInstall_dependentsAt. unfold dependentsAt.
  now rewrite He.
Qed.

Lemma externalDependencies_names (pkg : Package.t) :
  NoDup (map Dep.name (externalDependencies this pkg)).
Proof.
  unfold externalDependencies.
  assert (Hnd : NoDup (map Dep.name
                         (map (toDep this)
                            (JsObject.entries (Package.allDependencies pkg))))).
  { rewrite map_map.
    rewrite (map_ext _ fst) by (intros nv; apply toDep_name).
    rewrite entries_keys. apply keys_NoDup. }
  revert Hnd.
  generalize (map (toDep this)
                (JsObject.entries (Package.allDependencies pkg))) as ds.
  induction ds as [|d ds IH]; simpl; intros Hnd; [constructor|].
  inversion Hnd as [|? ? Hnotin Hnd']; subst.
  destruct (isExternal this pkg d); simpl; auto.
  constructor; auto. intros Hin. apply Hnotin.
  apply in_map_iff in Hin. destruct Hin as [d' [Hd' Hin]].
  apply filter_In in Hin. apply in_map_iff. exists d'. tauto.
Qed.

(** One package stands at most once under a name and version. *)
Lemma requester_once (ds : list Dep.t) (p n v : string) :
  NoDup (map Dep.name ds) ->
  let listed := flat_map (fun d => if (Dep.name d =? n) && (Dep.version d =? v)
                                   then [p] else []) ds in
  listed = [] \/ listed = [p].
Proof.
  induction ds as [|d ds IH]; simpl; intros Hnd; auto.
  inversion Hnd as [|? ? Hnotin Hnd']; subst.
  destruct (Dep.name d =? n) eqn:En; simpl; auto.
  destruct (Dep.version d =? v); simpl; auto.
  right. f_equal. apply String.eqb_eq in En.
  assert (Hnone : forall d', In d' ds -> (Dep.name d' =? n) = false).
  { intros d' Hd'. apply String.eqb_neq. intros Hn. apply Hnotin.
    rewrite En, <- Hn. now apply in_map. }
  clear - Hnone. induction ds as [|d' ds IH]; simpl; auto.
  rewrite Hnone by now left. simpl. apply IH. intros; apply Hnone; now right.
Qed.

Lemma requestersOf_NoDup (n v : string) :
  NoDup (map Package.name (filteredPackages this)) ->
  NoDup (requestersOf this n v).
Proof.
  unfold requestersOf.
  induction (filteredPackages this) as [|pkg pkgs IH]; simpl; intros Hnd;
    [constructor|].
  inversion Hnd as [|? ? Hnotin Hnd']; subst.
  destruct (@requester_once (externalDependencies this pkg)
              (Package.name pkg) n v (externalDependencies_names pkg))
    as [-> | ->]; simpl; auto.
  constructor; auto. intros Hin. apply Hnotin.
  apply in_flat_map in Hin. destruct Hin as [pkg' [Hpkg' Hin]].
  apply in_flat_map in Hin. destruct Hin as [d [_ Hin]].
  destruct ((Dep.name d =? n) && (Dep.version d =? v)); simpl in Hin;
    [|tauto].
  destruct Hin as [<- | []]. now apply in_map.
Qed.



End RootDependents.

(* ------------------------------------------------------------------ *)
(** ** Warnings *)

Section Counting.
Variables (A W : Type).
Variable W_dec : forall a b : W, {a = b} + {a <> b}.
Variable A_dec : forall a b : A, {a = b} + {a <> b}.
Variables (f : A -> list W) (key : W -> A).
Hypothesis f_key : forall x w, In w (f x) -> key w = x.

Lemma count_occ_flat_map_other (l : list A) (w : W) :
  ~ In (key w) l -> count_occ W_dec (flat_map f l) w = 0.
Proof.
  intros Hnot. apply count_occ_not_In. intros Hin.
  apply in_flat_map in Hin. destruct Hin as [x [Hx Hw]].
  apply f_key in Hw. congruence.
Qed.

(** Only the part of its key holds a given element. *)
Lemma count_occ_flat_map_key (l : list A) (w : W) :
  NoDup l -> In (key w) l ->
  count_occ W_dec (flat_map f l) w = count_occ W_dec (f (key w)) w.
Proof.
  induction l as [|x r IH]; simpl; intros Hnd Hin; [tauto|].
  inversion Hnd as [|? ? Hnotin Hnd']; subst.
  rewrite count_occ_app. destruct (A_dec x (key w)) as [-> | Hne].
  - rewrite count_occ_flat_map_other by assumption. lia.
  - destruct Hin as [Heq | Hin]; [contradiction|].
    rewrite IH by assumption.
    rewrite (proj1 (count_occ_not_In W_dec (f x) w)); auto.
    intros Hw. apply f_key in Hw. congruence.
Qed.

End Counting.

Lemma count_occ_map_inj (A B : Type)
  (A_dec : forall a b : A, {a = b} + {a <> b})
  (B_dec : forall a b : B, {a = b} + {a <> b})
  (g : A -> B) (l : list A) (a : A) :
  (forall x y, g x = g y -> x = y) ->
  count_occ B_dec (flat_map (fun x => [g x]) l) (g a) = count_occ A_dec l a.
Proof.
  intros Hinj. induction l as [|x r IH]; simpl; auto.
  destruct (B_dec (g x) (g a)) as [Heq | Hne], (A_dec x a) as [-> | Hne'];
    auto; try congruence.
  apply Hinj in Heq. contradiction.
Qed.

Section Warnings.
Context {C : Collaborators}.
Variable this : BootstrapCommand.

Lemma pkgVersionWarning_In n v rv0 p w :
  In w (pkgVersionWarning n v rv0 p) ->
  exists rv, rv0 = Some rv /\ truthy rv = true
             /\ w = EHOIST_PKG_VERSION p n v rv.
Proof.
  unfold pkgVersionWarning. destruct rv0 as [rv|]; [|intros []].
  destruct (truthy rv) eqn:E; [|intros []].
  intros [<- | []]. eauto.
Qed.

Lemma versionWarnings_In n e rv0 v w :
  In w (versionWarnings n e rv0 v) ->
  exists p rv,
    rv0 = Some rv /\ truthy rv = true /\ v <> rv
    /\ In p (dependentsOf (DepEntry.dependents e) v)
    /\ w = EHOIST_PKG_VERSION p n v rv.
Proof.
  unfold versionWarnings. destruct (isRootVersion v rv0) eqn:E; [intros []|].
  intros Hin. apply in_flat_map in Hin. destruct Hin as [p [Hp Hw]].
  apply pkgVersionWarning_In in Hw. destruct Hw as [rv [-> [Ht ->]]].
  exists p, rv. repeat split; auto.
  simpl in E. now apply String.eqb_neq.
Qed.

Lemma rootVersionOf_root n cv :
  rootVersionOf this n cv <> cv ->
  JsObject.get (rootDependencies this) n = Some (rootVersionOf this n cv)
  /\ truthy (rootVersionOf this n cv) = true.
Proof.
  unfold rootVersionOf.
  destruct (JsObject.get (rootDependencies this) n) as [r|]; [|congruence].
  destruct (truthy r) eqn:E; [auto | congruence].
Qed.

Lemma rootVersionOf_truthy n cv rv :
  JsObject.get (rootDependencies this) n = Some rv -> truthy rv = true ->
  rootVersionOf this n cv = rv.
Proof. unfold rootVersionOf. now intros -> ->. Qed.

(** What [warningsFor] holds, by kind of warning. *)
Lemma warningsFor_In deps n w :
  In w (warningsFor this deps n) ->
  exists e cv,
    JsObject.get deps n = Some e
    /\ isHoisted this n = true
    /\ commonVersionOf (DepEntry.versions e) = Ok cv
    /\ ((w = EHOIST_ROOT_VERSION n (rootVersionOf this n cv) cv
         /\ rootVersionOf this n cv <> cv)
        \/ (exists p v,
              w = EHOIST_PKG_VERSION p n v (rootVersionOf this n cv)
              /\ In v (JsObject.keys (DepEntry.versions e))
              /\ v <> rootVersionOf this n cv
              /\ In p (dependentsOf (DepEntry.dependents e) v))).
Proof.
  unfold warningsFor.
  destruct (JsObject.get deps n) as [e|]; [|intros []].
  destruct (isHoisted this n); [|intros []].
  destruct (commonVersionOf (DepEntry.versions e)) as [cv|m] eqn:Hcv;
    [|intros []].
  intros Hin. exists e, cv. repeat split; auto.
  apply in_app_or in Hin. destruct Hin as [Hin | Hin].
  - left. unfold rootVersionWarning in Hin.
    destruct (rootVersionOf this n cv =? cv) eqn:E; [destruct Hin|].
    destruct Hin as [<- | []]. split; auto. now apply String.eqb_neq.
  - right. apply in_flat_map in Hin. destruct Hin as [v [Hv Hw]].
    apply versionWarnings_In in Hw.
    destruct Hw as [p [rv [Hrv [_ [Hne [Hp ->]]]]]].
    inversion Hrv; subst rv. exists p, v. auto.
Qed.

Lemma warningsFor_name deps n w :
  In w (warningsFor this deps n) -> warningName w = n.
Proof.
  intros Hin. apply warningsFor_In in Hin.
  destruct Hin as [e [cv [_ [_ [_ [[-> _] | [p [v [-> _]]]]]]]]]; reflexivity.
Qed.

Lemma versionWarnings_version n e rv0 v w :
  In w (versionWarnings n e rv0 v) -> warningVersion w = v.
Proof.
  intros Hin. apply versionWarnings_In in Hin.
  destruct Hin as [p [rv [_ [_ [_ [_ ->]]]]]]. reflexivity.
Qed.

Lemma timesLogged_root_in_versions n e rv0 rv cv (vs : list string) :
  count_occ Warning_eq_dec (flat_map (versionWarnings n e rv0) vs)
    (EHOIST_ROOT_VERSION n rv cv) = 0.
Proof.
  apply count_occ_not_In. intros Hin. apply in_flat_map in Hin.
  destruct Hin as [v [_ Hw]]. apply versionWarnings_In in Hw.
  destruct Hw as [p [rv' [_ [_ [_ [_ Hw]]]]]]. discriminate.
Qed.

(** The warnings about one package and one version of a hoisted name. *)
Lemma timesLogged_pkg_in_version n e rv v p :
  truthy rv = true -> v <> rv ->
  count_occ Warning_eq_dec (versionWarnings n e (Some rv) v)
    (EHOIST_PKG_VERSION p n v rv)
  = count_occ string_dec (dependentsOf (DepEntry.dependents e) v) p.
Proof.
  intros Ht Hne. unfold versionWarnings. simpl.
  rewrite (proj2 (String.eqb_neq v rv) Hne).
  unfold pkgVersionWarning. rewrite Ht.
  apply (count_occ_map_inj string_dec Warning_eq_dec
           (fun p' => EHOIST_PKG_VERSION p' n v rv)).
  intros x y H. now inversion H.
Qed.

End Warnings.

Section WarningCorrespondence.
Context {C : Collaborators}.
Variable this : BootstrapCommand.

Lemma warnings_of_plan plan warns :
  getDependenciesToInstall this = Ok (plan, warns) ->
  warns = flat_map (warningsFor this (depsToInstall this))
            (JsObject.keys (depsToInstall this)).
Proof.
  intros Hplan.
  destruct (getDependenciesToInstall_inv this Hplan) as [st [Hrun [_ [_ ->]]]].
  now apply planFrom_warnings.
Qed.

Lemma timesLogged_at_name (w : Warning) :
  In (warningName w) (JsObject.keys (depsToInstall this)) ->
  count_occ Warning_eq_dec
    (flat_map (warningsFor this (depsToInstall this))
       (JsObject.keys (depsToInstall this))) w
  = count_occ Warning_eq_dec
      (warningsFor this (depsToInstall this) (warningName w)) w.
Proof.
  intros Hin.
  apply (count_occ_flat_map_key Warning_eq_dec string_dec
           (warningsFor this (depsToInstall this)) warningName); auto.
  - intros x w'. apply warningsFor_name.
  - apply keys_NoDup.
Qed.

Lemma commonVersion_inv n cv :
  commonVersion this n = Some cv ->
  exists e, JsObject.get (depsToInstall this) n = Some e
            /\ commonVersionOf (DepEntry.versions e) = Ok cv.
Proof.
  unfold commonVersion.
  destruct (JsObject.get (depsToInstall this) n) as [e|]; [|discriminate].
  destruct (commonVersionOf (DepEntry.versions e)) as [cv'|] eqn:E;
    [|discriminate].
  intros H. inversion H; subst. eauto.
Qed.

Lemma rootVersion_inv n rv :
  rootVersion this n = Some rv ->
  isHoisted this n = true
  /\ exists cv, commonVersion this n = Some cv
                /\ rv = rootVersionOf this n cv.
Proof.
  unfold rootVersion. destruct (isHoisted this n); [|discriminate].
  destruct (commonVersion this n) as [cv|]; [|discriminate].
  intros H. inversion H. eauto.
Qed.

(** The package warnings about a version of a hoisted name: one per
    requester of that version. *)
Lemma timesLogged_pkg plan warns p n v rv :
  getDependenciesToInstall this = Ok (plan, warns) ->
  rootVersion this n = Some rv -> truthy rv = true -> v <> rv ->
  timesLogged (EHOIST_PKG_VERSION p n v rv) warns
  = count_occ string_dec (requestersOf this n v) p.
Proof.
  intros Hplan Hrv Ht Hne. unfold timesLogged.
  rewrite (warnings_of_plan Hplan).
  destruct (rootVersion_inv _ Hrv) as [Hh [cv [Hcv ->]]].
  destruct (commonVersion_inv _ Hcv) as [e [He Hc]].
  rewrite timesLogged_at_name by (simpl; apply keys_In; eauto).
  simpl. unfold warningsFor. rewrite He, Hh, Hc, count_occ_app.
  rewrite (proj1 (count_occ_not_In Warning_eq_dec
                    (rootVersionWarning n (rootVersionOf this n cv) cv) _)).
  2:{ unfold rootVersionWarning.
      destruct (rootVersionOf this n cv =? cv); simpl; [tauto|].
      intros [H | []]. discriminate. }
  simpl. destruct (in_dec string_dec v (JsObject.keys (DepEntry.versions e)))
    as [Hv | Hv].
  - rewrite (count_occ_flat_map_key Warning_eq_dec string_dec
               (versionWarnings n e (Some (rootVersionOf this n cv)))
               warningVersion); simpl; auto.
    + rewrite timesLogged_pkg_in_version by assumption.
      now rewrite (entry_dependents this n v He).
    + intros x w. apply versionWarnings_version.
    + apply keys_NoDup.
  - rewrite (count_occ_flat_map_other Warning_eq_dec
               (versionWarnings n e (Some (rootVersionOf this n cv)))
               warningVersion); simpl; auto.
    + symmetry. apply count_occ_not_In. intros Hp.
      apply requestersOf_entry in Hp. destruct Hp as [e' [He' [Hv' _]]].
      congruence.
    + intros x w. apply versionWarnings_version.
Qed.

(** C3, as amended (Warning correspondence).  In a plan the planner
    returns: [EHOIST_ROOT_VERSION] is logged for a name only if the name is
    hoisted and the root manifest's range for it is present and differs
    from the common version, and it is logged exactly once when that range
    is moreover a non-empty string; [EHOIST_PKG_VERSION] is logged only
    for a requester of a range of a hoisted name that differs from the
    root version, and when the root version is a non-empty string it is
    logged once per requester of such a range (exactly once per requester
    and range when package names are distinct); a name that is not hoisted
    gets a leaf install for each requester of each of its ranges and no
    warning. *)
Theorem warning_correspondence (plan : Plan) (warns : list Warning) :
  getDependenciesToInstall this = Ok (plan, warns) ->
  (forall n rv cv,
     In (EHOIST_ROOT_VERSION n rv cv) warns ->
     isHoisted this n = true
     /\ commonVersion this n = Some cv
     /\ JsObject.get (rootDependencies this) n = Some rv
     /\ rv <> cv)
  /\ (forall n rv cv,
        isHoisted this n = true ->
        commonVersion this n = Some cv ->
        JsObject.get (rootDependencies this) n = Some rv ->
        truthy rv = true ->
        rv <> cv ->
        timesLogged (EHOIST_ROOT_VERSION n rv cv) warns = 1)
  /\ (forall p n v rv,
        In (EHOIST_PKG_VERSION p n v rv) warns ->
        rootVersion this n = Some rv
        /\ v <> rv
        /\ In p (requestersOf this n v))
  /\ (forall p n v rv,
        rootVersion this n = Some rv ->
        truthy rv = true ->
        v <> rv ->
        timesLogged (EHOIST_PKG_VERSION p n v rv) warns
        = count_occ string_dec (requestersOf this n v) p)
  /\ (forall p n v rv,
        NoDup (map Package.name (filteredPackages this)) ->
        rootVersion this n = Some rv ->
        truthy rv = true ->
        v <> rv ->
        In p (requestersOf this n v) ->
        timesLogged (EHOIST_PKG_VERSION p n v rv) warns = 1)
  /\ (forall n,
        isHoisted this n = false ->
        (forall w, In w warns -> warningName w <> n)
        /\ (forall v p,
              In p (requestersOf this n v) ->
              exists l, In l (leavesOf (leaves plan) p)
                        /\ LeafInstall.dependency l = DepSpec.mk n v)).
Proof.
  intros Hplan. pose proof (warnings_of_plan Hplan) as Hwarns.
  assert (Hlogged : forall w, In w warns ->
            exists e cv,
              JsObject.get (depsToInstall this) (warningName w) = Some e
              /\ isHoisted this (warningName w) = true
              /\ commonVersionOf (DepEntry.versions e) = Ok cv
              /\ In w (warningsFor this (depsToInstall this) (warningName w))).
  { intros w Hin. rewrite Hwarns in Hin. apply in_flat_map in Hin.
    destruct Hin as [n' [_ Hw]].
    pose proof (warningsFor_name _ _ _ _ Hw) as Hn. subst n'.
    destruct (warningsFor_In _ _ _ _ Hw) as [e [cv [He [Hh [Hc _]]]]].
    exists e, cv. auto. }
  repeat split.
  - destruct (Hlogged _ H) as [e [cv' [He [Hh _]]]]. exact Hh.
  - destruct (Hlogged _ H) as [e [cv' [He [Hh [Hc Hw]]]]]. simpl in *.
    apply warningsFor_In in Hw.
    destruct Hw as [e' [cv'' [He' [_ [Hc' [[Heq _] | [p [v [Heq _]]]]]]]]];
      [|discriminate].
    inversion Heq; subst. unfold commonVersion. now rewrite He', Hc'.
  - destruct (Hlogged _ H) as [e [cv' [He [Hh [Hc Hw]]]]]. simpl in *.
    apply warningsFor_In in Hw.
    destruct Hw as [e' [cv'' [He' [_ [Hc' [[Heq Hne] | [p [v [Heq _]]]]]]]]];
      [|discriminate].
    inversion Heq; subst. now apply rootVersionOf_root.
  - destruct (Hlogged _ H) as [e [cv' [He [Hh [Hc Hw]]]]]. simpl in *.
    apply warningsFor_In in Hw.
    destruct Hw as [e' [cv'' [He' [_ [Hc' [[Heq Hne] | [p [v [Heq _]]]]]]]]];
      [|discriminate].
    inversion Heq; subst. exact Hne.
  - intros n rv cv Hh Hcv Hroot Ht Hne. unfold timesLogged. rewrite Hwarns.
    destruct (commonVersion_inv _ Hcv) as [e [He Hc]].
    rewrite timesLogged_at_name by (simpl; apply keys_In; eauto).
    simpl. unfold warningsFor. rewrite He, Hh, Hc, count_occ_app.
    rewrite timesLogged_root_in_versions.
    rewrite (rootVersionOf_truthy _ _ _ Hroot Ht).
    unfold rootVersionWarning. rewrite (proj2 (String.eqb_neq rv cv) Hne).
    rewrite count_occ_cons_eq by reflexivity. reflexivity.
  - destruct (Hlogged _ H) as [e [cv' [He [Hh [Hc Hw]]]]]. simpl in *.
    apply warningsFor_In in Hw.
    destruct Hw as [e' [cv'' [He' [_ [Hc' [[Heq _] | [p' [v' [Heq _]]]]]]]]];
      [discriminate|].
    inversion Heq; subst. unfold rootVersion, commonVersion.
    now rewrite Hh, He', Hc'.
  - destruct (Hlogged _ H) as [e [cv' [He [Hh [Hc Hw]]]]]. simpl in *.
    apply warningsFor_In in Hw.
    destruct Hw as [e' [cv'' [He' [_ [Hc' [[Heq _] | [p' [v' [Heq [_ [Hne _]]]]]]]]]]];
      [discriminate|].
    inversion Heq; subst. exact Hne.
  - destruct (Hlogged _ H) as [e [cv' [He [Hh [Hc Hw]]]]]. simpl in *.
    apply warningsFor_In in Hw.
    destruct Hw as [e' [cv'' [He' [_ [Hc' [[Heq _] | [p' [v' [Heq [_ [_ Hp]]]]]]]]]]];
      [discriminate|].
    inversion Heq; subst. now rewrite <- (entry_dependents this _ _ He').
  - intros p n v rv. now apply timesLogged_pkg with (plan := plan).
  - intros p n v rv Hnd Hrv Ht Hne Hp.
    rewrite (@timesLogged_pkg plan warns p n v rv Hplan Hrv Ht Hne).
    apply NoDup_count_occ'; auto. now apply requestersOf_NoDup.
  - intros w Hin Hn. destruct (Hlogged _ Hin) as [e [cv [_ [Hh _]]]].
    congruence.
  - intros v p Hp.
    destruct (getDependenciesToInstall_inv this Hplan)
      as [st [Hrun [_ [Hl _]]]].
    rewrite Hl. apply requestersOf_entry in Hp.
    destruct Hp as [e [He [Hv Hp]]].
    destruct (planFrom_leaf this _ n _ _ Hrun He H Hv Hp) as [pk [_ Hin]].
    eexists. split; [exact Hin | reflexivity].
Qed.

End WarningCorrespondence.

(* ------------------------------------------------------------------ *)
(** ** The install phase *)

Lemma Forall2_In_l (A B : Type) (R : A -> B -> Prop) (l : list A)
  (l' : list B) (a : A) :
  Forall2 R l l' -> In a l -> exists b, In b l' /\ R a b.
Proof.
  induction 1 as [|x y l l' Hxy Hall IH]; simpl; [tauto|].
  intros [-> | Hin]; eauto.
  destruct (IH Hin) as [b [Hb Hr]]. eauto.
Qed.

Lemma Forall2_In_r (A B : Type) (R : A -> B -> Prop) (l : list A)
  (l' : list B) (b : B) :
  Forall2 R l l' -> In b l' -> exists a, In a l /\ R a b.
Proof.
  induction 1 as [|x y l l' Hxy Hall IH]; simpl; [tauto|].
  intros [-> | Hin]; eauto.
  destruct (IH Hin) as [a [Ha Hr]]. eauto.
Qed.

Section InstallPhase.
Context {C : Collaborators}.
Variable this : BootstrapCommand.

Lemma installExternalDependencies_inv actions :
  installExternalDependencies this = Ok actions ->
  exists plan warns leafs,
    getDependenciesToInstall this = Ok (plan, warns)
    /\ leafActions this (leaves plan) = Ok leafs
    /\ actions = rootActions this (root plan) ++ leafs.
Proof.
  unfold installExternalDependencies.
  destruct (getDependenciesToInstall this) as [[plan warns]|m]; simpl;
    [|discriminate].
  destruct (leafActions this (leaves plan)) as [leafs|m] eqn:E; simpl;
    [|discriminate].
  intros H. inversion H. exists plan, warns, leafs. auto.
Qed.

Lemma depsToInstallInRoot_spec (rs : list RootInstall.t) :
  ((exists r, In r rs /\ RootInstall.isSatisfied r = false) ->
   depsToInstallInRoot rs = map rootSpec rs)
  /\ ((forall r, In r rs -> RootInstall.isSatisfied r = true) ->
      depsToInstallInRoot rs = []).
Proof.
  unfold depsToInstallInRoot. split.
  - intros [r [Hin Hr]].
    assert (E : existsb (fun r => negb (RootInstall.isSatisfied r)) rs = true).
    { apply existsb_exists. exists r. rewrite Hr. auto. }
    now rewrite E.
  - intros Hall.
    destruct (existsb (fun r => negb (RootInstall.isSatisfied r)) rs) eqn:E;
      auto.
    apply existsb_exists in E. destruct E as [r [Hin Hr]].
    rewrite (Hall r Hin) in Hr. discriminate.
Qed.

(** C4 (Satisfaction short-circuit): when the plan has root installs, the
    first action is the root install; run, whatever its collaborators
    answer, it calls the installer once, in the root path, with the specs
    of all the root installs when one of them is not satisfied and with
    the empty list when all of them are; and it is the only root install
    action. *)
Theorem root_install_action
  (requirePackageJson : list string -> option PackageJson)
  (installOutcome : InstallCall -> option Err)
  (linkOutcome : BinaryLink -> option Err)
  (rimrafOutcome : string * string -> option Err)
  (plan : Plan) (warns : list Warning) (actions : list Action) :
  getDependenciesToInstall this = Ok (plan, warns) ->
  installExternalDependencies this = Ok actions ->
  root plan <> [] ->
  exists specs rest,
    actions = RootInstallAction specs (root plan) :: rest
    /\ run_installs
         (runAction this requirePackageJson installOutcome linkOutcome
            rimrafOutcome (RootInstallAction specs (root plan)))
       = [mkCall (rootPath (repository this)) specs None]
    /\ ((exists r, In r (root plan) /\ RootInstall.isSatisfied r = false) ->
        specs = map rootSpec (root plan))
    /\ ((forall r, In r (root plan) -> RootInstall.isSatisfied r = true) ->
        specs = [])
    /\ (forall specs' rs, ~ In (RootInstallAction specs' rs) rest).
Proof.
  intros Hplan Hrun Hne.
  destruct (installExternalDependencies_inv Hrun)
    as [plan' [warns' [leafs [Hplan' [Hleafs ->]]]]].
  rewrite Hplan in Hplan'. inversion Hplan'; subst plan' warns'.
  unfold rootActions. destruct (root plan) as [|r rs] eqn:Er; [congruence|].
  rewrite <- Er. simpl.
  exists (depsToInstallInRoot (root plan)),
         (PruneAction (pruneCandidates this (root plan)) :: leafs).
  destruct (depsToInstallInRoot_spec (root plan)) as [Hsome Hall].
  repeat split; auto.
  { destruct (installOutcome _); reflexivity. }
  intros specs' rs' [Hin | Hin]; [discriminate|].
  unfold leafActions in Hleafs.
  destruct (mapM (leafRequester this) (JsObject.entries (leaves plan)))
    as [requesters|m]; simpl in Hleafs; [|discriminate].
  inversion Hleafs; subst leafs. apply in_flat_map in Hin.
  destruct Hin as [pd [_ Hin]]. unfold leafAction in Hin.
  destruct (existsb _ (snd pd)); simpl in Hin; [|tauto].
  destruct Hin as [Hin | []]. discriminate.
Qed.

Lemma leafActions_spec (ls : JsObject.t (list LeafInstall.t))
  (leafs : list Action) :
  leafActions this ls = Ok leafs ->
  (forall k deps,
     JsObject.get ls k = Some deps ->
     exists pkg,
       packageGraph_get this k = Some pkg
       /\ ((exists l, In l deps /\ LeafInstall.isSatisfied l = false) ->
           In (LeafInstallAction pkg deps) leafs))
  /\ (forall a,
        In a leafs ->
        exists k pkg deps,
          a = LeafInstallAction pkg deps
          /\ JsObject.get ls k = Some deps
          /\ packageGraph_get this k = Some pkg
          /\ exists l, In l deps /\ LeafInstall.isSatisfied l = false).
Proof.
  unfold leafActions.
  destruct (mapM (leafRequester this) (JsObject.entries ls))
    as [requesters|m] eqn:E; simpl; [|discriminate].
  intros H. inversion H; subst leafs. clear H.
  apply mapM_Ok_Forall2 in E.
  assert (Hreq : forall kv pd, leafRequester this kv = Ok pd ->
            packageGraph_get this (fst kv) = Some (fst pd)
            /\ snd pd = snd kv).
  { intros kv pd. unfold leafRequester, graphPackage.
    destruct (packageGraph_get this (fst kv)); simpl; [|discriminate].
    intros Hpd. inversion Hpd. auto. }
  split.
  - intros k deps Hget. apply entries_In in Hget.
    destruct (Forall2_In_l _ E Hget) as [[pkg deps'] [Hin Hpd]].
    apply Hreq in Hpd. simpl in Hpd. destruct Hpd as [Hg ->].
    exists pkg. split; auto. intros [l [Hl Hs]].
    apply in_flat_map. exists (pkg, deps). split; auto.
    unfold leafAction. simpl.
    assert (Hex : existsb (fun l => negb (LeafInstall.isSatisfied l)) deps
                  = true).
    { apply existsb_exists. exists l. rewrite Hs. auto. }
    rewrite Hex. now left.
  - intros a Hin. apply in_flat_map in Hin.
    destruct Hin as [[pkg deps] [Hpd Ha]]. unfold leafAction in Ha.
    simpl in Ha.
    destruct (existsb (fun l => negb (LeafInstall.isSatisfied l)) deps)
      eqn:Hex; simpl in Ha; [|tauto].
    destruct Ha as [<- | []].
    destruct (Forall2_In_r _ E Hpd) as [[k deps'] [Hkv Hr]].
    apply Hreq in Hr. simpl in Hr. destruct Hr as [Hg ->].
    apply entries_In in Hkv. apply existsb_exists in Hex.
    destruct Hex as [l [Hl Hs]]. exists k, pkg, deps'.
    repeat split; auto. exists l. split; auto.
    now destruct (LeafInstall.isSatisfied l).
Qed.

(** C7: for a requester with leaf installs, a leaf install action exists
    if and only if one of its leaf installs is not satisfied; run, the
    action calls the installer once, in the location of the requester's
    package, with the specs of all its leaf installs, and the global-style
    argument it passes is set exactly when hoisting is enabled.  Every
    leaf install action is the action of such a requester. *)
Theorem leaf_install_actions
  (requirePackageJson : list string -> option PackageJson)
  (installOutcome : InstallCall -> option Err)
  (linkOutcome : BinaryLink -> option Err)
  (rimrafOutcome : string * string -> option Err)
  (plan : Plan) (warns : list Warning) (actions : list Action) :
  getDependenciesToInstall this = Ok (plan, warns) ->
  installExternalDependencies this = Ok actions ->
  (forall k deps,
     JsObject.get (leaves plan) k = Some deps ->
     exists pkg call,
       packageGraph_get this k = Some pkg
       /\ (In (LeafInstallAction pkg deps) actions
           <-> exists l, In l deps /\ LeafInstall.isSatisfied l = false)
       /\ run_installs
            (runAction this requirePackageJson installOutcome linkOutcome
               rimrafOutcome (LeafInstallAction pkg deps))
          = [call]
       /\ call_directory call = Package.location pkg
       /\ call_dependencies call = map leafSpec deps
       /\ globalStyle call = hoistEnabled this)
  /\ (forall pkg deps,
        In (LeafInstallAction pkg deps) actions ->
        exists k,
          JsObject.get (leaves plan) k = Some deps
          /\ packageGraph_get this k = Some pkg
          /\ exists l, In l deps /\ LeafInstall.isSatisfied l = false).
Proof.
  intros Hplan Hrun.
  destruct (installExternalDependencies_inv Hrun)
    as [plan' [warns' [leafs [Hplan' [Hleafs ->]]]]].
  rewrite Hplan in Hplan'. inversion Hplan'; subst plan' warns'.
  destruct (leafActions_spec _ Hleafs) as [Hfor Hback].
  assert (Hleaf : forall pkg deps,
            In (LeafInstallAction pkg deps)
               (rootActions this (root plan) ++ leafs) ->
            In (LeafInstallAction pkg deps) leafs).
  { intros pkg deps Hin. apply in_app_or in Hin. destruct Hin as [Hin|]; auto.
    unfold rootActions in Hin. destruct (root plan); simpl in Hin; [tauto|].
    destruct Hin as [H | [H | []]]; discriminate. }
  split.
  - intros k deps Hget. destruct (Hfor k deps Hget) as [pkg [Hg Hin]].
    exists pkg,
      (mkCall (Package.location pkg) (map leafSpec deps)
         (Some (hoist (options this)))).
    split; [exact Hg|]. split; [split|].
    + intros Ha. apply Hleaf, Hback in Ha.
      destruct Ha as [k' [pkg' [deps' [Heq [_ [_ Hex]]]]]].
      now inversion Heq; subst.
    + intros Hex. apply in_or_app. right. auto.
    + repeat split.
  - intros pkg deps Hin. apply Hleaf, Hback in Hin.
    destruct Hin as [k [pkg' [deps' [Heq [Hget [Hg Hex]]]]]].
    inversion Heq; subst. eauto.
Qed.

End InstallPhase.

(* ------------------------------------------------------------------ *)
(** ** Lifecycle scripts *)

Lemma split_at_event (A : Type) (l1 l2 t1 t2 : list A) (e : A) :
  l1 ++ l2 = t1 ++ e :: t2 ->
  (exists y, l1 = t1 ++ e :: y /\ t2 = y ++ l2)
  \/ (exists y, t1 = l1 ++ y /\ l2 = y ++ e :: t2).
Proof.
  revert t1. induction l1 as [|a l1 IH]; simpl; intros t1 H.
  - right. exists t1. auto.
  - destruct t1 as [|a' t1]; simpl in H; inversion H; subst.
    + left. exists l1. auto.
    + destruct (IH t1 H2) as [[y [-> ->]] | [y [-> ->]]].
      * left. exists y. auto.
      * right. exists y. auto.
Qed.

Section Batches.
Variable limit : nat.
Variable task : Package.t -> option ScriptError.

(** Within a batch: a script starts only if it was waiting and no script
    has failed; a batch that ends without error has run every script,
    each without error; and the error of a batch is the first error so
    far or that of a script of the batch. *)
Lemma parallelLimit_facts (waiting running : list Package.t)
  (failed : option ScriptError) (tr : list ScriptEvent)
  (result : option ScriptError) :
  parallelLimit limit task waiting running failed tr result ->
  (forall t1 p t2,
     tr = t1 ++ ScriptStart p :: t2 ->
     In p waiting /\ failed = None
     /\ forall q, In (ScriptFinish q) t1 -> task q = None)
  /\ (result = None ->
      failed = None
      /\ (forall p, In p waiting \/ In p running -> In (ScriptFinish p) tr)
      /\ (forall q, In (ScriptFinish q) tr -> task q = None))
  /\ (forall e, result = Some e ->
                failed = Some e
                \/ exists q, In (ScriptFinish q) tr /\ task q = Some e).
Proof.
  induction 1 as [waiting failed Hend
                 |w1 p w2 running tr result Hlt Hrun [IHs [IHn IHe]]
                 |waiting r1 p r2 failed tr result Hrun [IHs [IHn IHe]]].
  - split; [|split].
    + intros t1 p t2 Heq. destruct t1; discriminate.
    + intros Hf. split; [exact Hf|]. split.
      * intros p [Hp | []].
        destruct Hend as [-> | Hne]; [destruct Hp | congruence].
      * intros q [].
    + intros e He. now left.
  - split; [|split].
    + intros t1 q t2 Heq. destruct t1 as [|ev t1]; simpl in Heq;
        inversion Heq; subst.
      * repeat split; [apply in_or_app; right; now left | intros q' []].
      * destruct (IHs t1 q t2 eq_refl) as [Hq [_ Hfin]].
        repeat split.
        -- apply in_app_or in Hq. apply in_or_app.
           destruct Hq; [left | right; right]; assumption.
        -- intros q' [Hq' | Hq']; [discriminate | auto].
    + intros Hres. destruct (IHn Hres) as [_ [Hall Hfin]].
      repeat split.
      * intros q Hq. right. apply Hall. destruct Hq as [Hq | Hq].
        -- apply in_app_or in Hq. destruct Hq as [Hq | [<- | Hq]].
           ++ left. apply in_or_app. now left.
           ++ right. now left.
           ++ left. apply in_or_app. now right.
        -- right. now right.
      * intros q [Hq | Hq]; [discriminate | auto].
    + intros e Hres. destruct (IHe e Hres) as [Hf | [q [Hq Ht]]];
        [discriminate|].
      right. exists q. split; [now right | exact Ht].
  - split; [|split].
    + intros t1 q t2 Heq. destruct t1 as [|ev t1]; simpl in Heq;
        inversion Heq; subst.
      destruct (IHs t1 q t2 eq_refl) as [Hq [Hf Hfin]].
      destruct failed as [e|]; [discriminate|].
      repeat split; auto.
      intros q' [Hq' | Hq']; [inversion Hq'; now subst | auto].
    + intros Hres. destruct (IHn Hres) as [Hf [Hall Hfin]].
      destruct failed as [e|]; [discriminate|].
      repeat split.
      * intros q [Hq | Hq].
        -- right. apply Hall. now left.
        -- apply in_app_or in Hq. destruct Hq as [Hq | [<- | Hq]].
           ++ right. apply Hall. right. apply in_or_app. now left.
           ++ now left.
           ++ right. apply Hall. right. apply in_or_app. now right.
      * intros q [Hq | Hq]; [inversion Hq; now subst | auto].
    + intros e Hres. destruct (IHe e Hres) as [Hf | [q [Hq Ht]]].
      * destruct failed as [e'|]; [now left|].
        right. exists p. split; [now left | exact Hf].
      * right. exists q. split; [now right | exact Ht].
Qed.

(** A script starts only after every script of the batches before its
    own has finished, and only if no script so far has failed. *)
Lemma runParallelBatches_barrier (batches : list (list Package.t))
  (tr : list ScriptEvent) (result : option ScriptError) :
  runParallelBatches limit task batches tr result ->
  forall t1 p t2,
    tr = t1 ++ ScriptStart p :: t2 ->
    (exists pre b post,
       batches = pre ++ b :: post
       /\ In p b
       /\ forall q, In q (List.concat pre) -> In (ScriptFinish q) t1)
    /\ forall q, In (ScriptFinish q) t1 -> task q = None.
Proof.
  induction 1 as [|batch rest tb tr result Hb Hrest IH|batch rest tb e Hb];
    intros t1 p t2 Heq.
  - destruct t1; discriminate.
  - destruct (parallelLimit_facts Hb) as [Hstart [Hnone _]].
    destruct (Hnone eq_refl) as [_ [Hall Hfin]].
    apply split_at_event in Heq.
    destruct Heq as [[y [Htb _]] | [y [-> Htr]]].
    + destruct (Hstart t1 p y Htb) as [Hp [_ Hok]].
      split; [|exact Hok].
      exists [], batch, rest. repeat split; auto. intros q [].
    + destruct (IH y p t2 Htr) as [[pre [b [post [-> [Hp Hpre]]]]] Hok].
      split.
      * exists (batch :: pre), b, post. repeat split; auto.
        intros q Hq. simpl in Hq. apply in_app_or in Hq. apply in_or_app.
        destruct Hq as [Hq | Hq]; auto.
      * intros q Hq. apply in_app_or in Hq. destruct Hq; auto.
  - destruct (parallelLimit_facts Hb) as [Hstart _].
    destruct (Hstart t1 p t2 Heq) as [Hp [_ Hok]].
    split; [|exact Hok].
    exists [], batch, rest. repeat split; auto. intros q [].
Qed.

(** A run that ends without error has run every script of every batch,
    each without error; the error of a run is that of a script that
    finished. *)
Lemma runParallelBatches_result (batches : list (list Package.t))
  (tr : list ScriptEvent) (result : option ScriptError) :
  runParallelBatches limit task batches tr result ->
  (result = None ->
   forall p, In p (List.concat batches) ->
             In (ScriptFinish p) tr /\ task p = None)
  /\ (forall e, result = Some e ->
                exists q, In (ScriptFinish q) tr /\ task q = Some e).
Proof.
  induction 1 as [|batch rest tb tr result Hb Hrest [IHn IHe]
                 |batch rest tb e Hb].
  - split; [intros _ p [] | discriminate].
  - destruct (parallelLimit_facts Hb) as [_ [Hnone _]].
    destruct (Hnone eq_refl) as [_ [Hall Hfin]].
    split.
    + intros Hres p Hp. simpl in Hp. apply in_app_or in Hp.
      destruct Hp as [Hp | Hp].
      * assert (Hf : In (ScriptFinish p) tb) by (apply Hall; now left).
        split; [apply in_or_app; now left | now apply Hfin].
      * destruct (IHn Hres p Hp) as [Hf Ht].
        split; [apply in_or_app; now right | exact Ht].
    + intros e Hres. destruct (IHe e Hres) as [q [Hq Ht]].
      exists q. split; [apply in_or_app; now right | exact Ht].
  - destruct (parallelLimit_facts Hb) as [_ [_ Herr]].
    split; [discriminate|].
    intros e' Hres. inversion Hres; subst e'.
    destruct (Herr e eq_refl) as [Hf | Hq]; [discriminate | exact Hq].
Qed.

(** With at least one script at a time, every batch can be run, whatever
    the scripts answer. *)
Lemma parallelLimit_runs (batch : list Package.t) :
  0 < limit -> exists tr result, parallelLimit limit task batch [] None tr result.
Proof.
  intros Hlimit. induction batch as [|p r [tr [result IH]]].
  - exists [], None. constructor. now left.
  - destruct (task p) as [e|] eqn:E.
    + exists [ScriptStart p; ScriptFinish p], (Some e).
      apply (@pl_start limit task [] p r [] _ _ Hlimit).
      apply (@pl_finish limit task r [] p [] None). simpl. rewrite E.
      constructor. right. discriminate.
    + exists (ScriptStart p :: ScriptFinish p :: tr), result.
      apply (@pl_start limit task [] p r [] _ _ Hlimit).
      apply (@pl_finish limit task r [] p [] None). simpl. rewrite E.
      exact IH.
Qed.

Lemma runParallelBatches_runs (batches : list (list Package.t)) :
  0 < limit -> exists tr result, runParallelBatches limit task batches tr result.
Proof.
  intros Hlimit. induction batches as [|b bs [tr [result IH]]].
  - exists [], None. constructor.
  - destruct (parallelLimit_runs b Hlimit) as [tb [[e|] Hb]].
    + exists tb, (Some e). now apply rpb_failed.
    + exists (tb ++ tr), result. now apply rpb_next.
Qed.

End Batches.

Lemma batchesFrom_step (fuel : nat) (r0 : Package.t) (rs : list Package.t) :
  batchesFrom (S fuel) (r0 :: rs)
  = match filter (fun p => negb (dependsOnAny p (r0 :: rs))) (r0 :: rs) with
    | [] => None
    | _ :: _ =>
        match batchesFrom fuel
                (filter (fun p => dependsOnAny p (r0 :: rs)) (r0 :: rs)) with
        | Some rest =>
            Some (filter (fun p => negb (dependsOnAny p (r0 :: rs))) (r0 :: rs)
                    :: rest)
        | None => None
        end
    end.
Proof. reflexivity. Qed.

(** A package of a batch depends on packages of earlier batches only. *)
Lemma batchesFrom_layers (fuel : nat) :
  forall remaining batches,
    batchesFrom fuel remaining = Some batches ->
    forall pre b post x y,
      batches = pre ++ b :: post ->
      In x b -> In y remaining -> dependsOn x y = true ->
      In y (List.concat pre).
Proof.
  induction fuel as [|fuel IH]; intros remaining batches Hb pre b post x y
    Heq Hx Hy Hdep.
  - destruct remaining; simpl in Hb; [|discriminate].
    inversion Hb; subst. destruct pre; simpl in *; discriminate.
  - destruct remaining as [|r0 rs].
    { simpl in Hb. inversion Hb; subst. destruct pre; simpl in *; discriminate. }
    rewrite batchesFrom_step in Hb.
    set (remaining := r0 :: rs) in *.
    set (ready := filter (fun p => negb (dependsOnAny p remaining)) remaining)
      in *.
    destruct ready as [|f0 fs] eqn:Eready; [discriminate|].
    destruct (batchesFrom fuel
                (filter (fun p => dependsOnAny p remaining) remaining))
      as [rest|] eqn:Erest; [|discriminate].
    inversion Hb as [Hbat]. clear Hb. rewrite <- Hbat in Heq. clear Hbat.
    destruct pre as [|b0 pre]; simpl in Heq; inversion Heq; subst.
    + rewrite <- Eready in Hx. unfold ready in Hx. apply filter_In in Hx.
      destruct Hx as [_ Hx].
      assert (Hany : dependsOnAny x remaining = true).
      { apply existsb_exists. exists y. auto. }
      rewrite Hany in Hx. discriminate.
    + change (In y ((f0 :: fs) ++ List.concat pre)). apply in_or_app.
      destruct (dependsOnAny y remaining) eqn:Ey.
      * right. apply (IH _ _ Erest pre b post x y); auto.
        apply filter_In. auto.
      * left. rewrite <- Eready. unfold ready. apply filter_In.
        rewrite Ey. auto.
Qed.

Section BatchOrdering.
Variable this : BootstrapCommand.
Variable scriptOutcome : Package.t -> option Err.

Lemma scriptTask_None (p : Package.t) :
  scriptTask scriptOutcome p = None <-> scriptOutcome p = None.
Proof.
  unfold scriptTask. destruct (scriptOutcome p); split; congruence.
Qed.

Lemma scriptTask_Some (p q : Package.t) (e : Err) :
  scriptTask scriptOutcome p = Some (e, q) ->
  q = p /\ scriptOutcome p = Some e.
Proof.
  unfold scriptTask. destruct (scriptOutcome p); intros H; inversion H.
  auto.
Qed.

(** C9, as amended (Batch ordering): in every run of a lifecycle phase,
    whether scripts fail or not,
    - when the command sorts topologically ([toposort]) and filtered
      packages A and B are such that A depends on B, the script of B has
      finished, without error, before the script of A starts;
    - without [toposort] the filtered packages form a single batch;
    - a script starts only after every script of the batches before its
      own has finished, and only if no script so far has failed;
    - a run that ends without error has run the script of every package
      of every batch, and the error a run ends with is that of a script
      that finished, with that package attached;
    - and a run takes place only if the packages could be batched. *)
Theorem batch_ordering (tr : list ScriptEvent)
  (result : option ScriptError) :
  runScriptInPackages this scriptOutcome tr result ->
  (toposort this = true ->
   forall a b,
     In a (filteredPackages this) -> In b (filteredPackages this) ->
     dependsOn a b = true ->
     precedes (ScriptFinish b) (ScriptStart a) tr
     /\ (In (ScriptStart a) tr -> scriptOutcome b = None))
  /\ (toposort this = false ->
      batchedPackages this = Some [filteredPackages this])
  /\ (forall batches t1 p t2,
        batchedPackages this = Some batches ->
        tr = t1 ++ ScriptStart p :: t2 ->
        (exists pre batch post,
           batches = pre ++ batch :: post
           /\ In p batch
           /\ forall q, In q (List.concat pre) -> In (ScriptFinish q) t1)
        /\ forall q, In (ScriptFinish q) t1 -> scriptOutcome q = None)
  /\ (forall batches,
        batchedPackages this = Some batches ->
        result = None ->
        forall p, In p (List.concat batches) ->
                  In (ScriptFinish p) tr /\ scriptOutcome p = None)
  /\ (forall e q,
        result = Some (e, q) ->
        In (ScriptFinish q) tr /\ scriptOutcome q = Some e)
  /\ batchedPackages this <> None.
Proof.
  intros Hrun.
  assert (Hunsorted : toposort this = false ->
            batchedPackages this = Some [filteredPackages this]).
  { intros Hs. unfold batchedPackages. now rewrite Hs. }
  inversion Hrun as [Hnone Htr Hres
                    | batches tr' result' Hsome Hb Hruns Htr Hres]; subst.
  - split; [|split; [exact Hunsorted|split; [|split; [|split]]]].
    + intros _ a b Ha. rewrite Hnone in Ha. destruct Ha.
    + intros batches t1 p t2 _ Heq. destruct t1; discriminate.
    + intros batches Hb _ p Hp. unfold batchedPackages in Hb.
      rewrite Hnone in Hb.
      destruct (toposort this); simpl in Hb; inversion Hb; subst;
        simpl in Hp; tauto.
    + intros e q Hres. discriminate.
    + unfold batchedPackages. rewrite Hnone.
      destruct (toposort this); discriminate.
  - assert (Hbarrier : forall t1 p t2,
              tr = t1 ++ ScriptStart p :: t2 ->
              (exists pre batch post,
                 batches = pre ++ batch :: post
                 /\ In p batch
                 /\ forall q, In q (List.concat pre) ->
                              In (ScriptFinish q) t1)
              /\ forall q, In (ScriptFinish q) t1 -> scriptOutcome q = None).
    { intros t1 p t2 Heq.
      destruct (runParallelBatches_barrier Hruns _ _ _ Heq) as [Hex Hok].
      split; auto. intros q Hq. apply scriptTask_None. auto. }
    destruct (runParallelBatches_result Hruns) as [Hnone Herr].
    split; [|split; [exact Hunsorted|split; [|split; [|split]]]].
    + intros Hsort a b Ha Hbin Hdep.
      assert (Hprec : forall t1 t2, tr = t1 ++ ScriptStart a :: t2 ->
                In (ScriptFinish b) t1 /\ scriptOutcome b = None).
      { intros t1 t2 Heq.
        destruct (Hbarrier t1 a t2 Heq)
          as [[pre [batch [post [Hbs [Hin Hpre]]]]] Hok].
        assert (Hfin : In (ScriptFinish b) t1).
        { apply Hpre. unfold batchedPackages in Hb. rewrite Hsort in Hb.
          apply (batchesFrom_layers _ _ Hb pre batch post a b); auto. }
        auto. }
      split.
      * intros t1 t2 Heq. now apply (Hprec t1 t2).
      * intros Hin. apply in_split in Hin. destruct Hin as [t1 [t2 Heq]].
        now apply (Hprec t1 t2).
    + intros batches' t1 p t2 Hb' Heq.
      rewrite Hb in Hb'. inversion Hb'; subst batches'.
      exact (Hbarrier t1 p t2 Heq).
    + intros batches' Hb' Hres p Hp.
      rewrite Hb in Hb'. inversion Hb'; subst batches'.
      destruct (Hnone Hres p Hp) as [Hf Ht].
      split; [exact Hf | now apply scriptTask_None].
    + intros e q Hres. destruct (Herr _ Hres) as [q' [Hf Ht]].
      apply scriptTask_Some in Ht. destruct Ht as [-> Ho]. auto.
    + rewrite Hb. discriminate.
Qed.

(** With a concurrency of at least one, a phase over packages that could
    be batched runs, whatever the scripts answer. *)
Lemma runScriptInPackages_runs (batches : list (list Package.t)) :
  0 < concurrency this ->
  batchedPackages this = Some batches ->
  exists tr result, runScriptInPackages this scriptOutcome tr result.
Proof.
  intros Hc Hb. destruct (filteredPackages this) as [|p ps] eqn:E.
  - exists [], None. now constructor.
  - destruct (runParallelBatches_runs (scriptTask scriptOutcome) batches Hc)
      as [tr [result Htr]].
    exists tr, result. apply rsp_batches with (batches := batches); auto.
    rewrite E. discriminate.
Qed.

End BatchOrdering.

(* ------------------------------------------------------------------ *)
(** ** The planner and the install phase return *)

Section Totality.
Context {C : Collaborators}.
Variable this : BootstrapCommand.

(** Every filtered package is in the graph and among the packages. *)
Hypothesis graph_knows :
  forall pkg, In pkg (filteredPackages this) ->
              exists p, packageGraph_get this (Package.name pkg) = Some p.
Hypothesis packages_know :
  forall pkg, In pkg (filteredPackages this) ->
              exists p, findPackage this (Package.name pkg) None = Some p.

(** No filtered package is named like a member of [Object.prototype], and
    none records a name or a version that is. *)
Hypothesis own_names :
  forall pkg, In pkg (filteredPackages this) ->
              JsObject.prototype_member (Package.name pkg) = false.
Hypothesis own_dependencies :
  forall pkg d,
    In pkg (filteredPackages this) ->
    In d (externalDependencies this pkg) ->
    JsObject.prototype_member (Dep.name d) = false
    /\ JsObject.prototype_member (Dep.version d) = false.

Lemma inherits_own (V : Type) (o : JsObject.t V) (k : string) :
  JsObject.prototype_member k = false -> JsObject.inherits o k = false.
Proof.
  intros Hk. unfold JsObject.inherits. now destruct (JsObject.get o k).
Qed.

Lemma recordedDependencies_returns :
  recordedDependencies this = Ok (depsToInstall this).
Proof.
  unfold recordedDependencies, depsToInstall.
  apply forEachM_fold_total. intros deps pkg Hpkg.
  unfold tryRecordPackage, recordPackage.
  apply forEachM_fold_total. intros s d Hd.
  destruct (own_dependencies pkg d Hpkg Hd) as [Hn Hv].
  unfold tryRecordDependency.
  rewrite (@inherits_own _ s (Dep.name d) Hn).
  now rewrite (@inherits_own _ _ (Dep.version d) Hv).
Qed.

Lemma requester_known (k n v : string) (e : DepEntry.t) :
  JsObject.get (depsToInstall this) n = Some e ->
  In k (dependentsOf (DepEntry.dependents e) v) ->
  (exists p, packageGraph_get this k = Some p)
  /\ (exists p, findPackage this k None = Some p)
  /\ JsObject.prototype_member k = false.
Proof.
  intros He Hk. rewrite (entry_dependents this n v He) in Hk.
  apply requestersOf_In in Hk.
  destruct Hk as [pkg [d [Hpkg [_ [_ [_ <-]]]]]]. auto.
Qed.

Lemma installInLeaf_returns n v rv st p :
  (exists pk, packageGraph_get this p = Some pk) ->
  (exists pk, findPackage this p None = Some pk) ->
  JsObject.prototype_member p = false ->
  knownLeaves this st ->
  exists st', installInLeaf this n v rv st p = Ok st' /\ knownLeaves this st'.
Proof.
  intros Hg [pk Hf] Hown Hknown. unfold installInLeaf.
  rewrite Hf, (@inherits_own _ (st_leaves st) p Hown).
  eexists. split; [reflexivity|]. intros k Hk. simpl in Hk.
  apply keys_set_In in Hk. destruct Hk as [-> | Hk]; auto.
Qed.

Lemma installVersion_returns n e rv st v :
  JsObject.get (depsToInstall this) n = Some e ->
  In v (JsObject.keys (DepEntry.versions e)) ->
  knownLeaves this st ->
  exists st', installVersion this n e rv st v = Ok st' /\ knownLeaves this st'.
Proof.
  intros He Hv Hknown. unfold installVersion.
  destruct (isRootVersion v rv); [eauto|].
  destruct (depsToInstall_wf this n He) as [Hwf _]. specialize (Hwf v).
  apply keys_In in Hv. destruct Hv as [c Hc]. rewrite Hc in Hwf.
  destruct Hwf as [pkgs [Hpkgs _]]. rewrite Hpkgs.
  apply forEachM_total; auto.
  intros s p Hp Hs.
  destruct (@requester_known p n v e He) as [Hg [Hf Hown]].
  { unfold dependentsOf. now rewrite Hpkgs. }
  now apply installInLeaf_returns.
Qed.

Lemma placeDependency_returns st n :
  In n (JsObject.keys (depsToInstall this)) ->
  knownLeaves this st ->
  exists st', placeDependency this (depsToInstall this) st n = Ok st'
              /\ knownLeaves this st'.
Proof.
  intros Hn Hknown. apply keys_In in Hn. destruct Hn as [e He].
  unfold placeDependency. rewrite He.
  assert (Hloop : forall rv s, knownLeaves this s ->
            exists st', forEachM (installVersion this n e rv)
                          (JsObject.keys (DepEntry.versions e)) s = Ok st'
                        /\ knownLeaves this st').
  { intros rv s Hs. apply forEachM_total; auto.
    intros s' v Hv Hs'. now apply installVersion_returns. }
  destruct (isHoisted this n); simpl; [|now apply Hloop].
  unfold hoistToRoot.
  destruct (depsToInstall_wf this n He) as [_ Hne].
  destruct (@commonVersionOf_total _ Hne) as [cv Hcv]. rewrite Hcv. simpl.
  destruct (@mapM_total _ _ (graphPackage this)
              (dependentsOf (DepEntry.dependents e) (rootVersionOf this n cv)))
    as [pkgs Hpkgs].
  { intros k Hk. destruct (@requester_known k n _ e He Hk) as [[p Hp] _].
    exists p. now apply graphPackage_Ok. }
  rewrite Hpkgs. simpl. apply Hloop. exact Hknown.
Qed.

Lemma planFrom_returns :
  exists st, planFrom this (depsToInstall this) = Ok st /\ knownLeaves this st.
Proof.
  unfold planFrom. apply forEachM_total.
  - intros s n Hn Hs. now apply placeDependency_returns.
  - intros k [].
Qed.

(** When every filtered package is in the graph and among the packages,
    and no name or version recorded is a member of [Object.prototype],
    the planner returns a plan and the install phase its actions. *)
Lemma getDependenciesToInstall_returns :
  exists plan warns, getDependenciesToInstall this = Ok (plan, warns).
Proof.
  destruct planFrom_returns as [st [Hst _]].
  unfold getDependenciesToInstall.
  rewrite recordedDependencies_returns. simpl. rewrite Hst. simpl. eauto.
Qed.

Lemma installExternalDependencies_returns :
  exists actions, installExternalDependencies this = Ok actions.
Proof.
  destruct planFrom_returns as [st [Hst Hknown]].
  unfold installExternalDependencies, getDependenciesToInstall.
  rewrite recordedDependencies_returns. simpl. rewrite Hst. simpl.
  unfold leafActions.
  destruct (@mapM_total _ _ (leafRequester this) (JsObject.entries (st_leaves st)))
    as [requesters Hr].
  { intros [k deps] Hin. unfold leafRequester. simpl.
    destruct (Hknown k) as [p Hp].
    - apply keys_In. apply entries_In in Hin. eauto.
    - unfold graphPackage. rewrite Hp. simpl. eauto. }
  rewrite Hr. simpl. eauto.
Qed.

End Totality.

(* ------------------------------------------------------------------ *)
(** ** The scenarios *)

(** Scenario 1: [left-pad] is hoisted, so [b]'s dependency on it is in the
    root installs. *)
Lemma plan_coverage_leftPad :
  exists plan warns,
    getDependenciesToInstall (C := Scenario.fresh) Scenario.leftPad
    = Ok (plan, warns)
    /\ ((exists r, In r (root plan) /\ RootInstall.name r = "left-pad")
        \/ (exists l, In l (leavesOf (leaves plan) "b")
                      /\ DepSpec.name (LeafInstall.dependency l) = "left-pad")).
Proof.
  eexists. eexists. split; [vm_compute; reflexivity|].
  apply (@plan_coverage Scenario.fresh Scenario.leftPad _
           [EHOIST_PKG_VERSION "a" "left-pad" "^1.0.0" "^1.1.0"]
           Scenario.padB "left-pad" "^1.1.0");
    [vm_compute; reflexivity | right; left; reflexivity
     | reflexivity | reflexivity].
Defined.

(** Scenario 1: both ranges of [left-pad] have one requester, and the
    common version, which the root install takes, is ["^1.1.0"], the later
    key, although ["^1.0.0"] is the smaller string. *)
Lemma common_version_leftPad :
  commonVersion (C := Scenario.fresh) Scenario.leftPad "left-pad"
  = Some "^1.1.0"
  /\ requestersOf (C := Scenario.fresh) Scenario.leftPad "left-pad" "^1.0.0"
     = ["a"]
  /\ requestersOf (C := Scenario.fresh) Scenario.leftPad "left-pad" "^1.1.0"
     = ["b"]
  /\ String.ltb "^1.0.0" "^1.1.0" = true
  /\ exists plan warns,
       getDependenciesToInstall (C := Scenario.fresh) Scenario.leftPad
       = Ok (plan, warns)
       /\ map rootSpec (root plan) = ["left-pad@^1.1.0"].
Proof.
  repeat split; try (vm_compute; reflexivity).
  eexists. eexists. split; vm_compute; reflexivity.
Qed.

Lemma common_version_choice_leftPad :
  exists e cv before after,
    JsObject.get (depsToInstall (C := Scenario.fresh) Scenario.leftPad)
      "left-pad" = Some e
    /\ commonVersion (C := Scenario.fresh) Scenario.leftPad "left-pad"
       = Some cv
    /\ JsObject.keys (DepEntry.versions e) = before ++ cv :: after
    /\ (forall v, In v before ->
          List.length (requestersOf (C := Scenario.fresh) Scenario.leftPad
                         "left-pad" v)
          <= List.length (requestersOf (C := Scenario.fresh) Scenario.leftPad
                            "left-pad" cv))
    /\ (forall v, In v after ->
          List.length (requestersOf (C := Scenario.fresh) Scenario.leftPad
                         "left-pad" v)
          < List.length (requestersOf (C := Scenario.fresh) Scenario.leftPad
                           "left-pad" cv))
    /\ (isHoisted (C := Scenario.fresh) Scenario.leftPad "left-pad" = true ->
        forall plan warns,
          getDependenciesToInstall (C := Scenario.fresh) Scenario.leftPad
          = Ok (plan, warns) ->
          exists r, In r (root plan)
                    /\ RootInstall.name r = "left-pad"
                    /\ RootInstall.dependency r
                       = DepSpec.mk "left-pad"
                           (rootVersionOf Scenario.leftPad "left-pad" cv)).
Proof.
  apply (@common_version_choice Scenario.fresh Scenario.leftPad "left-pad").
  vm_compute. auto.
Defined.




(** Scenario 5: [b] is at 2.0.0, [a] asks for ["^1.0.0"], and the plan
    holds the leaf install [b@^1.0.0] for [a]. *)
Lemma version_mismatch_scenario :
  exists plan warns,
    getDependenciesToInstall (C := Scenario.fresh) Scenario.mismatch
    = Ok (plan, warns)
    /\ In "a" (dependentsAt
                 (depsToInstall (C := Scenario.fresh) Scenario.mismatch)
                 "b" "^1.0.0")
    /\ (isHoisted (C := Scenario.fresh) Scenario.mismatch "b" = false ->
        exists l, In l (leavesOf (leaves plan) "a")
                  /\ LeafInstall.dependency l = DepSpec.mk "b" "^1.0.0"
                  /\ leafSpec l = "b@^1.0.0").
Proof.
  eexists. eexists. split; [vm_compute; reflexivity|].
  apply (@version_mismatch_is_external Scenario.fresh Scenario.mismatch _ []
           Scenario.needsB "b" "^1.0.0");
    [vm_compute; reflexivity | left; reflexivity | reflexivity
     | reflexivity
     | exists Scenario.b200; split; [right; left; reflexivity | reflexivity]
     | ].
  intros b [<- | [<- | []]] Hn; [discriminate | reflexivity].
Defined.

(** [a] declares [b] with the empty range and [b] is a prerelease, which
    the empty range does not admit: without hoisting, [a] is recorded
    under [b]'s version and gets the leaf install of that version, not of
    the declared range. *)
Lemma version_mismatch_empty_range :
  In RangeScenario.anyB (filteredPackages RangeScenario.prerelease)
  /\ JsObject.get (Package.allDependencies RangeScenario.anyB) "b" = Some ""
  /\ In RangeScenario.beta (packages RangeScenario.prerelease)
  /\ semver_satisfies (Collaborators := RangeScenario.unlinked)
       (Package.version RangeScenario.beta) "" = false
  /\ isHoisted (C := RangeScenario.unlinked) RangeScenario.prerelease "b"
     = false
  /\ dependentsAt
       (depsToInstall (C := RangeScenario.unlinked) RangeScenario.prerelease)
       "b" "" = []
  /\ dependentsAt
       (depsToInstall (C := RangeScenario.unlinked) RangeScenario.prerelease)
       "b" "1.0.0-beta.1" = ["a"]
  /\ exists plan warns,
       getDependenciesToInstall (C := RangeScenario.unlinked)
         RangeScenario.prerelease = Ok (plan, warns)
       /\ map leafSpec (leavesOf (leaves plan) "a") = ["b@1.0.0-beta.1"].
Proof.
  repeat split; try (vm_compute; reflexivity).
  - now left.
  - right. now left.
  - eexists. eexists. split; vm_compute; reflexivity.
Qed.

(** The root manifest alone declares [lodash]: the plan has nothing for
    it. *)
Lemma root_only_scenario :
  exists plan warns,
    getDependenciesToInstall (C := Scenario.fresh) Scenario.rootOnly
    = Ok (plan, warns)
    /\ JsObject.get (depsToInstall (C := Scenario.fresh) Scenario.rootOnly)
         "lodash" = Some (seedEntry "^4.0.0")
    /\ (forall r, In r (root plan) -> RootInstall.name r <> "lodash")
    /\ (forall k l, In l (leavesOf (leaves plan) k) ->
                    DepSpec.name (LeafInstall.dependency l) <> "lodash").
Proof.
  eexists. eexists. split; [vm_compute; reflexivity|].
  apply (@root_only_dependency_discarded Scenario.fresh Scenario.rootOnly _ []
           "lodash" "^4.0.0");
    [vm_compute; reflexivity | reflexivity | | reflexivity].
  intros pkg [<- | []]. reflexivity.
Defined.

(** Scenario 3: the root asks for ["^0.14.0"], three packages for
    ["15.x"]: one root warning, and one package warning for each of the
    three. *)
Lemma warning_correspondence_react :
  exists plan warns,
    getDependenciesToInstall (C := Scenario.fresh) Scenario.react
    = Ok (plan, warns)
    /\ timesLogged (EHOIST_ROOT_VERSION "react" "^0.14.0" "15.x") warns = 1
    /\ timesLogged (EHOIST_PKG_VERSION "c1" "react" "15.x" "^0.14.0") warns
       = 1.
Proof.
  assert (Hplan : exists plan warns,
            getDependenciesToInstall (C := Scenario.fresh) Scenario.react
            = Ok (plan, warns))
    by (eexists; eexists; vm_compute; reflexivity).
  destruct Hplan as [plan [warns Hplan]]. exists plan, warns.
  split; [exact Hplan|].
  destruct (@warning_correspondence Scenario.fresh Scenario.react plan warns
              Hplan) as [_ [Hroot [_ [_ [Hpkg _]]]]].
  split.
  - apply Hroot; vm_compute; (reflexivity || discriminate).
  - apply Hpkg; try (vm_compute; (reflexivity || discriminate)).
    + vm_compute. repeat constructor; simpl; intuition discriminate.
    + vm_compute. auto.
Defined.

(** The empty range: the root manifest's range for [x] is present and is
    not the common version, yet no root warning is logged; and where the
    root version is the empty range, [c] asks for another range of a
    hoisted name and no package warning is logged. *)
Lemma warnings_missed_on_empty_range :
  (exists plan,
     getDependenciesToInstall (C := Scenario.fresh) Scenario.emptyRootRange
     = Ok (plan, [])
     /\ isHoisted (C := Scenario.fresh) Scenario.emptyRootRange "x" = true
     /\ JsObject.get (rootDependencies Scenario.emptyRootRange) "x" = Some ""
     /\ commonVersion (C := Scenario.fresh) Scenario.emptyRootRange "x"
        = Some "^1.0.0")
  /\ (exists plan,
        getDependenciesToInstall (C := Scenario.fresh)
          Scenario.emptyCommonRange = Ok (plan, [])
        /\ rootVersion (C := Scenario.fresh) Scenario.emptyCommonRange "x"
           = Some ""
        /\ requestersOf (C := Scenario.fresh) Scenario.emptyCommonRange
             "x" "^1.0.0" = ["c"]
        /\ map leafSpec (leavesOf (leaves plan) "c") = ["x@^1.0.0"]).
Proof.
  split; eexists; repeat split; vm_compute; reflexivity.
Qed.

(** Scenario 1, nothing installed: the root install action passes the one
    root spec. *)
Lemma root_install_action_leftPad :
  exists plan warns actions specs rest,
    getDependenciesToInstall (C := Scenario.fresh) Scenario.leftPad
    = Ok (plan, warns)
    /\ installExternalDependencies (C := Scenario.fresh) Scenario.leftPad
       = Ok actions
    /\ actions = RootInstallAction specs (root plan) :: rest
    /\ run_installs
         (runAction Scenario.leftPad RunScenario.padJson
            RunScenario.installFails RunScenario.succeeds
            RunScenario.succeeds (RootInstallAction specs (root plan)))
       = [mkCall "/repo" specs None]
    /\ specs = ["left-pad@^1.1.0"].
Proof.
  assert (Hplan : exists plan warns,
            getDependenciesToInstall (C := Scenario.fresh) Scenario.leftPad
            = Ok (plan, warns)
            /\ root plan <> []
            /\ (exists r, In r (root plan)
                          /\ RootInstall.isSatisfied r = false)
            /\ map rootSpec (root plan) = ["left-pad@^1.1.0"]).
  { eexists. eexists. split; [vm_compute; reflexivity|].
    split; [discriminate|]. split; [|reflexivity].
    eexists. split; [left; reflexivity | reflexivity]. }
  assert (Hrun : exists actions,
            installExternalDependencies (C := Scenario.fresh) Scenario.leftPad
            = Ok actions)
    by (eexists; vm_compute; reflexivity).
  destruct Hplan as [plan [warns [Hplan [Hne [Hsome Hspecs]]]]].
  destruct Hrun as [actions Hrun].
  destruct (@root_install_action Scenario.fresh Scenario.leftPad
              RunScenario.padJson RunScenario.installFails
              RunScenario.succeeds RunScenario.succeeds plan warns
              actions Hplan Hrun Hne)
    as [specs [rest [Hactions [Hcall [Hunsat _]]]]].
  exists plan, warns, actions, specs, rest. repeat split; auto.
  rewrite (Hunsat Hsome). exact Hspecs.
Defined.

(** Scenario 1, everything installed: the root install action passes no
    spec. *)
Example root_install_action_satisfied :
  exists rs prune,
    installExternalDependencies (C := Scenario.installed) Scenario.leftPad
    = Ok [RootInstallAction [] rs; prune]
    /\ map rootSpec rs = ["left-pad@^1.1.0"].
Proof.
  eexists. eexists. split; vm_compute; reflexivity.
Qed.

(** Scenario 1: [a] has an unsatisfied leaf install and gets its leaf
    install action, run in [a]'s location with the global-style flag. *)
Lemma leaf_install_actions_leftPad :
  exists plan warns actions deps call,
    getDependenciesToInstall (C := Scenario.fresh) Scenario.leftPad
    = Ok (plan, warns)
    /\ installExternalDependencies (C := Scenario.fresh) Scenario.leftPad
       = Ok actions
    /\ JsObject.get (leaves plan) "a" = Some deps
    /\ In (LeafInstallAction Scenario.padA deps) actions
    /\ run_installs
         (runAction Scenario.leftPad RunScenario.padJson
            RunScenario.installFails RunScenario.succeeds
            RunScenario.succeeds (LeafInstallAction Scenario.padA deps))
       = [call]
    /\ call_directory call = "/repo/packages/a"
    /\ call_dependencies call = ["left-pad@^1.0.0"]
    /\ globalStyle call = true.
Proof.
  assert (Hplan : exists plan warns deps,
            getDependenciesToInstall (C := Scenario.fresh) Scenario.leftPad
            = Ok (plan, warns)
            /\ JsObject.get (leaves plan) "a" = Some deps
            /\ (exists l, In l deps /\ LeafInstall.isSatisfied l = false)
            /\ map leafSpec deps = ["left-pad@^1.0.0"]).
  { eexists. eexists. eexists. split; [vm_compute; reflexivity|].
    split; [reflexivity|]. split; [|reflexivity].
    eexists. split; [left; reflexivity | reflexivity]. }
  assert (Hrun : exists actions,
            installExternalDependencies (C := Scenario.fresh) Scenario.leftPad
            = Ok actions)
    by (eexists; vm_compute; reflexivity).
  destruct Hplan as [plan [warns [deps [Hplan [Hdeps [Hunsat Hspecs]]]]]].
  destruct Hrun as [actions Hrun].
  destruct (@leaf_install_actions Scenario.fresh Scenario.leftPad
              RunScenario.padJson RunScenario.installFails
              RunScenario.succeeds RunScenario.succeeds plan warns
              actions Hplan Hrun) as [Hfor _].
  destruct (Hfor "a" deps Hdeps)
    as [pkg [call [Hg [Hiff [Hcall [Hdir [Hcd Hgs]]]]]]].
  assert (Hg' : packageGraph_get Scenario.leftPad "a" = Some Scenario.padA)
    by reflexivity.
  assert (pkg = Scenario.padA) by congruence. subst pkg.
  exists plan, warns, actions, deps, call. repeat split; auto.
  - now apply Hiff.
  - now rewrite Hcd.
Defined.


(** Sorted: [b] is batched before [a], and in this run its script has
    finished before that of [a] starts. *)
Lemma batch_ordering_chain :
  runScriptInPackages (Scenario.chain true) RunScenario.succeeds
    [ScriptStart Scenario.b123; ScriptFinish Scenario.b123;
     ScriptStart Scenario.needsB; ScriptFinish Scenario.needsB] None
  /\ precedes (ScriptFinish Scenario.b123) (ScriptStart Scenario.needsB)
       [ScriptStart Scenario.b123; ScriptFinish Scenario.b123;
        ScriptStart Scenario.needsB; ScriptFinish Scenario.needsB].
Proof.
  assert (Hrun : runScriptInPackages (Scenario.chain true)
            RunScenario.succeeds
            [ScriptStart Scenario.b123; ScriptFinish Scenario.b123;
             ScriptStart Scenario.needsB; ScriptFinish Scenario.needsB]
            None).
  { apply rsp_batches
      with (batches := [[Scenario.b123]; [Scenario.needsB]]).
    - discriminate.
    - reflexivity.
    - apply (@rpb_next _ _ [Scenario.b123] [[Scenario.needsB]]
               [ScriptStart Scenario.b123; ScriptFinish Scenario.b123]
               [ScriptStart Scenario.needsB; ScriptFinish Scenario.needsB]).
      + apply (@pl_start _ _ [] Scenario.b123 [] []); [simpl; lia|].
        apply (@pl_finish _ _ [] [] Scenario.b123 [] None).
        constructor. now left.
      + apply (@rpb_next _ _ [Scenario.needsB] []
                 [ScriptStart Scenario.needsB; ScriptFinish Scenario.needsB]
                 []).
        * apply (@pl_start _ _ [] Scenario.needsB [] []); [simpl; lia|].
          apply (@pl_finish _ _ [] [] Scenario.needsB [] None).
          constructor. now left.
        * constructor. }
  split; [exact Hrun|].
  apply (proj1 (@batch_ordering (Scenario.chain true) RunScenario.succeeds
                  _ _ Hrun));
    [reflexivity | left; reflexivity | right; left; reflexivity
     | reflexivity].
Defined.

(** Sorted, and the script of [b] fails: the run ends with its error and
    [b] attached, and the script of [a] is not started. *)
Example batch_ordering_failure :
  runScriptInPackages (Scenario.chain true) RunScenario.scriptOfBFails
    [ScriptStart Scenario.b123; ScriptFinish Scenario.b123]
    (Some ("ELIFECYCLE", Scenario.b123)).
Proof.
  apply rsp_batches with (batches := [[Scenario.b123]; [Scenario.needsB]]).
  - discriminate.
  - reflexivity.
  - apply rpb_failed.
    apply (@pl_start _ _ [] Scenario.b123 [] []); [simpl; lia|].
    apply (@pl_finish _ _ [] [] Scenario.b123 [] None).
    constructor. right. discriminate.
Qed.

(** Not sorted: the packages form one batch, and in this run both scripts
    start at once, that of [a] before that of [b], which [a] depends on,
    has finished. *)
Lemma batch_ordering_unsorted :
  runScriptInPackages (Scenario.chain false) RunScenario.succeeds
    [ScriptStart Scenario.needsB; ScriptStart Scenario.b123;
     ScriptFinish Scenario.b123; ScriptFinish Scenario.needsB] None
  /\ In Scenario.needsB (filteredPackages (Scenario.chain false))
  /\ In Scenario.b123 (filteredPackages (Scenario.chain false))
  /\ dependsOn Scenario.needsB Scenario.b123 = true
  /\ ~ precedes (ScriptFinish Scenario.b123) (ScriptStart Scenario.needsB)
         [ScriptStart Scenario.needsB; ScriptStart Scenario.b123;
          ScriptFinish Scenario.b123; ScriptFinish Scenario.needsB].
Proof.
  repeat split.
  - apply rsp_batches with (batches := [[Scenario.needsB; Scenario.b123]]).
    + discriminate.
    + reflexivity.
    + apply (@rpb_next _ _ [Scenario.needsB; Scenario.b123] []
               [ScriptStart Scenario.needsB; ScriptStart Scenario.b123;
                ScriptFinish Scenario.b123; ScriptFinish Scenario.needsB] []).
      * apply (@pl_start _ _ [] Scenario.needsB [Scenario.b123] []);
          [simpl; lia|].
        apply (@pl_start _ _ [] Scenario.b123 [] [Scenario.needsB]);
          [simpl; lia|].
        apply (@pl_finish _ _ [] [] Scenario.b123 [Scenario.needsB] None).
        apply (@pl_finish _ _ [] [] Scenario.needsB [] None).
        constructor. now left.
      * constructor.
  - now left.
  - right. now left.
  - intros H. exact (H [] _ eq_refl).
Qed.

(* ================================================================== *)
(** * Further properties of the planner *)

Lemma flat_map_filter (A : Type) (f : A -> bool) (l : list A) :
  flat_map (fun a => if f a then [a] else []) l = filter f l.
Proof.
  induction l as [|a r IH]; simpl; auto.
  destruct (f a); simpl; now rewrite IH.
Qed.

Lemma fold_left_collects (S A : Type) (f : S -> A -> S) (K : S -> Prop)
  (Q : A -> Prop) (l : list A) :
  (forall s a, K (f s a) <-> K s \/ Q a) ->
  forall s, K (fold_left f l s) <-> K s \/ exists a, In a l /\ Q a.
Proof.
  intros Hstep. induction l as [|a r IH]; simpl; intros s.
  - split; [auto | intros [H | [a [[] _]]]; auto].
  - rewrite IH, Hstep. split.
    + intros [[H | H] | [b [Hb Hq]]]; eauto.
    + intros [H | [b [[<- | Hb] Hq]]]; eauto.
Qed.

Section PlannerShape.
Context {C : Collaborators}.
Variable this : BootstrapCommand.

(** *** The names and versions of the aggregate *)

Lemma addVersion_keys (v0 v : string) (e : DepEntry.t) :
  In v (JsObject.keys (DepEntry.versions (addVersion v0 e)))
  <-> v = v0 \/ In v (JsObject.keys (DepEntry.versions e)).
Proof.
  unfold addVersion.
  destruct (JsObject.get (DepEntry.versions e) v0) as [[|c]|] eqn:E; simpl;
    try apply keys_set_In.
  split; auto. intros [-> | H]; auto. apply keys_In. eauto.
Qed.

Lemma recordDependency_counts (r : string) (deps : Aggregate) (d : Dep.t)
  (n v : string) :
  countsVersion (recordDependency r deps d) n v
  <-> countsVersion deps n v \/ (Dep.name d = n /\ Dep.version d = v).
Proof.
  unfold countsVersion, recordDependency. rewrite get_set.
  destruct (Dep.name d =? n) eqn:En.
  - apply String.eqb_eq in En. subst n. split.
    + intros [e [He Hv]]. inversion He; subst e. clear He.
      unfold addDependent in Hv. simpl in Hv.
      apply keys_set_In in Hv. destruct Hv as [-> | Hv]; auto.
      apply addVersion_keys in Hv. destruct Hv as [-> | Hv]; auto.
      left. unfold entryOf in Hv.
      destruct (JsObject.get deps (Dep.name d)) as [e'|]; [eauto|].
      destruct Hv.
    + intros H. eexists. split; [reflexivity|].
      unfold addDependent. simpl. apply keys_set_In.
      destruct H as [[e [He Hv]] | [_ <-]]; auto.
      right. apply addVersion_keys. right. unfold entryOf. now rewrite He.
  - apply String.eqb_neq in En. split; [auto | intros [H | [H _]]; tauto].
Qed.

Lemma seedDependencies_counts (n v : string) :
  countsVersion (seedDependencies this) n v
  <-> JsObject.get (rootDependencies this) n = Some v.
Proof.
  unfold countsVersion. split.
  - intros [e [He Hv]].
    destruct (JsObject.get (rootDependencies this) n) as [v'|] eqn:E.
    + rewrite (seedDependencies_get this n E) in He. inversion He; subst e.
      unfold seedEntry in Hv. simpl in Hv. apply keys_In in Hv.
      destruct Hv as [c Hc]. simpl in Hc.
      destruct (v' =? v) eqn:Ev; [|discriminate].
      apply String.eqb_eq in Ev. now subst.
    + unfold seedDependencies in He.
      rewrite seedRoot_fold_other in He; [discriminate|].
      rewrite entries_keys. intros Hin. apply keys_In in Hin.
      destruct Hin as [x Hx]. congruence.
  - intros E. exists (seedEntry v). split.
    + now apply seedDependencies_get.
    + apply keys_In. unfold seedEntry. simpl. rewrite String.eqb_refl. eauto.
Qed.

Lemma depsToInstall_counts (n v : string) :
  countsVersion (depsToInstall this) n v
  <-> JsObject.get (rootDependencies this) n = Some v
      \/ exists p, In p (requestersOf this n v).
Proof.
  unfold depsToInstall.
  rewrite (fold_left_collects (recordPackage this)
             (fun deps => countsVersion deps n v)
             (fun pkg => exists d, In d (externalDependencies this pkg)
                                   /\ Dep.name d = n /\ Dep.version d = v)).
  - rewrite seedDependencies_counts. split.
    + intros [H | [pkg [Hpkg [d [Hd [Hn Hv]]]]]]; auto.
      right. exists (Package.name pkg). apply requestersOf_In.
      exists pkg, d. auto.
    + intros [H | [p Hp]]; auto. right. apply requestersOf_In in Hp.
      destruct Hp as [pkg [d [Hpkg [Hd [Hn [Hv _]]]]]].
      exists pkg. split; auto. exists d. auto.
  - intros deps pkg. unfold recordPackage.
    rewrite (fold_left_collects (recordDependency (Package.name pkg))
               (fun deps => countsVersion deps n v)
               (fun d => Dep.name d = n /\ Dep.version d = v)); [tauto|].
    intros s d. apply recordDependency_counts.
Qed.

(** X1: in every entry of the aggregate the count of a version is the
    number of requesters recorded under it and the dependents list is
    those requesters in order, so the root manifest's seed adds to no
    count; and the versions an entry holds are the root manifest's range
    for the name and the versions recorded by requesters, no other. *)
Theorem aggregate_entry_contents (n v : string) (e : DepEntry.t) :
  JsObject.get (depsToInstall this) n = Some e ->
  countOf (DepEntry.versions e) v = List.length (requestersOf this n v)
  /\ dependentsOf (DepEntry.dependents e) v = requestersOf this n v
  /\ (In v (JsObject.keys (DepEntry.versions e))
      <-> JsObject.get (rootDependencies this) n = Some v
          \/ exists p, In p (requestersOf this n v)).
Proof.
  intros He. split; [|split].
  - now apply count_requesters.
  - now apply entry_dependents.
  - rewrite <- depsToInstall_counts. unfold countsVersion. split.
    + eauto.
    + intros [e' [He' Hv]]. congruence.
Qed.

(** X2: the names of the aggregate are the names the root manifest
    declares and the names of the dependencies that filtered packages
    record, no other. *)
Theorem aggregate_names (n : string) :
  In n (JsObject.keys (depsToInstall this))
  <-> In n (JsObject.keys (rootDependencies this))
      \/ exists v p, In p (requestersOf this n v).
Proof.
  split.
  - intros Hn. apply keys_In in Hn. destruct Hn as [e He].
    destruct (depsToInstall_wf this n He) as [_ Hne].
    destruct (JsObject.keys (DepEntry.versions e)) as [|v vs] eqn:Ek;
      [congruence|].
    assert (Hc : countsVersion (depsToInstall this) n v).
    { exists e. split; auto. rewrite Ek. now left. }
    apply depsToInstall_counts in Hc. destruct Hc as [Hroot | [p Hp]].
    + left. apply keys_In. eauto.
    + right. eauto.
  - intros H.
    assert (Hc : exists v, countsVersion (depsToInstall this) n v).
    { destruct H as [Hroot | [v [p Hp]]].
      - apply keys_In in Hroot. destruct Hroot as [v Hv].
        exists v. apply depsToInstall_counts. auto.
      - exists v. apply depsToInstall_counts. eauto. }
    destruct Hc as [v [e [He _]]]. apply keys_In. eauto.
Qed.

(** *** The root installs *)

Lemma grows_without_root Pl (st st' : PlanState) :
  growsWith (fun _ => False) Pl st st' -> st_root st' = st_root st.
Proof.
  intros [[r [E F]] _]. destruct r as [|x r].
  - now rewrite app_nil_r in E.
  - inversion F. contradiction.
Qed.

Lemma placeDependency_root_names deps st n st' :
  placeDependency this deps st n = Ok st' ->
  map RootInstall.name (st_root st')
  = map RootInstall.name (st_root st)
    ++ (if isHoisted this n then [n] else []).
Proof.
  intros H. destruct (placeDependency_inv this _ _ _ H)
    as [e [He [[Hh Hrun] | [Hh [cv [pkgs [Hc [Hm Hrun]]]]]]]]; rewrite Hh.
  - apply installVersions_grows with (deps := deps) in Hrun; auto.
    rewrite (grows_without_root Hrun). now rewrite app_nil_r.
  - apply installVersions_grows with (deps := deps) in Hrun; auto.
    rewrite (grows_without_root Hrun). simpl. now rewrite map_app.
Qed.

Lemma planFrom_root_names deps st :
  planFrom this deps = Ok st ->
  map RootInstall.name (st_root st)
  = filter (isHoisted this) (JsObject.keys deps).
Proof.
  unfold planFrom. intros H.
  apply (forEachM_accumulates (placeDependency this deps)
           (fun s => map RootInstall.name (st_root s))
           (fun n => if isHoisted this n then [n] else [])) in H.
  - simpl in H. now rewrite flat_map_filter in H.
  - intros s n s' _. apply placeDependency_root_names.
Qed.

(** X3: the plan holds one root install for each hoisted name of the
    aggregate and none for any other name, in the order [Object.keys]
    lists the names; no name is installed in the root twice. *)
Theorem root_installs_are_the_hoisted_names (plan : Plan)
  (warns : list Warning) :
  getDependenciesToInstall this = Ok (plan, warns) ->
  map RootInstall.name (root plan)
  = filter (isHoisted this) (JsObject.keys (depsToInstall this))
  /\ NoDup (map RootInstall.name (root plan)).
Proof.
  intros Hplan.
  destruct (getDependenciesToInstall_inv this Hplan) as [st [Hrun [Hr _]]].
  rewrite Hr, (planFrom_root_names _ Hrun). split; auto.
  apply NoDup_filter, keys_NoDup.
Qed.

(** X4: the range of a root install is the root manifest's range for the
    name when the manifest declares a non-empty one, and the common
    version when it declares none or the empty one; its spec is the name
    at that range and its satisfaction is the repository's probe of the
    name at that range. *)
Theorem root_install_version (plan : Plan) (warns : list Warning)
  (r : RootInstall.t) :
  getDependenciesToInstall this = Ok (plan, warns) ->
  In r (root plan) ->
  let n := RootInstall.name r in
  let v := DepSpec.version (RootInstall.dependency r) in
  RootInstall.dependency r = DepSpec.mk n v
  /\ RootInstall.isSatisfied r = repository_hasDependencyInstalled n v
  /\ (forall range,
        JsObject.get (rootDependencies this) n = Some range ->
        truthy range = true -> v = range)
  /\ (JsObject.get (rootDependencies this) n = None
      \/ JsObject.get (rootDependencies this) n = Some "" ->
      commonVersion this n = Some v).
Proof.
  intros Hplan Hin.
  destruct (getDependenciesToInstall_inv this Hplan) as [st [Hrun [Hr _]]].
  destruct (planFrom_sound this _ Hrun) as [Hroots _].
  rewrite Hr in Hin. rewrite Forall_forall in Hroots.
  destruct (Hroots r Hin) as [n [_ [e [cv [pkgs [He [_ [Hc [_ ->]]]]]]]]].
  simpl. repeat split.
  - intros range Hroot Ht. now apply rootVersionOf_truthy.
  - intros Hnone. unfold commonVersion. rewrite He, Hc. f_equal.
    unfold rootVersionOf. destruct Hnone as [-> | ->]; reflexivity.
Qed.

(** *** The leaf installs *)

Lemma installVersion_grows_apart n e rv st v st' :
  installVersion this n e rv st v = Ok st' ->
  growsWith (fun _ => False)
    (fun k l => versionLeaf this n e v k l /\ isRootVersion v rv = false)
    st st'.
Proof.
  intros H. destruct (isRootVersion v rv) eqn:E.
  - unfold installVersion in H. rewrite E in H. inversion H.
    apply growsWith_refl.
  - apply installVersion_grows in H. revert H.
    apply growsWith_weaken; auto.
Qed.

(** A leaf install of [deps] for requester [k]: a version of a name that
    [k] requests and that is not the version hoisted for the name. *)
Lemma placeDependency_grows_apart deps st n st' :
  placeDependency this deps st n = Ok st' ->
  growsWith (fun _ => True)
    (fun k l =>
       exists e v pk,
         JsObject.get deps n = Some e
         /\ In k (dependentsOf (DepEntry.dependents e) v)
         /\ findPackage this k None = Some pk
         /\ l = leafOf n v pk
         /\ (isHoisted this n = true ->
             forall cv, commonVersionOf (DepEntry.versions e) = Ok cv ->
                        v <> rootVersionOf this n cv))
    st st'.
Proof.
  intros H. destruct (placeDependency_inv this _ _ _ H)
    as [e [He [[Hh Hrun] | [Hh [cv [pkgs [Hc [Hm Hrun]]]]]]]].
  - revert Hrun. apply forEachM_along.
    + apply growsWith_refl.
    + apply growsWith_trans.
    + intros s v s' _ Hs. apply installVersion_grows_apart in Hs.
      revert Hs. apply growsWith_weaken; [contradiction|].
      intros k l [[Hk [pk [Hf ->]]] _]. exists e, v, pk.
      repeat split; auto. congruence.
  - apply (@growsWith_trans _ _ st (hoistedState this n cv pkgs st) st').
    + split; simpl.
      * eexists. split; [reflexivity|]. repeat constructor.
      * intros k. exists []. rewrite app_nil_r. auto.
    + revert Hrun. apply forEachM_along.
      * apply growsWith_refl.
      * apply growsWith_trans.
      * intros s v s' _ Hs. apply installVersion_grows_apart in Hs.
        revert Hs. apply growsWith_weaken; [contradiction|].
        intros k l [[Hk [pk [Hf ->]]] Hrv]. exists e, v, pk.
        repeat split; auto. intros _ cv' Hc'.
        assert (cv' = cv) by congruence. subst cv'.
        simpl in Hrv. now apply String.eqb_neq.
Qed.

Lemma rootVersion_hoisted n e cv :
  JsObject.get (depsToInstall this) n = Some e ->
  isHoisted this n = true ->
  commonVersionOf (DepEntry.versions e) = Ok cv ->
  rootVersion this n = Some (rootVersionOf this n cv).
Proof.
  intros He Hh Hc. unfold rootVersion, commonVersion.
  now rewrite Hh, He, Hc.
Qed.

Lemma rootVersion_unhoisted n :
  isHoisted this n = false -> rootVersion this n = None.
Proof. intros Hh. unfold rootVersion. now rewrite Hh. Qed.

(** Where a leaf install of the plan comes from. *)
Lemma planFrom_leaf_origin st p l :
  planFrom this (depsToInstall this) = Ok st ->
  In l (leavesOf (st_leaves st) p) ->
  exists n v pk,
    In p (requestersOf this n v)
    /\ rootVersion this n <> Some v
    /\ findPackage this p None = Some pk
    /\ l = leafOf n v pk.
Proof.
  intros Hrun Hin.
  assert (Hg : growsWith (fun _ => True)
            (fun k l =>
               exists n v pk,
                 In k (requestersOf this n v)
                 /\ rootVersion this n <> Some v
                 /\ findPackage this k None = Some pk
                 /\ l = leafOf n v pk)
            initialState st).
  { revert Hrun. unfold planFrom. apply forEachM_along.
    - apply growsWith_refl.
    - apply growsWith_trans.
    - intros s n s' _ Hs. apply placeDependency_grows_apart in Hs.
      revert Hs. apply growsWith_weaken; auto.
      intros k l' [e [v [pk [He [Hk [Hf [-> Hrv]]]]]]].
      exists n, v, pk. repeat split; auto.
      + now rewrite <- (entry_dependents this n v He).
      + destruct (isHoisted this n) eqn:Hh.
        * destruct (depsToInstall_wf this n He) as [_ Hne].
          destruct (@commonVersionOf_total _ Hne) as [cv Hc].
          rewrite (rootVersion_hoisted _ He Hh Hc). intros Heq.
          inversion Heq. now apply (Hrv eq_refl cv Hc).
        * rewrite (rootVersion_unhoisted _ Hh). discriminate. }
  destruct Hg as [_ Hg]. destruct (Hg p) as [ls [E F]].
  rewrite E in Hin. simpl in Hin. rewrite Forall_forall in F. auto.
Qed.

(** X5 (hoist exclusivity): the leaf installs the plan holds for a
    requester are exactly the installs, probed in that requester's
    package, of the names and versions it is recorded under that are not
    the version hoisted to the root for the name. *)
Theorem leaf_installs_are_the_unhoisted_requests (plan : Plan)
  (warns : list Warning) (p : string) (l : LeafInstall.t) :
  getDependenciesToInstall this = Ok (plan, warns) ->
  In l (leavesOf (leaves plan) p)
  <-> exists n v pk,
        In p (requestersOf this n v)
        /\ rootVersion this n <> Some v
        /\ findPackage this p None = Some pk
        /\ l = leafOf n v pk.
Proof.
  intros Hplan.
  destruct (getDependenciesToInstall_inv this Hplan)
    as [st [Hrun [_ [Hl _]]]].
  rewrite Hl. split.
  - intros Hin. now apply (planFrom_leaf_origin _ _ Hrun).
  - intros [n [v [pk [Hp [Hrv [Hf ->]]]]]].
    apply requestersOf_entry in Hp. destruct Hp as [e [He [Hv Hp]]].
    destruct (isHoisted this n) eqn:Hh.
    + destruct (depsToInstall_wf this n He) as [_ Hne].
      destruct (@commonVersionOf_total _ Hne) as [cv Hc].
      rewrite (rootVersion_hoisted _ He Hh Hc) in Hrv.
      destruct (planFrom_leaf_hoisted this _ n p Hrun He Hh Hc Hv)
        as [pk' [Hf' Hin]]; auto; [congruence|].
      assert (pk' = pk) by congruence. now subst.
    + destruct (planFrom_leaf this _ n _ _ Hrun He Hh Hv Hp)
        as [pk' [Hf' Hin]].
      assert (pk' = pk) by congruence. now subst.
Qed.

(** X6: without hoisting the plan has no root install and the planner
    logs no warning. *)
Theorem no_hoist_no_root (plan : Plan) (warns : list Warning) :
  hoistEnabled this = false ->
  getDependenciesToInstall this = Ok (plan, warns) ->
  root plan = [] /\ warns = [].
Proof.
  intros Hoff Hplan.
  assert (Hh : forall n, isHoisted this n = false)
    by (intros n; unfold isHoisted; now rewrite Hoff).
  destruct (getDependenciesToInstall_inv this Hplan)
    as [st [Hrun [Hr [_ ->]]]].
  split.
  - apply (map_eq_nil RootInstall.name).
    rewrite Hr, (planFrom_root_names _ Hrun).
    induction (JsObject.keys (depsToInstall this)) as [|n r IH]; simpl; auto.
    now rewrite Hh.
  - rewrite (planFrom_warnings this _ Hrun).
    induction (JsObject.keys (depsToInstall this)) as [|n r IH]; simpl; auto.
    rewrite IH. unfold warningsFor.
    destruct (JsObject.get (depsToInstall this) n); auto. now rewrite Hh.
Qed.

End PlannerShape.

Section InstallPhaseShape.
Context {C : Collaborators}.
Variable this : BootstrapCommand.

(** X7: the install phase queues no action exactly when the plan has no
    root install and every leaf install is satisfied; with root installs
    it queues the root install, then the prune of the plan's candidates,
    then leaf install actions only, and it does so even when every root
    install is satisfied, the root install then passing no spec. *)
Theorem no_action_iff_nothing_to_install (plan : Plan)
  (warns : list Warning) (actions : list Action) :
  getDependenciesToInstall this = Ok (plan, warns) ->
  installExternalDependencies this = Ok actions ->
  (actions = []
   <-> root plan = []
       /\ forall k l, In l (leavesOf (leaves plan) k) ->
                      LeafInstall.isSatisfied l = true)
  /\ (root plan <> [] ->
      exists specs rest,
        actions = RootInstallAction specs (root plan)
                  :: PruneAction (pruneCandidates this (root plan)) :: rest
        /\ ((forall r, In r (root plan) ->
                       RootInstall.isSatisfied r = true) -> specs = [])
        /\ forall a, In a rest ->
                     exists pkg deps, a = LeafInstallAction pkg deps).
Proof.
  intros Hplan Hrun.
  destruct (installExternalDependencies_inv this Hrun)
    as [plan' [warns' [leafs [Hplan' [Hleafs ->]]]]].
  rewrite Hplan in Hplan'. inversion Hplan'; subst plan' warns'.
  destruct (leafActions_spec this _ Hleafs) as [Hfor Hback].
  split.
  - split.
    + intros Hnil. apply app_eq_nil in Hnil. destruct Hnil as [Hroot ->].
      split.
      * unfold rootActions in Hroot. destruct (root plan); [auto|discriminate].
      * intros k l Hin. unfold leavesOf in Hin.
        destruct (JsObject.get (leaves plan) k) as [deps|] eqn:E;
          [|destruct Hin].
        destruct (Hfor k deps E) as [pkg [_ Hact]].
        destruct (LeafInstall.isSatisfied l) eqn:Hs; auto.
        destruct Hact. eauto.
    + intros [Hroot Hsat]. rewrite Hroot. simpl.
      destruct leafs as [|a leafs]; auto.
      destruct (Hback a) as [k [pkg [deps [_ [Hget [_ [l [Hl Hs]]]]]]]];
        [now left|].
      rewrite (Hsat k l) in Hs; [discriminate|].
      unfold leavesOf. now rewrite Hget.
  - intros Hne. unfold rootActions.
    destruct (root plan) as [|r rs] eqn:Er; [congruence|].
    rewrite <- Er. simpl.
    exists (depsToInstallInRoot (root plan)), leafs. repeat split.
    + apply depsToInstallInRoot_spec.
    + intros a Ha.
      destruct (Hback a Ha) as [k [pkg [deps [-> _]]]]. eauto.
Qed.

(** X8: when every filtered package is in the graph and among the
    packages, no name of a filtered package, no name or range it declares
    and no version of a package is the name of a member of
    [Object.prototype], and the root manifest declares no ["__proto__"],
    neither the planner nor the install phase throws. *)
Theorem install_phase_returns :
  (forall n, In n (JsObject.keys (rootDependencies this)) ->
             n <> "__proto__") ->
  (forall pkg, In pkg (filteredPackages this) ->
               exists p, packageGraph_get this (Package.name pkg) = Some p) ->
  (forall pkg, In pkg (filteredPackages this) ->
               exists p, In p (packages this)
                         /\ Package.name p = Package.name pkg) ->
  (forall pkg, In pkg (filteredPackages this) ->
               JsObject.prototype_member (Package.name pkg) = false) ->
  (forall pkg n range,
     In pkg (filteredPackages this) ->
     JsObject.get (Package.allDependencies pkg) n = Some range ->
     JsObject.prototype_member n = false
     /\ JsObject.prototype_member range = false) ->
  (forall p, In p (packages this) ->
             JsObject.prototype_member (Package.version p) = false) ->
  (exists plan warns, getDependenciesToInstall this = Ok (plan, warns))
  /\ (exists actions, installExternalDependencies this = Ok actions).
Proof.
  intros _ Hgraph Hpkgs Hnames Hdeclared Hversions.
  assert (Hrecorded : forall pkg d,
            In pkg (filteredPackages this) ->
            In d (externalDependencies this pkg) ->
            JsObject.prototype_member (Dep.name d) = false
            /\ JsObject.prototype_member (Dep.version d) = false).
  { intros pkg d Hpkg Hd. apply externalDependencies_In in Hd.
    destruct Hd as [n [range [Hget [-> _]]]].
    destruct (Hdeclared pkg n range Hpkg Hget) as [Hn Hr].
    rewrite toDep_name. split; [exact Hn|].
    unfold toDep. simpl.
    destruct (findPackage this n (Some range)) as [local|] eqn:E; simpl;
      [|exact Hr].
    apply findPackage_name in E. destruct E as [_ Hin]. auto. }
  assert (Hfind : forall pkg, In pkg (filteredPackages this) ->
            exists p, findPackage this (Package.name pkg) None = Some p).
  { intros pkg Hin. destruct (Hpkgs pkg Hin) as [p [Hp Hn]].
    unfold findPackage.
    destruct (find (fun q => (Package.name q =? Package.name pkg)
                             && versionMatches q None) (packages this))
      as [q|] eqn:E; [eauto|].
    apply (find_none _ _ E) in Hp. simpl in Hp.
    rewrite Hn, String.eqb_refl in Hp. discriminate. }
  split.
  - now apply getDependenciesToInstall_returns.
  - now apply installExternalDependencies_returns.
Qed.

End InstallPhaseShape.

(* ------------------------------------------------------------------ *)
(** ** Running the actions *)

Section Series.
Variable T : Type.
Variable run : T -> option Err.

Lemma series_prefix (l : list T) :
  exists rest, l = fst (series run l) ++ rest.
Proof.
  induction l as [|t r [rest IH]]; simpl.
  - exists []. reflexivity.
  - destruct (run t); simpl.
    + exists r. reflexivity.
    + exists rest. f_equal. exact IH.
Qed.

Lemma series_done (l : list T) :
  snd (series run l) = None <-> forall t, In t l -> run t = None.
Proof.
  induction l as [|t r IH]; simpl.
  - split; [intros _ x [] | reflexivity].
  - destruct (run t) eqn:E; simpl.
    + split; [discriminate|]. intros H.
      specialize (H t (or_introl eq_refl)). congruence.
    + rewrite IH. split.
      * intros H x [<- | Hx]; auto.
      * intros H x Hx. apply H. now right.
Qed.

Lemma series_done_all (l : list T) :
  snd (series run l) = None -> fst (series run l) = l.
Proof.
  induction l as [|t r IH]; simpl; [reflexivity|].
  destruct (run t); simpl; [discriminate|].
  intros H. f_equal. now apply IH.
Qed.

Lemma series_failed (l : list T) (e : Err) :
  snd (series run l) = Some e ->
  exists pre t,
    fst (series run l) = pre ++ [t]
    /\ run t = Some e
    /\ forall x, In x pre -> run x = None.
Proof.
  induction l as [|t r IH]; simpl; [discriminate|].
  destruct (run t) eqn:E; simpl.
  - intros H. inversion H; subst. exists [], t.
    repeat split; auto. intros x [].
  - intros H. destruct (IH H) as [pre [t' [Hf [Ht Hpre]]]].
    exists (t :: pre), t'. rewrite Hf. repeat split; auto.
    intros x [<- | Hx]; auto.
Qed.

Lemma series_length (l : list T) :
  List.length (fst (series run l)) <= List.length l.
Proof.
  induction l as [|t r IH]; simpl; [lia|].
  destruct (run t); simpl; lia.
Qed.

Lemma series_before (pre : list T) (t : T) (post : list T) :
  NoDup (pre ++ t :: post) ->
  In t (fst (series run (pre ++ t :: post))) ->
  forall x, In x pre -> run x = None.
Proof.
  induction pre as [|a pre IH]; simpl; intros Hnd Hin x Hx; [destruct Hx|].
  inversion Hnd as [|? ? Hnotin Hnd']; subst.
  assert (Hta : a <> t).
  { intros ->. apply Hnotin. apply in_or_app. right. now left. }
  destruct (run a) eqn:E; simpl in Hin.
  - destruct Hin as [Hin | []]. contradiction.
  - destruct Hin as [Hin | Hin]; [contradiction|].
    destruct Hx as [<- | Hx]; auto.
Qed.

End Series.

Lemma Forall2_mapM_Ok (A B : Type) (f : A -> result B) (l : list A)
  (bs : list B) :
  Forall2 (fun a b => f a = Ok b) l bs -> mapM f l = Ok bs.
Proof.
  induction 1 as [|a b l' bs' Hab _ IH]; simpl; [reflexivity|].
  now rewrite Hab, IH.
Qed.


Section ActionRunShape.
Context {C : Collaborators}.
Variable this : BootstrapCommand.
Variable requirePackageJson : list string -> option PackageJson.
Variable installOutcome : InstallCall -> option Err.
Variable linkOutcome : BinaryLink -> option Err.
Variable rimrafOutcome : string * string -> option Err.

(** Where a root install of the plan comes from. *)
Lemma root_install_origin plan warns r :
  getDependenciesToInstall this = Ok (plan, warns) ->
  In r (root plan) ->
  exists n v pkgs,
    rootVersion this n = Some v
    /\ Forall2 (fun p pkg => packageGraph_get this p = Some pkg)
         (requestersOf this n v) pkgs
    /\ r = RootInstall.mk n pkgs (DepSpec.mk n v)
             (repository_hasDependencyInstalled n v).
Proof.
  intros Hplan Hin.
  destruct (getDependenciesToInstall_inv this Hplan)
    as [st [Hrun [Hr _]]].
  destruct (planFrom_sound this _ Hrun) as [Hroots _].
  rewrite Hr in Hin. rewrite Forall_forall in Hroots.
  destruct (Hroots r Hin)
    as [n [_ [e [cv [pkgs [He [Hh [Hc [Hm ->]]]]]]]]].
  exists n, (rootVersionOf this n cv), pkgs. repeat split.
  - now apply (rootVersion_hoisted this n He Hh Hc).
  - apply mapM_Ok_Forall2 in Hm.
    rewrite (entry_dependents this n _ He) in Hm.
    eapply Forall2_impl; [|exact Hm].
    intros p pkg Hp. now apply graphPackage_Ok.
Qed.

(** The root install of a name with a root version. *)
Lemma root_install_exists plan warns n v :
  getDependenciesToInstall this = Ok (plan, warns) ->
  rootVersion this n = Some v ->
  exists pkgs,
    Forall2 (fun p pkg => packageGraph_get this p = Some pkg)
      (requestersOf this n v) pkgs
    /\ In (RootInstall.mk n pkgs (DepSpec.mk n v)
             (repository_hasDependencyInstalled n v)) (root plan).
Proof.
  intros Hplan Hrv.
  destruct (getDependenciesToInstall_inv this Hplan)
    as [st [Hrun [Hr _]]].
  unfold rootVersion in Hrv.
  destruct (isHoisted this n) eqn:Hh; [|discriminate].
  unfold commonVersion in Hrv.
  destruct (JsObject.get (depsToInstall this) n) as [e|] eqn:He;
    [|discriminate].
  destruct (commonVersionOf (DepEntry.versions e)) as [cv|m] eqn:Hc;
    [|discriminate].
  inversion Hrv; subst v.
  assert (Hn : In n (JsObject.keys (depsToInstall this)))
    by (apply JsObjectFacts.keys_In; eauto).
  destruct (planFrom_root this _ n Hrun Hn Hh)
    as [r [Hin [e' [cv' [pkgs [He' [_ [Hc' [Hm ->]]]]]]]]].
  assert (e' = e) by congruence. subst e'.
  assert (cv' = cv) by congruence. subst cv'.
  exists pkgs. split; [|now rewrite Hr].
  apply mapM_Ok_Forall2 in Hm.
  rewrite (entry_dependents this n _ He) in Hm.
  eapply Forall2_impl; [|exact Hm].
  intros p pkg Hp. now apply graphPackage_Ok.
Qed.

Lemma requester_one_version n v v' p :
  NoDup (map Package.name (filteredPackages this)) ->
  In p (requestersOf this n v) ->
  In p (requestersOf this n v') ->
  v = v'.
Proof.
  intros Hnd Hv Hv'.
  apply requestersOf_In in Hv. destruct Hv as [pkg [d [Hpkg [Hd [Hn [Hdv Hp]]]]]].
  apply requestersOf_In in Hv'.
  destruct Hv' as [pkg' [d' [Hpkg' [Hd' [Hn' [Hdv' Hp']]]]]].
  assert (pkg' = pkg) by (eapply NoDup_map_eq; eauto; congruence).
  subst pkg'.
  assert (d' = d).
  { eapply NoDup_map_eq; eauto; [apply externalDependencies_names|].
    congruence. }
  subst d'. congruence.
Qed.


Lemma completed_work_of_steps (A : Type) (l : list A) :
  workCompleted (map (fun _ => CompleteWork 1) l) = List.length l
  /\ workAdded (map (fun _ => CompleteWork 1) l) = 0.
Proof.
  unfold workCompleted, workAdded.
  induction l as [|a r [IH1 IH2]]; simpl; auto.
Qed.

Lemma workCompleted_app (a b : list TrackerEvent) :
  workCompleted (a ++ b) = workCompleted a + workCompleted b.
Proof. unfold workCompleted. now rewrite map_app, list_sum_app. Qed.

Lemma workAdded_app (a b : list TrackerEvent) :
  workAdded (a ++ b) = workAdded a + workAdded b.
Proof. unfold workAdded. now rewrite map_app, list_sum_app. Qed.

(** X9: the binary links the root install action makes are exactly, for
    each name with a root version whose hoisted package.json declares a
    truthy [bin], one link from the hoisted directory of the name into the
    node_modules directory of the graph package of each requester of
    that root version; requesters of another version get no link. *)
Theorem binary_links_of_the_plan (plan : Plan) (warns : list Warning)
  (link : BinaryLink) :
  getDependenciesToInstall this = Ok (plan, warns) ->
  In link (binaryLinks this requirePackageJson (root plan))
  <-> exists n v p pkg bin,
        rootVersion this n = Some v
        /\ In p (requestersOf this n v)
        /\ packageGraph_get this p = Some pkg
        /\ hoistedBin this requirePackageJson n = Some bin
        /\ binDeclared (Some bin) = true
        /\ link = mkLink (hoistedDirectory this n)
                     (Package.nodeModulesLocation pkg) n bin.
Proof.
  intros Hplan. unfold binaryLinks. rewrite in_flat_map. split.
  - intros [r [Hr Hin]].
    destruct (root_install_origin _ Hplan Hr)
      as [n [v [pkgs [Hv [Hpkgs ->]]]]].
    unfold binaryLinksOf in Hin.
    cbn [RootInstall.name RootInstall.dependents] in Hin.
    destruct (hoistedBin this requirePackageJson n) as [bin|] eqn:Hbin;
      [|destruct Hin].
    destruct (binDeclared (Some bin)) eqn:Hdecl; [|destruct Hin].
    apply in_map_iff in Hin. destruct Hin as [pkg [<- Hpkg]].
    destruct (Forall2_In_r _ Hpkgs Hpkg) as [p [Hp Hg]].
    exists n, v, p, pkg, bin. repeat split; auto.
  - intros [n [v [p [pkg [bin [Hv [Hp [Hg [Hbin [Hdecl ->]]]]]]]]]].
    destruct (root_install_exists _ Hplan Hv) as [pkgs [Hpkgs Hr]].
    destruct (Forall2_In_l _ Hpkgs Hp) as [pkg' [Hpkg Hg']].
    assert (pkg' = pkg) by congruence. subst pkg'.
    eexists. split; [exact Hr|].
    unfold binaryLinksOf.
    cbn [RootInstall.name RootInstall.dependents]. rewrite Hbin, Hdecl.
    apply in_map_iff. exists pkg. split; auto.
Qed.

(** X10: the root install action makes one installer call, in the root
    directory.  When that call fails the action calls back with its error,
    links nothing and completes no work.  When it succeeds the action
    starts the binary links in order up to the first that fails, logs that
    it finished and completes its unit of work even then, and calls back
    with the error of the failing link, or with none when every link
    succeeds. *)
Theorem root_install_run (deps : list string) (root : list RootInstall.t) :
  let call := mkCall (rootPath (repository this)) deps None in
  let links := binaryLinks this requirePackageJson root in
  let run := runAction this requirePackageJson installOutcome linkOutcome
               rimrafOutcome (RootInstallAction deps root) in
  run_installs run = [call]
  /\ run_removed run = []
  /\ (forall e, installOutcome call = Some e ->
                run_error run = Some e
                /\ run_links run = []
                /\ workCompleted (run_events run) = 0)
  /\ (installOutcome call = None ->
      (exists rest, links = run_links run ++ rest)
      /\ In (TrackerInfo "hoist" "Finished installing in root")
           (run_events run)
      /\ workCompleted (run_events run) = 1
      /\ (run_error run = None
          <-> forall l, In l links -> linkOutcome l = None)
      /\ (run_error run = None -> run_links run = links)
      /\ (forall e, run_error run = Some e ->
                    exists pre l,
                      run_links run = pre ++ [l]
                      /\ linkOutcome l = Some e
                      /\ forall x, In x pre -> linkOutcome x = None)).
Proof.
  intros call links run. unfold run, runAction. fold call. fold links.
  destruct (installOutcome call) as [err|] eqn:E; simpl.
  - repeat split; auto; try discriminate.
    destruct deps; reflexivity.
  - repeat split; auto; try discriminate.
    + apply series_prefix.
    + apply in_or_app. right. now left.
    + rewrite workCompleted_app. destruct deps; reflexivity.
    + apply series_done.
    + apply series_done.
    + apply series_done_all.
    + apply series_failed.
Qed.


(** X12: when the filtered packages have distinct names, a requester of
    the root version of a name has no leaf install of that name: what is
    hoisted for a package, and pruned from it, is not installed in it as
    well. *)
Theorem hoisted_request_has_no_leaf_install (plan : Plan)
  (warns : list Warning) (n v p : string) (l : LeafInstall.t) :
  NoDup (map Package.name (filteredPackages this)) ->
  getDependenciesToInstall this = Ok (plan, warns) ->
  rootVersion this n = Some v ->
  In p (requestersOf this n v) ->
  In l (leavesOf (leaves plan) p) ->
  DepSpec.name (LeafInstall.dependency l) <> n.
Proof.
  intros Hnd Hplan Hv Hp Hl.
  destruct (getDependenciesToInstall_inv this Hplan)
    as [st [Hrun [_ [Hleaves _]]]].
  rewrite Hleaves in Hl.
  destruct (planFrom_leaf_origin _ _ _ Hrun Hl)
    as [n' [v' [pk [Hp' [Hrv [_ ->]]]]]].
  simpl. intros ->.
  assert (v' = v) by (eapply requester_one_version; eauto).
  subst v'. contradiction.
Qed.

(** X13: no action completes more work than its own unit and the work it
    added, and an action that calls back without an error has completed
    exactly that much, so a run without errors leaves no work pending on
    the tracker. *)
Theorem tracker_work_balance (a : Action) :
  let run := runAction this requirePackageJson installOutcome linkOutcome
               rimrafOutcome a in
  workCompleted (run_events run) <= 1 + workAdded (run_events run)
  /\ (run_error run = None ->
      workCompleted (run_events run) = 1 + workAdded (run_events run)).
Proof.
  destruct a as [deps root | candidates | pkg deps]; simpl.
  - destruct (installOutcome _); simpl.
    + split; [|discriminate]. destruct deps; simpl; unfold workCompleted;
        simpl; lia.
    + rewrite workCompleted_app, workAdded_app.
      destruct deps; simpl; unfold workCompleted, workAdded; simpl; auto.
  - destruct candidates as [|c cs]; [simpl; auto|].
    remember (c :: cs) as cands eqn:Ec.
    assert (Hlen := series_length rimrafOutcome cands).
    cbn [run_events run_error].
    change (TrackerInfo "hoist" "Pruning hoisted dependencies"
            :: AddWork (List.length cands)
            :: map (fun _ => CompleteWork 1) (fst (series rimrafOutcome cands))
               ++ [TrackerInfo "hoist" "Finished pruning hoisted dependencies";
                   CompleteWork 1])
      with ([TrackerInfo "hoist" "Pruning hoisted dependencies";
             AddWork (List.length cands)]
            ++ map (fun _ => CompleteWork 1) (fst (series rimrafOutcome cands))
            ++ [TrackerInfo "hoist" "Finished pruning hoisted dependencies";
                CompleteWork 1]).
    rewrite !workCompleted_app, !workAdded_app.
    destruct (completed_work_of_steps (fst (series rimrafOutcome cands)))
      as [-> ->].
    unfold workCompleted, workAdded. simpl. split; [lia|].
    intros Hnone. rewrite (series_done_all _ _ Hnone). lia.
  - unfold workCompleted, workAdded. simpl. auto.
Qed.

End ActionRunShape.

(* ------------------------------------------------------------------ *)
(** ** The phases *)

Lemma bootstrapPhases_NoDup (useWorkspaces : bool) :
  NoDup (bootstrapPhases useWorkspaces).
Proof.
  destruct useWorkspaces; simpl; repeat constructor; simpl;
    intuition discriminate.
Qed.

(** X14: [execute] starts the phases in their order and stops at the
    first that calls back with an error: a phase is started only when
    every phase before it succeeded, the error handed on is that of the
    failing phase, and success is logged exactly when no phase failed. *)
Theorem bootstrap_stops_at_first_failure (this : BootstrapCommand)
  (useWorkspaces : bool) (phaseOutcome : Phase -> option Err) :
  let ex := execute this useWorkspaces phaseOutcome in
  let phases := bootstrapPhases useWorkspaces in
  (exists rest, phases = exec_phases ex ++ rest)
  /\ (exec_error ex = None
      <-> forall ph, In ph phases -> phaseOutcome ph = None)
  /\ (In (Bootstrapped (List.length (filteredPackages this))) (exec_log ex)
      <-> exec_error ex = None)
  /\ (forall e, exec_error ex = Some e ->
                exists pre ph,
                  exec_phases ex = pre ++ [ph]
                  /\ phaseOutcome ph = Some e
                  /\ forall x, In x pre -> phaseOutcome x = None)
  /\ (forall pre ph post,
        phases = pre ++ ph :: post ->
        In ph (exec_phases ex) ->
        forall x, In x pre -> phaseOutcome x = None).
Proof.
  intros ex phases. unfold ex, execute, bootstrapPackages. fold phases.
  assert (Hpre := series_prefix phaseOutcome phases).
  assert (Hdone := series_done phaseOutcome phases).
  assert (Hfail := series_failed phaseOutcome phases).
  assert (Hnd := bootstrapPhases_NoDup useWorkspaces). fold phases in Hnd.
  assert (Hbefore : forall pre ph post,
            phases = pre ++ ph :: post ->
            In ph (fst (series phaseOutcome phases)) ->
            forall x, In x pre -> phaseOutcome x = None).
  { intros pre ph post Heq. rewrite Heq in Hnd |- *.
    now apply series_before. }
  destruct (snd (series phaseOutcome phases)) as [err|] eqn:E; simpl.
  - repeat split; auto; try discriminate.
    + intros H. apply Hdone in H. discriminate.
    + intros [H | []]; discriminate.
  - repeat split; auto; try discriminate.
    + now apply Hdone.
Qed.

(* ------------------------------------------------------------------ *)
(** ** The further properties on the scenarios *)

(** Scenario 3: the entry of [react] counts three requesters of ["15.x"],
    the root manifest's own request apart. *)
Lemma aggregate_entry_contents_react :
  exists e,
    JsObject.get (depsToInstall (C := Scenario.fresh) Scenario.react) "react"
    = Some e
    /\ countOf (DepEntry.versions e) "15.x" = 3
    /\ dependentsOf (DepEntry.dependents e) "^0.14.0" = ["c4"].
Proof.
  assert (He : exists e,
            JsObject.get (depsToInstall (C := Scenario.fresh) Scenario.react)
              "react" = Some e)
    by (eexists; vm_compute; reflexivity).
  destruct He as [e He]. exists e. split; [exact He|].
  destruct (@aggregate_entry_contents Scenario.fresh Scenario.react
              "react" "15.x" e He) as [Hc _].
  destruct (@aggregate_entry_contents Scenario.fresh Scenario.react
              "react" "^0.14.0" e He) as [_ [Hd _]].
  rewrite Hc, Hd. split; reflexivity.
Defined.

(** Scenario 1: [left-pad] is the one name installed in the root. *)
Lemma root_installs_are_the_hoisted_names_leftPad :
  exists plan warns,
    getDependenciesToInstall (C := Scenario.fresh) Scenario.leftPad
    = Ok (plan, warns)
    /\ map RootInstall.name (root plan) = ["left-pad"].
Proof.
  assert (Hplan : exists plan warns,
            getDependenciesToInstall (C := Scenario.fresh) Scenario.leftPad
            = Ok (plan, warns))
    by (eexists; eexists; vm_compute; reflexivity).
  destruct Hplan as [plan [warns Hplan]]. exists plan, warns.
  split; [exact Hplan|].
  destruct (@root_installs_are_the_hoisted_names Scenario.fresh
              Scenario.leftPad plan warns Hplan) as [Hnames _].
  rewrite Hnames. reflexivity.
Defined.

(** Scenario 3: the root install of [react] takes the root manifest's
    range. *)
Lemma root_install_version_react :
  exists plan warns r,
    getDependenciesToInstall (C := Scenario.fresh) Scenario.react
    = Ok (plan, warns)
    /\ In r (root plan)
    /\ RootInstall.name r = "react"
    /\ DepSpec.version (RootInstall.dependency r) = "^0.14.0".
Proof.
  assert (Hplan : exists plan warns r,
            getDependenciesToInstall (C := Scenario.fresh) Scenario.react
            = Ok (plan, warns)
            /\ In r (root plan)
            /\ RootInstall.name r = "react").
  { eexists. eexists. eexists. split; [vm_compute; reflexivity|].
    split; [left; reflexivity | reflexivity]. }
  destruct Hplan as [plan [warns [r [Hplan [Hin Hname]]]]].
  exists plan, warns, r. repeat split; auto.
  pose proof (@root_install_version Scenario.fresh Scenario.react plan
                warns r Hplan Hin) as H.
  cbv zeta in H. destruct H as [_ [_ [Hroot _]]].
  apply Hroot; [rewrite Hname; reflexivity | reflexivity].
Defined.

(** Scenario 1: [a] asks for the range that is not hoisted and gets a
    leaf install of it. *)
Lemma leaf_installs_are_the_unhoisted_requests_leftPad :
  exists plan warns,
    getDependenciesToInstall (C := Scenario.fresh) Scenario.leftPad
    = Ok (plan, warns)
    /\ In (leafOf (C := Scenario.fresh) "left-pad" "^1.0.0" Scenario.padA)
         (leavesOf (leaves plan) "a").
Proof.
  assert (Hplan : exists plan warns,
            getDependenciesToInstall (C := Scenario.fresh) Scenario.leftPad
            = Ok (plan, warns))
    by (eexists; eexists; vm_compute; reflexivity).
  destruct Hplan as [plan [warns Hplan]]. exists plan, warns.
  split; [exact Hplan|].
  apply (proj2 (@leaf_installs_are_the_unhoisted_requests Scenario.fresh
                  Scenario.leftPad plan warns "a" _ Hplan)).
  exists "left-pad", "^1.0.0", Scenario.padA. repeat split.
  - left. reflexivity.
  - vm_compute. discriminate.
Defined.

(** Scenario 5, where hoisting is off: no root install, no warning. *)
Lemma no_hoist_no_root_mismatch :
  exists plan warns,
    getDependenciesToInstall (C := Scenario.fresh) Scenario.mismatch
    = Ok (plan, warns)
    /\ root plan = [] /\ warns = [].
Proof.
  assert (Hplan : exists plan warns,
            getDependenciesToInstall (C := Scenario.fresh) Scenario.mismatch
            = Ok (plan, warns))
    by (eexists; eexists; vm_compute; reflexivity).
  destruct Hplan as [plan [warns Hplan]]. exists plan, warns.
  split; [exact Hplan|].
  apply (@no_hoist_no_root Scenario.fresh Scenario.mismatch plan warns);
    [reflexivity | exact Hplan].
Defined.

(** Scenario 1 with everything installed already: the root install, with
    no spec, and the prune are queued all the same. *)
Lemma no_action_iff_nothing_to_install_leftPad :
  exists plan warns actions rest,
    getDependenciesToInstall (C := Scenario.installed) Scenario.leftPad
    = Ok (plan, warns)
    /\ installExternalDependencies (C := Scenario.installed) Scenario.leftPad
       = Ok actions
    /\ actions = RootInstallAction [] (root plan)
                 :: PruneAction (pruneCandidates Scenario.leftPad (root plan))
                 :: rest.
Proof.
  assert (Hplan : exists plan warns,
            getDependenciesToInstall (C := Scenario.installed)
              Scenario.leftPad = Ok (plan, warns)
            /\ root plan <> []
            /\ forall r, In r (root plan) ->
                         RootInstall.isSatisfied r = true).
  { eexists. eexists. split; [vm_compute; reflexivity|].
    split; [discriminate|]. intros r [<- | []]. reflexivity. }
  assert (Hrun : exists actions,
            installExternalDependencies (C := Scenario.installed)
              Scenario.leftPad = Ok actions)
    by (eexists; vm_compute; reflexivity).
  destruct Hplan as [plan [warns [Hplan [Hne Hsat]]]].
  destruct Hrun as [actions Hrun].
  destruct (proj2 (@no_action_iff_nothing_to_install Scenario.installed
                     Scenario.leftPad plan warns actions Hplan Hrun) Hne)
    as [specs [rest [Hactions [Hspecs _]]]].
  exists plan, warns, actions, rest. repeat split; auto.
  now rewrite <- (Hspecs Hsat).
Defined.

(** A dependency named [constructor]: [depsToInstall[name]] finds the
    inherited member and the planner throws, and so does the install
    phase. *)
Example planner_throws_on_inherited_name :
  getDependenciesToInstall (C := Scenario.fresh) RunScenario.inheritedName
  = TypeError "Cannot read property of undefined"
  /\ installExternalDependencies (C := Scenario.fresh)
       RunScenario.inheritedName
     = TypeError "Cannot read property of undefined".
Proof. split; vm_compute; reflexivity. Qed.

(** Scenario 1: both packages are in the graph and among the packages,
    and no name, range or version is the name of an inherited member. *)
Lemma install_phase_returns_leftPad :
  (exists plan warns,
     getDependenciesToInstall (C := Scenario.fresh) Scenario.leftPad
     = Ok (plan, warns))
  /\ (exists actions,
        installExternalDependencies (C := Scenario.fresh) Scenario.leftPad
        = Ok actions).
Proof.
  apply (@install_phase_returns Scenario.fresh Scenario.leftPad).
  - intros n [].
  - intros pkg [<- | [<- | []]]; eexists; reflexivity.
  - intros pkg [<- | [<- | []]]; eexists; split;
      [left; reflexivity | reflexivity | right; left; reflexivity
       | reflexivity].
  - intros pkg [<- | [<- | []]]; reflexivity.
  - intros pkg n range [<- | [<- | []]] Hget;
      apply JsObjectFacts.get_In in Hget; destruct Hget as [Hget | []];
      inversion Hget; split; reflexivity.
  - intros p [<- | [<- | []]]; reflexivity.
Defined.

(** Scenario 1: the command of the hoisted [left-pad] is linked into [b],
    which asked for the hoisted range. *)
Lemma binary_links_of_the_plan_leftPad :
  exists plan warns,
    getDependenciesToInstall (C := Scenario.fresh) Scenario.leftPad
    = Ok (plan, warns)
    /\ In (mkLink ["/repo"; "node_modules"; "left-pad"]
             "/repo/packages/b/node_modules" "left-pad"
             (BinPath "bin/left-pad.js"))
         (binaryLinks Scenario.leftPad RunScenario.padJson (root plan)).
Proof.
  assert (Hplan : exists plan warns,
            getDependenciesToInstall (C := Scenario.fresh) Scenario.leftPad
            = Ok (plan, warns))
    by (eexists; eexists; vm_compute; reflexivity).
  destruct Hplan as [plan [warns Hplan]]. exists plan, warns.
  split; [exact Hplan|].
  apply (proj2 (@binary_links_of_the_plan Scenario.fresh Scenario.leftPad
                  RunScenario.padJson plan warns _ Hplan)).
  exists "left-pad", "^1.1.0", "b", Scenario.padB,
    (BinPath "bin/left-pad.js").
  repeat split. left. reflexivity.
Defined.


(** [b] has a leaf install, of [x], and [left-pad] is hoisted for it: the
    leaf install is not one of [left-pad]. *)
Lemma hoisted_request_has_no_leaf_install_twoDeps :
  exists plan warns l,
    getDependenciesToInstall (C := Scenario.fresh) RunScenario.twoDeps
    = Ok (plan, warns)
    /\ In l (leavesOf (leaves plan) "b")
    /\ DepSpec.name (LeafInstall.dependency l) <> "left-pad".
Proof.
  assert (Hplan : exists plan warns l,
            getDependenciesToInstall (C := Scenario.fresh)
              RunScenario.twoDeps = Ok (plan, warns)
            /\ In l (leavesOf (leaves plan) "b")).
  { eexists. eexists. eexists. split; [vm_compute; reflexivity|].
    left. reflexivity. }
  destruct Hplan as [plan [warns [l [Hplan Hl]]]]. exists plan, warns, l.
  repeat split; auto.
  apply (@hoisted_request_has_no_leaf_install Scenario.fresh
           RunScenario.twoDeps plan warns "left-pad" "^1.0.0" "b" l);
    auto.
  - simpl. repeat constructor; simpl; intuition discriminate.
  - left. reflexivity.
Defined.
